(** * EasyPay: the MIFARE DESFire protocol stack

    A shallow embedding of the cryptographic core of the EasyPay firmware
    (src/mifare/des.c, mifare_key.c, mifare_crypto.c and the transport and
    authentication parts of mifare.c), and the properties of it that the
    specification states.

    Conventions.
    - A C integer is a [Z]; a narrowing conversion is written out ([u8],
      [u16], [to_size_t]).  [DES_LONG] values carry the masks the source
      itself applies ("clear the top bits on machines with 8byte longs").
    - A buffer is a [list Z] of bytes.  A pointer [p + off] into a buffer is
      the suffix [skipn off p]; a function that writes through a pointer
      returns the updated buffer.
    - The collaborators that are not part of the sources are parameters of
      the development: the DES S/P table [DES_SPtrans] (file spr.h), the AES
      primitives (aes.h has prototypes only), the width of [size_t], and the
      indeterminate initial contents of an uninitialised local array. *)

From Stdlib Require Import ZArith List Lia Bool.
Import ListNotations.
Local Open Scope Z_scope.

(** ** Integer conversions *)

Definition u8 (x : Z) : Z := Z.land x 0xff.
Definition u16 (x : Z) : Z := Z.land x 0xffff.

Definition is_byte (x : Z) : bool := (0 <=? x) && (x <? 256).
Definition bytes_ok (l : list Z) : bool := forallb is_byte l.

(** ** Buffers *)

(** [buf[i]]: a read outside the buffer is undefined in C; the model reads 0. *)
Definition rd (buf : list Z) (i : Z) : Z := nth (Z.to_nat i) buf 0.

(** [buf[i] = v]: a write outside the buffer is undefined in C; the model
    leaves the buffer as it is. *)
Definition wr (buf : list Z) (i v : Z) : list Z :=
  if (0 <=? i) && (i <? Z.of_nat (length buf))
  then firstn (Z.to_nat i) buf ++ v :: skipn (S (Z.to_nat i)) buf
  else buf.

(** [memcpy(dst, src, n)] and [memset(dst, c, n)] on the buffers they point to. *)
Definition memcpy (dst src : list Z) (n : nat) : list Z :=
  firstn n src ++ skipn n dst.

Definition memset (dst : list Z) (c : Z) (n : nat) : list Z :=
  repeat c n ++ skipn n dst.

(** [memcmp(a, b, n) == 0]. *)
Definition memeq (a b : list Z) (n : nat) : bool :=
  if list_eq_dec Z.eq_dec (firstn n a) (firstn n b) then true else false.

(** The buffer [buf] after the region that starts at [off] became [view]. *)
Definition store_at (buf : list Z) (off : nat) (view : list Z) : list Z :=
  firstn off buf ++ view.

(** ** DES (des.h, des.c) *)

Definition DES_ENCRYPT : Z := 1.
Definition DES_DECRYPT : Z := 0.

Definition c2l (c : list Z) : Z :=
  let l := rd c 0 in
  let l := Z.lor l (Z.shiftl (rd c 1) 8) in
  let l := Z.lor l (Z.shiftl (rd c 2) 16) in
  Z.lor l (Z.shiftl (rd c 3) 24).

Definition l2c (l : Z) : list Z :=
  [ Z.land l 0xff; Z.land (Z.shiftr l 8) 0xff;
    Z.land (Z.shiftr l 16) 0xff; Z.land (Z.shiftr l 24) 0xff ].

Definition ROTATE (a n : Z) : Z := Z.shiftr a n + Z.shiftl a (32 - n).

(** [PERM_OP(a,b,t,n,m)]: the pair (a, b) afterwards. *)
Definition PERM_OP (a b n m : Z) : Z * Z :=
  let t := Z.land (Z.lxor (Z.shiftr a n) b) m in
  let b := Z.lxor b t in
  let a := Z.lxor a (Z.shiftl t n) in
  (a, b).

Definition HPERM_OP (a n m : Z) : Z :=
  let t := Z.land (Z.lxor (Z.shiftl a (16 - n)) a) m in
  Z.lxor (Z.lxor a t) (Z.shiftr t (16 - n)).

(** [IP(l,r)] and [FP(l,r)]: the pair (l, r) afterwards. *)
Definition IP (l r : Z) : Z * Z :=
  let '(r, l) := PERM_OP r l 4 0x0f0f0f0f in
  let '(l, r) := PERM_OP l r 16 0x0000ffff in
  let '(r, l) := PERM_OP r l 2 0x33333333 in
  let '(l, r) := PERM_OP l r 8 0x00ff00ff in
  let '(r, l) := PERM_OP r l 1 0x55555555 in
  (l, r).

Definition FP (l r : Z) : Z * Z :=
  let '(l, r) := PERM_OP l r 1 0x55555555 in
  let '(r, l) := PERM_OP r l 8 0x00ff00ff in
  let '(l, r) := PERM_OP l r 2 0x33333333 in
  let '(r, l) := PERM_OP r l 16 0x0000ffff in
  let '(l, r) := PERM_OP l r 4 0x0f0f0f0f in
  (l, r).

Definition des_skb : list (list Z) :=
[
  [
   0x00000000; 0x00000010; 0x20000000; 0x20000010; 0x00010000; 0x00010010; 0x20010000; 0x20010010;
   0x00000800; 0x00000810; 0x20000800; 0x20000810; 0x00010800; 0x00010810; 0x20010800; 0x20010810;
   0x00000020; 0x00000030; 0x20000020; 0x20000030; 0x00010020; 0x00010030; 0x20010020; 0x20010030;
   0x00000820; 0x00000830; 0x20000820; 0x20000830; 0x00010820; 0x00010830; 0x20010820; 0x20010830;
   0x00080000; 0x00080010; 0x20080000; 0x20080010; 0x00090000; 0x00090010; 0x20090000; 0x20090010;
   0x00080800; 0x00080810; 0x20080800; 0x20080810; 0x00090800; 0x00090810; 0x20090800; 0x20090810;
   0x00080020; 0x00080030; 0x20080020; 0x20080030; 0x00090020; 0x00090030; 0x20090020; 0x20090030;
   0x00080820; 0x00080830; 0x20080820; 0x20080830; 0x00090820; 0x00090830; 0x20090820; 0x20090830 ];
  [
   0x00000000; 0x02000000; 0x00002000; 0x02002000; 0x00200000; 0x02200000; 0x00202000; 0x02202000;
   0x00000004; 0x02000004; 0x00002004; 0x02002004; 0x00200004; 0x02200004; 0x00202004; 0x02202004;
   0x00000400; 0x02000400; 0x00002400; 0x02002400; 0x00200400; 0x02200400; 0x00202400; 0x02202400;
   0x00000404; 0x02000404; 0x00002404; 0x02002404; 0x00200404; 0x02200404; 0x00202404; 0x02202404;
   0x10000000; 0x12000000; 0x10002000; 0x12002000; 0x10200000; 0x12200000; 0x10202000; 0x12202000;
   0x10000004; 0x12000004; 0x10002004; 0x12002004; 0x10200004; 0x12200004; 0x10202004; 0x12202004;
   0x10000400; 0x12000400; 0x10002400; 0x12002400; 0x10200400; 0x12200400; 0x10202400; 0x12202400;
   0x10000404; 0x12000404; 0x10002404; 0x12002404; 0x10200404; 0x12200404; 0x10202404; 0x12202404 ];
  [
   0x00000000; 0x00000001; 0x00040000; 0x00040001; 0x01000000; 0x01000001; 0x01040000; 0x01040001;
   0x00000002; 0x00000003; 0x00040002; 0x00040003; 0x01000002; 0x01000003; 0x01040002; 0x01040003;
   0x00000200; 0x00000201; 0x00040200; 0x00040201; 0x01000200; 0x01000201; 0x01040200; 0x01040201;
   0x00000202; 0x00000203; 0x00040202; 0x00040203; 0x01000202; 0x01000203; 0x01040202; 0x01040203;
   0x08000000; 0x08000001; 0x08040000; 0x08040001; 0x09000000; 0x09000001; 0x09040000; 0x09040001;
   0x08000002; 0x08000003; 0x08040002; 0x08040003; 0x09000002; 0x09000003; 0x09040002; 0x09040003;
   0x08000200; 0x08000201; 0x08040200; 0x08040201; 0x09000200; 0x09000201; 0x09040200; 0x09040201;
   0x08000202; 0x08000203; 0x08040202; 0x08040203; 0x09000202; 0x09000203; 0x09040202; 0x09040203 ];
  [
   0x00000000; 0x00100000; 0x00000100; 0x00100100; 0x00000008; 0x00100008; 0x00000108; 0x00100108;
   0x00001000; 0x00101000; 0x00001100; 0x00101100; 0x00001008; 0x00101008; 0x00001108; 0x00101108;
   0x04000000; 0x04100000; 0x04000100; 0x04100100; 0x04000008; 0x04100008; 0x04000108; 0x04100108;
   0x04001000; 0x04101000; 0x04001100; 0x04101100; 0x04001008; 0x04101008; 0x04001108; 0x04101108;
   0x00020000; 0x00120000; 0x00020100; 0x00120100; 0x00020008; 0x00120008; 0x00020108; 0x00120108;
   0x00021000; 0x00121000; 0x00021100; 0x00121100; 0x00021008; 0x00121008; 0x00021108; 0x00121108;
   0x04020000; 0x04120000; 0x04020100; 0x04120100; 0x04020008; 0x04120008; 0x04020108; 0x04120108;
   0x04021000; 0x04121000; 0x04021100; 0x04121100; 0x04021008; 0x04121008; 0x04021108; 0x04121108 ];
  [
   0x00000000; 0x10000000; 0x00010000; 0x10010000; 0x00000004; 0x10000004; 0x00010004; 0x10010004;
   0x20000000; 0x30000000; 0x20010000; 0x30010000; 0x20000004; 0x30000004; 0x20010004; 0x30010004;
   0x00100000; 0x10100000; 0x00110000; 0x10110000; 0x00100004; 0x10100004; 0x00110004; 0x10110004;
   0x20100000; 0x30100000; 0x20110000; 0x30110000; 0x20100004; 0x30100004; 0x20110004; 0x30110004;
   0x00001000; 0x10001000; 0x00011000; 0x10011000; 0x00001004; 0x10001004; 0x00011004; 0x10011004;
   0x20001000; 0x30001000; 0x20011000; 0x30011000; 0x20001004; 0x30001004; 0x20011004; 0x30011004;
   0x00101000; 0x10101000; 0x00111000; 0x10111000; 0x00101004; 0x10101004; 0x00111004; 0x10111004;
   0x20101000; 0x30101000; 0x20111000; 0x30111000; 0x20101004; 0x30101004; 0x20111004; 0x30111004 ];
  [
   0x00000000; 0x08000000; 0x00000008; 0x08000008; 0x00000400; 0x08000400; 0x00000408; 0x08000408;
   0x00020000; 0x08020000; 0x00020008; 0x08020008; 0x00020400; 0x08020400; 0x00020408; 0x08020408;
   0x00000001; 0x08000001; 0x00000009; 0x08000009; 0x00000401; 0x08000401; 0x00000409; 0x08000409;
   0x00020001; 0x08020001; 0x00020009; 0x08020009; 0x00020401; 0x08020401; 0x00020409; 0x08020409;
   0x02000000; 0x0a000000; 0x02000008; 0x0a000008; 0x02000400; 0x0a000400; 0x02000408; 0x0a000408;
   0x02020000; 0x0a020000; 0x02020008; 0x0a020008; 0x02020400; 0x0a020400; 0x02020408; 0x0a020408;
   0x02000001; 0x0a000001; 0x02000009; 0x0a000009; 0x02000401; 0x0a000401; 0x02000409; 0x0a000409;
   0x02020001; 0x0a020001; 0x02020009; 0x0a020009; 0x02020401; 0x0a020401; 0x02020409; 0x0a020409 ];
  [
   0x00000000; 0x00000100; 0x00080000; 0x00080100; 0x01000000; 0x01000100; 0x01080000; 0x01080100;
   0x00000010; 0x00000110; 0x00080010; 0x00080110; 0x01000010; 0x01000110; 0x01080010; 0x01080110;
   0x00200000; 0x00200100; 0x00280000; 0x00280100; 0x01200000; 0x01200100; 0x01280000; 0x01280100;
   0x00200010; 0x00200110; 0x00280010; 0x00280110; 0x01200010; 0x01200110; 0x01280010; 0x01280110;
   0x00000200; 0x00000300; 0x00080200; 0x00080300; 0x01000200; 0x01000300; 0x01080200; 0x01080300;
   0x00000210; 0x00000310; 0x00080210; 0x00080310; 0x01000210; 0x01000310; 0x01080210; 0x01080310;
   0x00200200; 0x00200300; 0x00280200; 0x00280300; 0x01200200; 0x01200300; 0x01280200; 0x01280300;
   0x00200210; 0x00200310; 0x00280210; 0x00280310; 0x01200210; 0x01200310; 0x01280210; 0x01280310 ];
  [
   0x00000000; 0x04000000; 0x00040000; 0x04040000; 0x00000002; 0x04000002; 0x00040002; 0x04040002;
   0x00002000; 0x04002000; 0x00042000; 0x04042000; 0x00002002; 0x04002002; 0x00042002; 0x04042002;
   0x00000020; 0x04000020; 0x00040020; 0x04040020; 0x00000022; 0x04000022; 0x00040022; 0x04040022;
   0x00002020; 0x04002020; 0x00042020; 0x04042020; 0x00002022; 0x04002022; 0x00042022; 0x04042022;
   0x00000800; 0x04000800; 0x00040800; 0x04040800; 0x00000802; 0x04000802; 0x00040802; 0x04040802;
   0x00002800; 0x04002800; 0x00042800; 0x04042800; 0x00002802; 0x04002802; 0x00042802; 0x04042802;
   0x00000820; 0x04000820; 0x00040820; 0x04040820; 0x00000822; 0x04000822; 0x00040822; 0x04040822;
   0x00002820; 0x04002820; 0x00042820; 0x04042820; 0x00002822; 0x04002822; 0x00042822; 0x04042822 ] ].

Definition skb (i : nat) (j : Z) : Z := rd (nth i des_skb []) j.

Definition shifts2 : list Z := [0;0;1;1;1;1;1;1;0;1;1;1;1;1;1;0].

(** One iteration of the key-schedule loop: the new (c, d) and the two
    [DES_LONG]s stored through [k]. *)
Definition set_key_round (cd : Z * Z) (sh : Z) : (Z * Z) * list Z :=
  let '(c, d) := cd in
  let c := if sh =? 0 then Z.lor (Z.shiftr c 1) (Z.shiftl c 27)
           else Z.lor (Z.shiftr c 2) (Z.shiftl c 26) in
  let d := if sh =? 0 then Z.lor (Z.shiftr d 1) (Z.shiftl d 27)
           else Z.lor (Z.shiftr d 2) (Z.shiftl d 26) in
  let c := Z.land c 0x0fffffff in
  let d := Z.land d 0x0fffffff in
  let s := Z.lor (Z.lor (Z.lor
             (skb 0 (Z.land c 0x3f))
             (skb 1 (Z.lor (Z.land (Z.shiftr c 6) 0x03) (Z.land (Z.shiftr c 7) 0x3c))))
             (skb 2 (Z.lor (Z.land (Z.shiftr c 13) 0x0f) (Z.land (Z.shiftr c 14) 0x30))))
             (skb 3 (Z.lor (Z.lor (Z.land (Z.shiftr c 20) 0x01) (Z.land (Z.shiftr c 21) 0x06))
                           (Z.land (Z.shiftr c 22) 0x38))) in
  let t := Z.lor (Z.lor (Z.lor
             (skb 4 (Z.land d 0x3f))
             (skb 5 (Z.lor (Z.land (Z.shiftr d 7) 0x03) (Z.land (Z.shiftr d 8) 0x3c))))
             (skb 6 (Z.land (Z.shiftr d 15) 0x3f)))
             (skb 7 (Z.lor (Z.land (Z.shiftr d 21) 0x0f) (Z.land (Z.shiftr d 22) 0x30))) in
  let t2 := Z.land (Z.lor (Z.shiftl t 16) (Z.land s 0x0000ffff)) 0xffffffff in
  let k0 := Z.land (ROTATE t2 30) 0xffffffff in
  let t2 := Z.lor (Z.shiftr s 16) (Z.land t 0xffff0000) in
  let k1 := Z.land (ROTATE t2 26) 0xffffffff in
  ((c, d), [k0; k1]).

Fixpoint set_key_rounds (cd : Z * Z) (shifts : list Z) : list Z :=
  match shifts with
  | [] => []
  | sh :: rest =>
      let '(cd', ks) := set_key_round cd sh in
      ks ++ set_key_rounds cd' rest
  end.

(** A [DES_key_schedule] is its 32 [DES_LONG]s, in the order [k++] stores them. *)
Definition DES_set_key_unchecked (key : list Z) : list Z :=
  let c := c2l key in
  let d := c2l (skipn 4 key) in
  let '(d, c) := PERM_OP d c 4 0x0f0f0f0f in
  let c := HPERM_OP c (-2) 0xcccc0000 in
  let d := HPERM_OP d (-2) 0xcccc0000 in
  let '(d, c) := PERM_OP d c 1 0x55555555 in
  let '(c, d) := PERM_OP c d 8 0x00ff00ff in
  let '(d, c) := PERM_OP d c 1 0x55555555 in
  let d := Z.lor (Z.lor (Z.lor
             (Z.shiftl (Z.land d 0x000000ff) 16)
             (Z.land d 0x0000ff00))
             (Z.shiftr (Z.land d 0x00ff0000) 16))
             (Z.shiftr (Z.land c 0xf0000000) 4) in
  let c := Z.land c 0x0fffffff in
  set_key_rounds (c, d) shifts2.

Definition DES_set_key (key : list Z) : list Z := DES_set_key_unchecked key.

(** ** Sample collaborators and inputs

    Stand-ins for the parts that are not in the sources, used only to run
    the model on concrete inputs: a table of 32-bit entries in the place of
    [DES_SPtrans], and an invertible 16-byte transformation in the place of
    AES. *)

Definition sample_SPtrans (i j : Z) : Z :=
  Z.land ((i * 64 + j + 1) * 2654435761) (Z.ones 32).

Definition sample_AES_set_key (userKey : list Z) (bits : Z) : list Z := userKey.

Definition sample_AES_encrypt (input : list Z) (key : list Z) : list Z :=
  map (fun b => Z.lxor b (u8 (rd key 0))) (rev input).

Definition sample_AES_decrypt (input : list Z) (key : list Z) : list Z :=
  rev (map (fun b => Z.lxor b (u8 (rd key 0))) input).

Definition sample_uninit (i : Z) : Z := 0xEE.

Section Model.

(** The S/P table of spr.h, which the sources include but do not contain:
    [DES_SPtrans i j] is [DES_SPtrans[i][j]]. *)
Variable DES_SPtrans : Z -> Z -> Z.

(** [D_ENCRYPT(LL,R,S)]: the new value of LL; [s] is the key schedule. *)
Definition D_ENCRYPT (s : list Z) (LL R S : Z) : Z :=
  let u := Z.lxor R (rd s S) in
  let t := Z.lxor R (rd s (S + 1)) in
  let t := ROTATE t 4 in
  Z.lxor LL
    (Z.lxor (Z.lxor (Z.lxor (Z.lxor (Z.lxor (Z.lxor (Z.lxor
       (DES_SPtrans 0 (Z.land (Z.shiftr u 2) 0x3f))
       (DES_SPtrans 2 (Z.land (Z.shiftr u 10) 0x3f)))
       (DES_SPtrans 4 (Z.land (Z.shiftr u 18) 0x3f)))
       (DES_SPtrans 6 (Z.land (Z.shiftr u 26) 0x3f)))
       (DES_SPtrans 1 (Z.land (Z.shiftr t 2) 0x3f)))
       (DES_SPtrans 3 (Z.land (Z.shiftr t 10) 0x3f)))
       (DES_SPtrans 5 (Z.land (Z.shiftr t 18) 0x3f)))
       (DES_SPtrans 7 (Z.land (Z.shiftr t 26) 0x3f))).

(** The body of the encryption loop, [for (i=0; i<32; i+=4)], and of the
    decryption loop, [for (i=30; i>0; i-=4)], on the pair (l, r). *)
Definition enc_body (s : list Z) (lr : Z * Z) (i : Z) : Z * Z :=
  let '(l, r) := lr in
  let l := D_ENCRYPT s l r (i + 0) in
  let r := D_ENCRYPT s r l (i + 2) in
  (l, r).

Definition dec_body (s : list Z) (lr : Z * Z) (i : Z) : Z * Z :=
  let '(l, r) := lr in
  let l := D_ENCRYPT s l r (i - 0) in
  let r := D_ENCRYPT s r l (i - 2) in
  (l, r).

Definition enc_indices : list Z := [0; 4; 8; 12; 16; 20; 24; 28].
Definition dec_indices : list Z := [30; 26; 22; 18; 14; 10; 6; 2].

(** [DES_encrypt1(data, ks, enc)]: the two words of [data] afterwards. *)
Definition DES_encrypt1 (data : Z * Z) (ks : list Z) (enc : Z) : Z * Z :=
  let r := fst data in
  let l := snd data in
  let '(r, l) := IP r l in
  let r := Z.land (ROTATE r 29) 0xffffffff in
  let l := Z.land (ROTATE l 29) 0xffffffff in
  let '(l, r) :=
    if enc =? 0 then fold_left (dec_body ks) dec_indices (l, r)
    else fold_left (enc_body ks) enc_indices (l, r) in
  let l := Z.land (ROTATE l 3) 0xffffffff in
  let r := Z.land (ROTATE r 3) 0xffffffff in
  let '(r, l) := FP r l in
  (l, r).

(** [DES_ecb_encrypt(input, output, ks, enc)]: the 8 bytes written to [output]. *)
Definition DES_ecb_encrypt (input : list Z) (ks : list Z) (enc : Z) : list Z :=
  let ll0 := c2l input in
  let ll1 := c2l (skipn 4 input) in
  let '(ll0, ll1) := DES_encrypt1 (ll0, ll1) ks enc in
  l2c ll0 ++ l2c ll1.

(** ** Key model (mifare.h, mifare_key.c) *)

Inductive mifare_key_type := T_DES | T_3DES | T_3K3DES | T_AES.

Record mifare_desfire_key := mk_key {
  key_data : list Z;            (* uint8_t data[24] *)
  key_type : mifare_key_type;
  key_ks1 : list Z;             (* DES_key_schedule ks1 *)
  key_ks2 : list Z;
  key_ks3 : list Z;
  key_cmac_sk1 : list Z;        (* uint8_t cmac_sk1[24] *)
  key_cmac_sk2 : list Z;
  key_aes_version : Z
}.

Definition set_key_data (k : mifare_desfire_key) (v : list Z) :=
  mk_key v (key_type k) (key_ks1 k) (key_ks2 k) (key_ks3 k)
         (key_cmac_sk1 k) (key_cmac_sk2 k) (key_aes_version k).
Definition set_key_type (k : mifare_desfire_key) (v : mifare_key_type) :=
  mk_key (key_data k) v (key_ks1 k) (key_ks2 k) (key_ks3 k)
         (key_cmac_sk1 k) (key_cmac_sk2 k) (key_aes_version k).
Definition set_key_ks1 (k : mifare_desfire_key) (v : list Z) :=
  mk_key (key_data k) (key_type k) v (key_ks2 k) (key_ks3 k)
         (key_cmac_sk1 k) (key_cmac_sk2 k) (key_aes_version k).
Definition set_key_ks2 (k : mifare_desfire_key) (v : list Z) :=
  mk_key (key_data k) (key_type k) (key_ks1 k) v (key_ks3 k)
         (key_cmac_sk1 k) (key_cmac_sk2 k) (key_aes_version k).
Definition set_key_ks3 (k : mifare_desfire_key) (v : list Z) :=
  mk_key (key_data k) (key_type k) (key_ks1 k) (key_ks2 k) v
         (key_cmac_sk1 k) (key_cmac_sk2 k) (key_aes_version k).
Definition set_key_cmac_sk1 (k : mifare_desfire_key) (v : list Z) :=
  mk_key (key_data k) (key_type k) (key_ks1 k) (key_ks2 k) (key_ks3 k)
         v (key_cmac_sk2 k) (key_aes_version k).
Definition set_key_cmac_sk2 (k : mifare_desfire_key) (v : list Z) :=
  mk_key (key_data k) (key_type k) (key_ks1 k) (key_ks2 k) (key_ks3 k)
         (key_cmac_sk1 k) v (key_aes_version k).
Definition set_key_aes_version (k : mifare_desfire_key) (v : Z) :=
  mk_key (key_data k) (key_type k) (key_ks1 k) (key_ks2 k) (key_ks3 k)
         (key_cmac_sk1 k) (key_cmac_sk2 k) v.

Definition key_type_eqb (a b : mifare_key_type) : bool :=
  match a, b with
  | T_DES, T_DES | T_3DES, T_3DES | T_3K3DES, T_3K3DES | T_AES, T_AES => true
  | _, _ => false
  end.

(** [memcpy(dst + off, src, n)]. *)
Definition memcpy_at (dst : list Z) (off : nat) (src : list Z) (n : nat) : list Z :=
  store_at dst off (memcpy (skipn off dst) src n).

Definition UpdateKeySchedules (key : mifare_desfire_key) : mifare_desfire_key :=
  let key := set_key_ks1 key (DES_set_key (key_data key)) in
  let key := set_key_ks2 key (DES_set_key (skipn 8 (key_data key))) in
  if key_type_eqb T_3K3DES (key_type key)
  then set_key_ks3 key (DES_set_key (skipn 16 (key_data key)))
  else key.

Definition MifareDesKeyNewWithVersion (key : mifare_desfire_key) (value : list Z)
  : mifare_desfire_key :=
  let key := set_key_type key T_DES in
  let key := set_key_data key (memcpy (key_data key) value 8) in
  let key := set_key_data key (memcpy_at (key_data key) 8 value 8) in
  UpdateKeySchedules key.

Definition MifareDesKeyNew (key : mifare_desfire_key) (value : list Z)
  : mifare_desfire_key :=
  let data := firstn 8 value in
  let data := map (fun b => u8 (Z.land b 0xfe)) data in
  MifareDesKeyNewWithVersion key data.

Definition Mifare3DesKeyNewWithVersion (key : mifare_desfire_key) (value : list Z)
  : mifare_desfire_key :=
  let key := set_key_type key T_3DES in
  let key := set_key_data key (memcpy (key_data key) value 16) in
  UpdateKeySchedules key.

Definition Mifare3DesKeyNew (key : mifare_desfire_key) (value : list Z)
  : mifare_desfire_key :=
  let data := firstn 16 value in
  let data := map (fun b => u8 (Z.land b 0xfe)) (firstn 8 data)
              ++ map (fun b => u8 (Z.lor b 0x01)) (skipn 8 data) in
  Mifare3DesKeyNewWithVersion key data.

Definition Mifare3k3DesKeyNewWithVersion (key : mifare_desfire_key) (value : list Z)
  : mifare_desfire_key :=
  let key := set_key_type key T_3K3DES in
  let key := set_key_data key (memcpy (key_data key) value 24) in
  UpdateKeySchedules key.

Definition Mifare3k3DesKeyNew (key : mifare_desfire_key) (value : list Z)
  : mifare_desfire_key :=
  let data := firstn 24 value in
  let data := map (fun b => u8 (Z.land b 0xfe)) (firstn 8 data) ++ skipn 8 data in
  Mifare3k3DesKeyNewWithVersion key data.

Definition MifareAesKeyNewWithVersion (key : mifare_desfire_key) (value : list Z)
  (version : Z) : mifare_desfire_key :=
  let key := set_key_data key (memcpy (key_data key) value 16) in
  let key := set_key_type key T_AES in
  set_key_aes_version key version.

Definition MifareAesKeyNew (key : mifare_desfire_key) (value : list Z)
  : mifare_desfire_key :=
  MifareAesKeyNewWithVersion key value 0.

(** The loop counter runs over 0..7 in both version functions. *)
Definition version_indices : list Z := [0; 1; 2; 3; 4; 5; 6; 7].

Definition MifareKeyGetVersion (key : mifare_desfire_key) : Z :=
  fold_left
    (fun version n =>
       u8 (Z.lor version (Z.shiftl (Z.land (rd (key_data key) n) 1) (7 - n))))
    version_indices 0.

(** [uint8_t version_bit = ((version & (1 << (7-n))) >> (7-n))]. *)
Definition version_bit_of (version n : Z) : Z :=
  u8 (Z.shiftr (Z.land version (Z.shiftl 1 (7 - n))) (7 - n)).

(** One iteration of the loop of [MifareKeySetVersion], on [key->data]. *)
Definition set_version_body (type : mifare_key_type) (version : Z)
  (data : list Z) (n : Z) : list Z :=
  let version_bit := version_bit_of version n in
  let data := wr data n (u8 (Z.land (rd data n) 0xfe)) in
  let data := wr data n (u8 (Z.lor (rd data n) version_bit)) in
  if key_type_eqb type T_DES then
    wr data (n + 8) (rd data n)
  else
    let data := wr data (n + 8) (u8 (Z.land (rd data (n + 8)) 0xfe)) in
    wr data (n + 8) (u8 (Z.lor (rd data (n + 8)) (Z.lnot version_bit))).

Definition MifareKeySetVersion (key : mifare_desfire_key) (version : Z)
  : mifare_desfire_key :=
  set_key_data key
    (fold_left (set_version_body (key_type key) version) version_indices
               (key_data key)).

(** The 24-byte local [buffer] of [MifareSessionKeyNew] is not initialised;
    each branch fills every byte the key constructor it calls reads. *)
Definition MifareSessionKeyNew (key : mifare_desfire_key) (rnda rndb : list Z)
  (authentication_key : mifare_desfire_key) : mifare_desfire_key :=
  let buffer := repeat 0 24%nat in
  match key_type authentication_key with
  | T_DES =>
      let buffer := memcpy buffer rnda 4 in
      let buffer := memcpy_at buffer 4 rndb 4 in
      MifareDesKeyNewWithVersion key buffer
  | T_3DES =>
      let buffer := memcpy buffer rnda 4 in
      let buffer := memcpy_at buffer 4 rndb 4 in
      let buffer := memcpy_at buffer 8 (skipn 4 rnda) 4 in
      let buffer := memcpy_at buffer 12 (skipn 4 rndb) 4 in
      Mifare3DesKeyNewWithVersion key buffer
  | T_3K3DES =>
      let buffer := memcpy buffer rnda 4 in
      let buffer := memcpy_at buffer 4 rndb 4 in
      let buffer := memcpy_at buffer 8 (skipn 6 rnda) 4 in
      let buffer := memcpy_at buffer 12 (skipn 6 rndb) 4 in
      let buffer := memcpy_at buffer 16 (skipn 12 rnda) 4 in
      let buffer := memcpy_at buffer 20 (skipn 12 rndb) 4 in
      Mifare3k3DesKeyNew key buffer
  | T_AES =>
      let buffer := memcpy buffer rnda 4 in
      let buffer := memcpy_at buffer 4 rndb 4 in
      let buffer := memcpy_at buffer 8 (skipn 12 rnda) 4 in
      let buffer := memcpy_at buffer 12 (skipn 12 rndb) 4 in
      MifareAesKeyNew key buffer
  end.

(** ** Crypto operations (mifare.h, mifare_crypto.h, mifare_crypto.c) *)

(** The width of [size_t] in bits (16 with the PIC18 compiler the firmware is
    built with, 32 or 64 where the tests run). *)
Variable size_bits : Z.

Definition to_size_t (x : Z) : Z := x mod 2 ^ size_bits.

(** The AES primitives of aes.h; their implementation is not part of the
    sources.  [AES_encrypt input key] is the 16-byte block written to [out]. *)
Variable AES_KEY : Type.
Variable AES_set_encrypt_key : list Z -> Z -> AES_KEY.
Variable AES_set_decrypt_key : list Z -> Z -> AES_KEY.
Variable AES_encrypt : list Z -> AES_KEY -> list Z.
Variable AES_decrypt : list Z -> AES_KEY -> list Z.

Inductive mifare_crypto_direction := MCD_SEND | MCD_RECEIVE.
Inductive mifare_crypto_operation := MCO_ENCIPHER | MCO_DECIPHER.
Inductive mifare_authentication_scheme := AS_LEGACY | AS_NEW.

Definition MDCM_PLAIN : Z := 0x0000.
Definition MDCM_MACED : Z := 0x0001.
Definition MDCM_ENCIPHERED : Z := 0x0003.
Definition MDCM_MASK : Z := 0x000F.
Definition CMAC_COMMAND : Z := 0x0010.
Definition CMAC_VERIFY : Z := 0x0020.
Definition MAC_COMMAND : Z := 0x0100.
Definition MAC_VERIFY : Z := 0x0200.
Definition ENC_COMMAND : Z := 0x1000.
Definition NO_CRC : Z := 0x2000.
Definition MAC_LENGTH : Z := 4.
Definition CMAC_LENGTH : Z := 8.
Definition MAX_CRYPTO_BLOCK_SIZE : Z := 16.
Definition MAX_FRAME_SIZE : Z := 60.
Definition NOT_YET_AUTHENTICATED : Z := 255.
Definition MAX_PADDED_DATA_LENGTH : Z := MAX_FRAME_SIZE + MAX_CRYPTO_BLOCK_SIZE - 1.
Definition MAX_ENCIPHERED_DATA_LENGTH : Z := MAX_FRAME_SIZE + 4 + MAX_CRYPTO_BLOCK_SIZE - 1.
Definition MAX_CRYPTO_BUFFER_SIZE : Z := MAX_ENCIPHERED_DATA_LENGTH.
Definition CRYPTO_ERROR : Z := 0x01.
Definition MF_OPERATION_OK : Z := 0x00.
Definition MF_ADDITIONAL_FRAME : Z := 0xAF.
Definition CRC32_POLY_REV : Z := 0xEDB88320.
Definition FAIL : Z := -1.
Definition SUCCESS : Z := 0.

(** [cs & FLAG] as a C condition. *)
Definition flag_set (cs flag : Z) : bool := negb (Z.land cs flag =? 0).

Record mifare_tag := mk_tag {
  tag_active : Z;
  tag_uid : list Z;
  tag_type : Z;
  tag_last_picc_error : Z;
  tag_last_pcd_error : Z;
  tag_session_key : mifare_desfire_key;
  tag_authentication_scheme : mifare_authentication_scheme;
  tag_authenticated_key_no : Z;
  tag_ivect : list Z;           (* uint8_t ivect[MAX_CRYPTO_BLOCK_SIZE] *)
  tag_cmac : list Z;            (* uint8_t cmac[16] *)
  tag_crypto_buffer : list Z;   (* uint8_t crypto_buffer[MAX_CRYPTO_BUFFER_SIZE] *)
  tag_selected_application : Z
}.

Definition set_tag_last_pcd_error (t : mifare_tag) (v : Z) :=
  mk_tag (tag_active t) (tag_uid t) (tag_type t) (tag_last_picc_error t) v
         (tag_session_key t) (tag_authentication_scheme t)
         (tag_authenticated_key_no t) (tag_ivect t) (tag_cmac t)
         (tag_crypto_buffer t) (tag_selected_application t).
Definition set_tag_session_key (t : mifare_tag) (v : mifare_desfire_key) :=
  mk_tag (tag_active t) (tag_uid t) (tag_type t) (tag_last_picc_error t)
         (tag_last_pcd_error t) v (tag_authentication_scheme t)
         (tag_authenticated_key_no t) (tag_ivect t) (tag_cmac t)
         (tag_crypto_buffer t) (tag_selected_application t).
Definition set_tag_authentication_scheme (t : mifare_tag)
  (v : mifare_authentication_scheme) :=
  mk_tag (tag_active t) (tag_uid t) (tag_type t) (tag_last_picc_error t)
         (tag_last_pcd_error t) (tag_session_key t) v
         (tag_authenticated_key_no t) (tag_ivect t) (tag_cmac t)
         (tag_crypto_buffer t) (tag_selected_application t).
Definition set_tag_authenticated_key_no (t : mifare_tag) (v : Z) :=
  mk_tag (tag_active t) (tag_uid t) (tag_type t) (tag_last_picc_error t)
         (tag_last_pcd_error t) (tag_session_key t) (tag_authentication_scheme t)
         v (tag_ivect t) (tag_cmac t)
         (tag_crypto_buffer t) (tag_selected_application t).
Definition set_tag_ivect (t : mifare_tag) (v : list Z) :=
  mk_tag (tag_active t) (tag_uid t) (tag_type t) (tag_last_picc_error t)
         (tag_last_pcd_error t) (tag_session_key t) (tag_authentication_scheme t)
         (tag_authenticated_key_no t) v (tag_cmac t)
         (tag_crypto_buffer t) (tag_selected_application t).
Definition set_tag_cmac (t : mifare_tag) (v : list Z) :=
  mk_tag (tag_active t) (tag_uid t) (tag_type t) (tag_last_picc_error t)
         (tag_last_pcd_error t) (tag_session_key t) (tag_authentication_scheme t)
         (tag_authenticated_key_no t) (tag_ivect t) v
         (tag_crypto_buffer t) (tag_selected_application t).
Definition set_tag_crypto_buffer (t : mifare_tag) (v : list Z) :=
  mk_tag (tag_active t) (tag_uid t) (tag_type t) (tag_last_picc_error t)
         (tag_last_pcd_error t) (tag_session_key t) (tag_authentication_scheme t)
         (tag_authenticated_key_no t) (tag_ivect t) (tag_cmac t)
         v (tag_selected_application t).

(** [Xor(ivect, data, len)]: [data] afterwards. *)
Fixpoint Xor (ivect data : list Z) (len : nat) : list Z :=
  match len, ivect, data with
  | S n, i :: iv, d :: ds => Z.lxor d i :: Xor iv ds n
  | _, _, _ => data
  end.

(** [Rol(data, len)]: [data] afterwards, for [len] from 1 to the length of
    [data].  At [len] of 0 the loop bound [len-1] of the source wraps and the
    loop leaves the array; the theorems apply [Rol] at [0 < len] only. *)
Definition Rol (data : list Z) (len : Z) : list Z :=
  match data with
  | [] => []
  | first :: rest =>
      let n := Z.to_nat (len - 1) in
      firstn n rest ++ first :: skipn (S n) data
  end.

(** [Lsl(data, len)]: [data] afterwards, for [len] from 1 to the length of
    [data]; at [len] of 0 the loop bound [len-1] of the source wraps. *)
Fixpoint Lsl (data : list Z) (len : nat) : list Z :=
  match len, data with
  | S O, d :: rest => u8 (Z.shiftl d 1) :: rest
  | S n, d :: rest =>
      u8 (Z.lor (Z.shiftl d 1) (Z.shiftr (rd rest 0) 7)) :: Lsl rest n
  | _, _ => data
  end.

Definition KeyBlockSize (key : mifare_desfire_key) : Z :=
  match key_type key with
  | T_DES | T_3DES | T_3K3DES => 8
  | T_AES => 16
  end.

Definition KeyMacingLength (key : mifare_desfire_key) : Z :=
  match key_type key with
  | T_DES | T_3DES => MAC_LENGTH
  | T_3K3DES | T_AES => CMAC_LENGTH
  end.

(** [PaddedDataLength(nbytes, block_size)], for the block sizes 8 and 16 the
    callers pass; the source divides by [block_size]. *)
Definition PaddedDataLength (nbytes block_size : Z) : Z :=
  if (nbytes =? 0) || negb (nbytes mod block_size =? 0)
  then to_size_t ((nbytes / block_size + 1) * block_size)
  else nbytes.

Definition MacedDataLength (key : mifare_desfire_key) (nbytes : Z) : Z :=
  to_size_t (nbytes + KeyMacingLength key).

Definition EncipheredDataLength (tag : mifare_tag) (nbytes : Z)
  (communication_settings : Z) : Z :=
  let crc_length :=
    if flag_set communication_settings NO_CRC then 0
    else match tag_authentication_scheme tag with
         | AS_LEGACY => 2
         | AS_NEW => 4
         end in
  let block_size := KeyBlockSize (tag_session_key tag) in
  PaddedDataLength (to_size_t (nbytes + crc_length)) block_size.

(** *** Checksums *)

(** The eight shifts of the inner loop of [MifareCrc32]. *)
Fixpoint crc32_bits (n : nat) (reg : Z) : Z :=
  match n with
  | O => reg
  | S n' =>
      let popped_bit := Z.land reg 0x00000001 in
      let reg := Z.shiftr reg 1 in
      let reg := if popped_bit =? 0 then reg else Z.lxor reg CRC32_POLY_REV in
      crc32_bits n' reg
  end.

(** [while(len--)] over the bytes at [data]; [None] when the loop reads
    past the end of the buffer. *)
Fixpoint crc32_loop (data : list Z) (len : Z) (reg : Z) : option Z :=
  if len =? 0 then Some reg
  else match data with
       | [] => None
       | current_byte :: rest =>
           let reg := Z.lxor reg (u8 current_byte) in
           crc32_loop rest (to_size_t (len - 1)) (crc32_bits 8 reg)
       end.

(** [MifareCrc32(data, len, crc)]: the four bytes written to [crc]. *)
Definition MifareCrc32 (data : list Z) (len : Z) : option (list Z) :=
  match crc32_loop data len 0xFFFFFFFF with
  | None => None
  | Some reg =>
      Some [ Z.land (Z.shiftr reg 0) 0xFF; Z.land (Z.shiftr reg 8) 0xFF;
             Z.land (Z.shiftr reg 16) 0xFF; Z.land (Z.shiftr reg 24) 0xFF ]
  end.

Definition crc16_step (reg bt : Z) : Z :=
  let bt := u8 (Z.lxor (u8 bt) (u8 (Z.land reg 0x00FF))) in
  let bt := u8 (Z.lxor bt (Z.shiftl bt 4)) in
  u16 (Z.lxor (Z.lxor (Z.lxor (Z.shiftr reg 8) (Z.shiftl bt 8))
                      (Z.shiftl bt 3))
              (Z.shiftr bt 4)).

(** [do { ... } while (--len)] over the bytes at [data]: the body runs
    before [len] is tested, and [--len] wraps at the width of [size_t];
    [None] when the loop reads past the end of the buffer. *)
Fixpoint crc16_loop (data : list Z) (len : Z) (reg : Z) : option Z :=
  match data with
  | [] => None
  | bt :: rest =>
      let reg := crc16_step reg bt in
      let len := to_size_t (len - 1) in
      if len =? 0 then Some reg else crc16_loop rest len reg
  end.

(** [MifareCrc16(data, len, crc)]: the two bytes written to [crc]. *)
Definition MifareCrc16 (data : list Z) (len : Z) : option (list Z) :=
  match crc16_loop data len 0x6363 with
  | None => None
  | Some reg => Some [ u8 (Z.land reg 0xFF); u8 (Z.land (Z.shiftr reg 8) 0xFF) ]
  end.

(** The [Append] variants write the checksum at [data + len]. *)
Definition MifareCrc32Append (data : list Z) (len : Z) : option (list Z) :=
  match MifareCrc32 data len with
  | None => None
  | Some crc => Some (memcpy_at data (Z.to_nat len) crc 4)
  end.

Definition MifareCrc16Append (data : list Z) (len : Z) : option (list Z) :=
  match MifareCrc16 data len with
  | None => None
  | Some crc => Some (memcpy_at data (Z.to_nat len) crc 2)
  end.

(** *** Block chaining *)

(** [MifareCipherSingleBlock(key, data, ivect, direction, operation,
    block_size)]: the buffers at [data] and at [ivect] afterwards.  A DES
    call reads 8 bytes at its input and writes 8 bytes at its output; an AES
    call reads 16 bytes. *)
Definition MifareCipherSingleBlock (key : mifare_desfire_key)
  (data ivect : list Z) (direction : mifare_crypto_direction)
  (operation : mifare_crypto_operation) (block_size : nat) : list Z * list Z :=
  let ovect := firstn block_size data in
  let data :=
    match direction with
    | MCD_SEND => Xor ivect data block_size
    | MCD_RECEIVE => data
    end in
  let '(data, edata) :=
    match key_type key with
    | T_DES =>
        match operation with
        | MCO_ENCIPHER =>
            (data, DES_ecb_encrypt data (key_ks1 key) DES_ENCRYPT)
        | MCO_DECIPHER =>
            (data, DES_ecb_encrypt data (key_ks1 key) DES_DECRYPT)
        end
    | T_3DES =>
        match operation with
        | MCO_ENCIPHER =>
            let edata := DES_ecb_encrypt data (key_ks1 key) DES_ENCRYPT in
            let data := memcpy data (DES_ecb_encrypt edata (key_ks2 key) DES_DECRYPT) 8 in
            (data, DES_ecb_encrypt data (key_ks1 key) DES_ENCRYPT)
        | MCO_DECIPHER =>
            let edata := DES_ecb_encrypt data (key_ks1 key) DES_DECRYPT in
            let data := memcpy data (DES_ecb_encrypt edata (key_ks2 key) DES_ENCRYPT) 8 in
            (data, DES_ecb_encrypt data (key_ks1 key) DES_DECRYPT)
        end
    | T_3K3DES =>
        match operation with
        | MCO_ENCIPHER =>
            let edata := DES_ecb_encrypt data (key_ks1 key) DES_ENCRYPT in
            let data := memcpy data (DES_ecb_encrypt edata (key_ks2 key) DES_DECRYPT) 8 in
            (data, DES_ecb_encrypt data (key_ks3 key) DES_ENCRYPT)
        | MCO_DECIPHER =>
            let edata := DES_ecb_encrypt data (key_ks3 key) DES_DECRYPT in
            let data := memcpy data (DES_ecb_encrypt edata (key_ks2 key) DES_ENCRYPT) 8 in
            (data, DES_ecb_encrypt data (key_ks1 key) DES_DECRYPT)
        end
    | T_AES =>
        match operation with
        | MCO_ENCIPHER =>
            (data, AES_encrypt (firstn 16 data)
                               (AES_set_encrypt_key (key_data key) (8 * 16)))
        | MCO_DECIPHER =>
            (data, AES_decrypt (firstn 16 data)
                               (AES_set_decrypt_key (key_data key) (8 * 16)))
        end
    end in
  let data := memcpy data edata block_size in
  match direction with
  | MCD_SEND => (data, memcpy ivect data block_size)
  | MCD_RECEIVE =>
      let data := Xor ivect data block_size in
      (data, memcpy ivect ovect block_size)
  end.

(** [while (offset < data_size)]: the buffers at [data] and at [ivect]
    afterwards.  Every iteration adds [block_size] to [offset]. *)
Fixpoint cipher_blocks (fuel : nat) (key : mifare_desfire_key)
  (data ivect : list Z) (offset data_size : Z)
  (direction : mifare_crypto_direction) (operation : mifare_crypto_operation)
  (block_size : Z) : list Z * list Z :=
  match fuel with
  | O => (data, ivect)
  | S fuel' =>
      if offset <? data_size then
        let '(block, ivect) :=
          MifareCipherSingleBlock key (skipn (Z.to_nat offset) data) ivect
            direction operation (Z.to_nat block_size) in
        cipher_blocks fuel' key (store_at data (Z.to_nat offset) block) ivect
          (to_size_t (offset + block_size)) data_size direction operation
          block_size
      else (data, ivect)
  end.

(** The chaining with a resolved key and IV: [data_size] iterations are
    enough, a block being at least one byte. *)
Definition cipher_chain (key : mifare_desfire_key) (ivect data : list Z)
  (data_size : Z) (direction : mifare_crypto_direction)
  (operation : mifare_crypto_operation) : list Z * list Z :=
  cipher_blocks (Z.to_nat data_size) key data ivect 0 data_size direction
    operation (KeyBlockSize key).

(** The [ivect] argument of [MifareCipherBlocksChained]: NULL, the tag's own
    [tag->ivect], or a buffer of the caller's. *)
Inductive ivect_arg :=
| IV_NULL
| IV_tag
| IV_buf (iv : list Z).

(** What a call leaves behind: the tag (its [ivect] when that was the IV
    used), the caller's IV buffer if there was one, and the buffer at [data]. *)
Record cbc_result := mk_cbc {
  cbc_tag : option mifare_tag;
  cbc_ivect : ivect_arg;
  cbc_data : list Z
}.

Definition MifareCipherBlocksChained (tag : option mifare_tag)
  (key : option mifare_desfire_key) (ivect : ivect_arg) (data : list Z)
  (data_size : Z) (direction : mifare_crypto_direction)
  (operation : mifare_crypto_operation) : cbc_result :=
  match tag with
  | Some t =>
      let k := match key with Some k => k | None => tag_session_key t end in
      match ivect with
      | IV_buf iv =>
          let iv :=
            match tag_authentication_scheme t with
            | AS_LEGACY => memset iv 0 (Z.to_nat MAX_CRYPTO_BLOCK_SIZE)
            | AS_NEW => iv
            end in
          let '(data, iv) := cipher_chain k iv data data_size direction operation in
          mk_cbc (Some t) (IV_buf iv) data
      | _ =>
          let iv :=
            match tag_authentication_scheme t with
            | AS_LEGACY => memset (tag_ivect t) 0 (Z.to_nat MAX_CRYPTO_BLOCK_SIZE)
            | AS_NEW => tag_ivect t
            end in
          let '(data, iv) := cipher_chain k iv data data_size direction operation in
          mk_cbc (Some (set_tag_ivect t iv)) ivect data
      end
  | None =>
      match key, ivect with
      | Some k, IV_buf iv =>
          let '(data, iv) := cipher_chain k iv data data_size direction operation in
          mk_cbc None (IV_buf iv) data
      | _, _ => mk_cbc None ivect data
      end
  end.

(** A call on the tag's session key and IV, [MifareCipherBlocksChained(tag,
    NULL, NULL, data, data_size, ...)]: the tag and the buffer afterwards. *)
Definition cipher_with_tag (tag : mifare_tag) (data : list Z) (data_size : Z)
  (direction : mifare_crypto_direction) (operation : mifare_crypto_operation)
  : mifare_tag * list Z :=
  let r := MifareCipherBlocksChained (Some tag) None IV_NULL data data_size
             direction operation in
  (match cbc_tag r with Some t => t | None => tag end, cbc_data r).

(** A call without a tag on a caller's IV buffer, [MifareCipherBlocksChained(
    NULL, key, ivect, data, data_size, ...)]: the IV and the buffer afterwards. *)
Definition cipher_with_key (key : mifare_desfire_key) (ivect data : list Z)
  (data_size : Z) (direction : mifare_crypto_direction)
  (operation : mifare_crypto_operation) : list Z * list Z :=
  let r := MifareCipherBlocksChained None (Some key) (IV_buf ivect) data
             data_size direction operation in
  (match cbc_ivect r with IV_buf iv => iv | _ => ivect end, cbc_data r).

(** *** CMAC *)

Definition CmacGenerateSubkeys (key : mifare_desfire_key) : mifare_desfire_key :=
  let kbs := KeyBlockSize key in
  let R := if kbs =? 8 then 0x1B else 0x87 in
  let l := memset (repeat 0 (Z.to_nat MAX_CRYPTO_BLOCK_SIZE)) 0 (Z.to_nat kbs) in
  let ivect := memset (repeat 0 (Z.to_nat MAX_CRYPTO_BLOCK_SIZE)) 0 (Z.to_nat kbs) in
  let '(_, l) := cipher_with_key key ivect l kbs MCD_RECEIVE MCO_ENCIPHER in
  let sk1 := memcpy (key_cmac_sk1 key) l (Z.to_nat kbs) in
  let sk1 := Lsl sk1 (Z.to_nat kbs) in
  let sk1 := if Z.land (rd l 0) 0x80 =? 0 then sk1
             else wr sk1 (kbs - 1) (u8 (Z.lxor (rd sk1 (kbs - 1)) R)) in
  let key := set_key_cmac_sk1 key sk1 in
  let sk2 := memcpy (key_cmac_sk2 key) (key_cmac_sk1 key) (Z.to_nat kbs) in
  let sk2 := Lsl sk2 (Z.to_nat kbs) in
  let sk2 := if Z.land (rd (key_cmac_sk1 key) 0) 0x80 =? 0 then sk2
             else wr sk2 (kbs - 1) (u8 (Z.lxor (rd sk2 (kbs - 1)) R)) in
  set_key_cmac_sk2 key sk2.

(** [while (len % kbs) buffer[len++] = 0x00;] *)
Fixpoint cmac_pad (fuel : nat) (buffer : list Z) (len kbs : Z) : list Z * Z :=
  match fuel with
  | O => (buffer, len)
  | S fuel' =>
      if len mod kbs =? 0 then (buffer, len)
      else cmac_pad fuel' (wr buffer len 0x00) (len + 1) kbs
  end.

(** [Cmac(key, ivect, data, len, cmac)]: the buffers at [ivect] and at [cmac]
    afterwards.  Every byte of the local [buffer] that is read has been
    written before. *)
Definition Cmac (key : mifare_desfire_key) (ivect data : list Z) (len : Z)
  (cmac : list Z) : list Z * list Z :=
  let kbs := KeyBlockSize key in
  let buffer := repeat 0 (Z.to_nat MAX_PADDED_DATA_LENGTH) in
  let buffer := memcpy buffer data (Z.to_nat len) in
  let '(buffer, len) :=
    if (len =? 0) || negb (len mod kbs =? 0) then
      let buffer := wr buffer len 0x80 in
      let '(buffer, len) := cmac_pad (Z.to_nat kbs) buffer (len + 1) kbs in
      let off := Z.to_nat (len - kbs) in
      (store_at buffer off (Xor (key_cmac_sk2 key) (skipn off buffer) (Z.to_nat kbs)), len)
    else
      let off := Z.to_nat (len - kbs) in
      (store_at buffer off (Xor (key_cmac_sk1 key) (skipn off buffer) (Z.to_nat kbs)), len) in
  let '(ivect, _) := cipher_with_key key ivect buffer len MCD_SEND MCO_ENCIPHER in
  (ivect, memcpy cmac ivect (Z.to_nat kbs)).

(** *** The transformation pipeline *)

(** The pointer a pipeline function returns: NULL, the caller's [data], or
    the tag's [crypto_buffer]. *)
Inductive result_ptr := R_NULL | R_data | R_crypto_buffer.

(** The outcome of the [MDCM_MACED] case of [MifareCryptoPreprocessData]
    (also reached from [MDCM_PLAIN] with [append_mac] cleared). *)
Definition preprocess_maced (tag : mifare_tag) (data : list Z) (nbytes offset : Z)
  (communication_settings : Z) (append_mac : bool)
  : result_ptr * Z * mifare_tag :=
  match tag_authentication_scheme tag with
  | AS_LEGACY =>
      if negb (flag_set communication_settings MAC_COMMAND) then (R_data, nbytes, tag)
      else
        let edl := to_size_t
                     (PaddedDataLength (to_size_t (nbytes - offset))
                                       (KeyBlockSize (tag_session_key tag)) + offset) in
        let res := tag_crypto_buffer tag in
        let res := memcpy res data (Z.to_nat nbytes) in
        let res := store_at res (Z.to_nat nbytes)
                     (memset (skipn (Z.to_nat nbytes) res) 0 (Z.to_nat (edl - nbytes))) in
        let '(tag, view) :=
          cipher_with_tag tag (skipn (Z.to_nat offset) res) (to_size_t (edl - offset))
            MCD_SEND MCO_ENCIPHER in
        let res := store_at res (Z.to_nat offset) view in
        let mac := firstn (Z.to_nat MAC_LENGTH) (skipn (Z.to_nat (edl - 8)) res) in
        let res := memcpy res data (Z.to_nat nbytes) in
        let res := memcpy_at res (Z.to_nat nbytes) mac (Z.to_nat MAC_LENGTH) in
        (R_crypto_buffer, to_size_t (nbytes + MAC_LENGTH), set_tag_crypto_buffer tag res)
  | AS_NEW =>
      if negb (flag_set communication_settings CMAC_COMMAND) then (R_data, nbytes, tag)
      else
        let '(ivect, cmac) :=
          Cmac (tag_session_key tag) (tag_ivect tag) data nbytes (tag_cmac tag) in
        let tag := set_tag_cmac (set_tag_ivect tag ivect) cmac in
        if append_mac then
          let res := tag_crypto_buffer tag in
          let res := memcpy res data (Z.to_nat nbytes) in
          let res := memcpy_at res (Z.to_nat nbytes) (tag_cmac tag) (Z.to_nat CMAC_LENGTH) in
          (R_crypto_buffer, to_size_t (nbytes + CMAC_LENGTH), set_tag_crypto_buffer tag res)
        else (R_data, nbytes, tag)
  end.

(** The outcome of the [MDCM_ENCIPHERED] case; [None] when a checksum loop
    reads past the end of the buffer. *)
Definition preprocess_enciphered (tag : mifare_tag) (data : list Z)
  (nbytes offset : Z) (communication_settings : Z)
  : option (result_ptr * Z * mifare_tag) :=
  if negb (flag_set communication_settings ENC_COMMAND) then Some (R_data, nbytes, tag)
  else
    let edl := to_size_t
                 (EncipheredDataLength tag (to_size_t (nbytes - offset))
                                       communication_settings + offset) in
    let res := tag_crypto_buffer tag in
    let res := memcpy res data (Z.to_nat nbytes) in
    let crc_appended :=
      if negb (flag_set communication_settings NO_CRC) then
        match tag_authentication_scheme tag with
        | AS_LEGACY =>
            match MifareCrc16Append (skipn (Z.to_nat offset) res)
                                    (to_size_t (nbytes - offset)) with
            | None => None
            | Some view => Some (store_at res (Z.to_nat offset) view,
                                 to_size_t (nbytes + 2))
            end
        | AS_NEW =>
            match MifareCrc32Append res nbytes with
            | None => None
            | Some res => Some (res, to_size_t (nbytes + 4))
            end
        end
      else Some (res, nbytes) in
    match crc_appended with
    | None => None
    | Some (res, nbytes) =>
        let res := store_at res (Z.to_nat nbytes)
                     (memset (skipn (Z.to_nat nbytes) res) 0 (Z.to_nat (edl - nbytes))) in
        let nbytes := edl in
        let '(tag, view) :=
          cipher_with_tag tag (skipn (Z.to_nat offset) res) (to_size_t (nbytes - offset))
            MCD_SEND
            (match tag_authentication_scheme tag with
             | AS_NEW => MCO_ENCIPHER
             | AS_LEGACY => MCO_DECIPHER
             end) in
        let res := store_at res (Z.to_nat offset) view in
        Some (R_crypto_buffer, nbytes, set_tag_crypto_buffer tag res)
    end.

(** [MifareCryptoPreprocessData(tag, data, nbytes, offset,
    communication_settings)]: the pointer returned, [*nbytes] and the tag
    afterwards.  [key = &tag->session_key] is never NULL. *)
Definition MifareCryptoPreprocessData (tag : mifare_tag) (data : list Z)
  (nbytes offset : Z) (communication_settings : Z)
  : option (result_ptr * Z * mifare_tag) :=
  let mode := Z.land communication_settings MDCM_MASK in
  if mode =? MDCM_PLAIN then
    match tag_authentication_scheme tag with
    | AS_LEGACY => Some (R_data, nbytes, tag)
    | AS_NEW => Some (preprocess_maced tag data nbytes offset communication_settings false)
    end
  else if mode =? MDCM_MACED then
    Some (preprocess_maced tag data nbytes offset communication_settings true)
  else if mode =? MDCM_ENCIPHERED then
    preprocess_enciphered tag data nbytes offset communication_settings
  else Some (R_NULL, to_size_t (-1), tag).

(** The bytes the returned pointer designates, up to [nbytes]. *)
Definition result_bytes (res : result_ptr) (nbytes : Z) (data : list Z)
  (tag : mifare_tag) : option (list Z) :=
  match res with
  | R_NULL => None
  | R_data => Some (firstn (Z.to_nat nbytes) data)
  | R_crypto_buffer => Some (firstn (Z.to_nat nbytes) (tag_crypto_buffer tag))
  end.

(** The integers [a, a+1, ..., b-1]. *)
Definition zrange (a b : Z) : list Z :=
  map (fun k => a + Z.of_nat k) (seq 0 (Z.to_nat (b - a))).

(** The padding check [for (n = end_crc_pos; n < *nbytes - 1; n++)]:
    whether [verified] is still TRUE after it. *)
Definition padding_verified (res : list Z) (end_crc_pos nbytes : Z) : bool :=
  forallb (fun n => let byte := rd res n in
                    (0x00 =? byte) || ((0x80 =? byte) && (n =? end_crc_pos)))
          (zrange end_crc_pos (nbytes - 1)).

(** The search [do { ... } while (!verified && (end_crc_pos < *nbytes))] of
    the enciphered case: [verified], the buffer at [res] and [*nbytes]
    afterwards.  In the legacy scheme [res] is [data] itself. *)
Fixpoint crc_search (fuel : nat) (scheme : mifare_authentication_scheme)
  (res : list Z) (crc_pos nbytes : Z) : option (bool * list Z * Z) :=
  match fuel with
  | O => Some (false, res, nbytes)
  | S fuel' =>
      let end_crc_pos :=
        match scheme with AS_LEGACY => crc_pos + 2 | AS_NEW => crc_pos + 4 end in
      match (match scheme with
             | AS_LEGACY => MifareCrc16 res end_crc_pos
             | AS_NEW => MifareCrc32 res end_crc_pos
             end) with
      | None => None
      | Some crc =>
          let verified :=
            forallb (fun b => b =? 0) crc && padding_verified res end_crc_pos nbytes in
          if verified then
            let nbytes := crc_pos in
            match scheme with
            | AS_LEGACY => Some (true, wr res nbytes 0x00, nbytes + 1)
            | AS_NEW => Some (true, res, nbytes)
            end
          else
            let res :=
              match scheme with
              | AS_LEGACY => res
              | AS_NEW =>
                  let x := rd res (crc_pos - 1) in
                  let res := wr res (crc_pos - 1) (rd res crc_pos) in
                  wr res crc_pos x
              end in
            if end_crc_pos <? nbytes
            then crc_search fuel' scheme res (crc_pos + 1) nbytes
            else Some (false, res, nbytes)
      end
  end.

(** What [MifareCryptoPostprocessData] leaves behind: the pointer returned,
    [*nbytes], the caller's buffer at [data] and the tag. *)
Record post_result := mk_post {
  post_res : result_ptr;
  post_nbytes : Z;
  post_data : list Z;
  post_tag : mifare_tag
}.

(** The [MDCM_MACED] case (also reached from [MDCM_PLAIN] in the new scheme). *)
Definition postprocess_maced (tag : mifare_tag) (data : list Z) (nbytes : Z)
  (communication_settings : Z) : post_result :=
  let key := tag_session_key tag in
  match tag_authentication_scheme tag with
  | AS_LEGACY =>
      if flag_set communication_settings MAC_VERIFY then
        let nbytes := nbytes - KeyMacingLength key in
        let edl := EncipheredDataLength tag (to_size_t (nbytes - 1)) communication_settings in
        let edata := repeat 0 (Z.to_nat MAX_ENCIPHERED_DATA_LENGTH) in
        let edata := memcpy edata data (Z.to_nat (nbytes - 1)) in
        let edata := store_at edata (Z.to_nat (nbytes - 1))
                       (memset (skipn (Z.to_nat (nbytes - 1)) edata) 0
                               (Z.to_nat (edl - (nbytes - 1)))) in
        let '(tag, edata) := cipher_with_tag tag edata edl MCD_SEND MCO_ENCIPHER in
        if negb (memeq (skipn (Z.to_nat (nbytes - 1)) data)
                       (skipn (Z.to_nat (edl - 8)) edata) (Z.to_nat MAC_LENGTH))
        then mk_post R_NULL (-1) data (set_tag_last_pcd_error tag CRYPTO_ERROR)
        else
          let nbytes := nbytes - MAC_LENGTH in
          mk_post R_data nbytes (wr data (nbytes - 1) 0x00) tag
      else mk_post R_data nbytes data tag
  | AS_NEW =>
      if negb (flag_set communication_settings CMAC_COMMAND)
      then mk_post R_data nbytes data tag
      else if flag_set communication_settings CMAC_VERIFY then
        if nbytes <? 1 + CMAC_LENGTH then mk_post R_data nbytes data tag
        else
          let first_cmac_byte := rd data (nbytes - 1 - CMAC_LENGTH) in
          let data := wr data (nbytes - 1 - CMAC_LENGTH) (rd data (nbytes - 1)) in
          let num_cmac_bytes := CMAC_LENGTH in
          let '(ivect, cmac) :=
            Cmac key (tag_ivect tag) data (to_size_t (nbytes - num_cmac_bytes))
                 (tag_cmac tag) in
          let tag := set_tag_cmac (set_tag_ivect tag ivect) cmac in
          let data := wr data (nbytes - 1 - CMAC_LENGTH) first_cmac_byte in
          if negb (memeq (tag_cmac tag)
                         (skipn (Z.to_nat (nbytes - 1 - CMAC_LENGTH)) data)
                         (Z.to_nat CMAC_LENGTH))
          then mk_post R_NULL (-1) data (set_tag_last_pcd_error tag CRYPTO_ERROR)
          else
            let nbytes := nbytes - CMAC_LENGTH in
            mk_post R_data nbytes (wr data (nbytes - 1) 0x00) tag
      else
        let num_cmac_bytes := 0 in
        let '(ivect, cmac) :=
          Cmac key (tag_ivect tag) data (to_size_t (nbytes - num_cmac_bytes))
               (tag_cmac tag) in
        mk_post R_data nbytes data (set_tag_cmac (set_tag_ivect tag ivect) cmac)
  end.

(** The [MDCM_ENCIPHERED] case; [None] when a checksum loop reads past the
    end of the buffer. *)
Definition postprocess_enciphered (tag : mifare_tag) (data : list Z) (nbytes : Z)
  : option post_result :=
  let nbytes := nbytes - 1 in
  let '(tag, data) := cipher_with_tag tag data (to_size_t nbytes) MCD_RECEIVE MCO_DECIPHER in
  match tag_authentication_scheme tag with
  | AS_LEGACY =>
      let crc_pos := nbytes - 8 - 1 in
      let crc_pos := if crc_pos <? 0 then 0 else crc_pos in
      match crc_search (S (Z.to_nat nbytes)) AS_LEGACY data crc_pos nbytes with
      | None => None
      | Some (verified, data, nbytes) =>
          if verified then Some (mk_post R_data nbytes data tag)
          else Some (mk_post R_NULL (-1) data (set_tag_last_pcd_error tag CRYPTO_ERROR))
      end
  | AS_NEW =>
      let res := tag_crypto_buffer tag in
      let res := memcpy res data (Z.to_nat nbytes) in
      let crc_pos := nbytes - 16 - 3 in
      let crc_pos := if crc_pos <? 0 then 0 else crc_pos in
      let res := memcpy_at res (Z.to_nat (crc_pos + 1))
                   (skipn (Z.to_nat crc_pos) res) (Z.to_nat (nbytes - crc_pos)) in
      let res := wr res crc_pos 0x00 in
      let crc_pos := crc_pos + 1 in
      let nbytes := nbytes + 1 in
      match crc_search (S (Z.to_nat nbytes)) AS_NEW res crc_pos nbytes with
      | None => None
      | Some (verified, res, nbytes) =>
          let tag := set_tag_crypto_buffer tag res in
          if verified then Some (mk_post R_crypto_buffer nbytes data tag)
          else Some (mk_post R_NULL (-1) data (set_tag_last_pcd_error tag CRYPTO_ERROR))
      end
  end.

(** [MifareCryptoPostprocessData(tag, data, nbytes, communication_settings)].
    [nbytes] is an [ssize_t]: the lengths it takes are those of a frame. *)
Definition MifareCryptoPostprocessData (tag : mifare_tag) (data : list Z)
  (nbytes : Z) (communication_settings : Z) : option post_result :=
  if 1 =? nbytes then Some (mk_post R_data nbytes data tag)
  else
    let mode := Z.land communication_settings MDCM_MASK in
    if mode =? MDCM_PLAIN then
      match tag_authentication_scheme tag with
      | AS_LEGACY => Some (mk_post R_data nbytes data tag)
      | AS_NEW => Some (postprocess_maced tag data nbytes communication_settings)
      end
    else if mode =? MDCM_MACED then
      Some (postprocess_maced tag data nbytes communication_settings)
    else if mode =? MDCM_ENCIPHERED then
      postprocess_enciphered tag data nbytes
    else Some (mk_post R_NULL (-1) data tag).

(** ** Transport through the SL032 reader (mifare.c) *)

Definition MIFARE_TIMERCOUNT : Z := 200.
Definition MF_UARTSTATUS_FREE : Z := 0.
Definition MF_UARTSTATUS_TX : Z := 1.
Definition MF_UARTSTATUS_TXSUCC : Z := 2.
Definition MF_UARTSTATUS_RXSUCC : Z := 3.
Definition MF_UARTSTATUS_RXERR : Z := 4.
Definition SL_TCL : Z := 0x21.
Definition SL_OPERATION_SUCC : Z := 0x00.
Definition MF_AUTHENTICATE_LEGACY : Z := 0x0A.
Definition MF_AUTHENTICATE_ISO : Z := 0x1A.
Definition MF_AUTHENTICATE_AES : Z := 0xAA.

(** The serial link and the file-scope variables of mifare.c.  [io_tx] is
    every byte handed to [SerialPutChar], oldest first; [io_rx] is the bytes
    the reader delivers, in order: [SerialInRdy] holds while it is not
    empty, and waiting on an empty one ends in the timeout. *)
Record mf_io := mk_io {
  io_tx : list Z;
  io_rx : list Z;
  io_timer : Z;
  io_timerOvertime : Z;
  io_uartStatus : Z;
  io_rxBuf : list Z            (* unsigned char rxBuf[MAX_FRAME_SIZE+5] *)
}.

Definition set_io_uartStatus (w : mf_io) (v : Z) :=
  mk_io (io_tx w) (io_rx w) (io_timer w) (io_timerOvertime w) v (io_rxBuf w).
Definition set_io_rxBuf (w : mf_io) (v : list Z) :=
  mk_io (io_tx w) (io_rx w) (io_timer w) (io_timerOvertime w) (io_uartStatus w) v.

Definition SerialPutChar (b : Z) (w : mf_io) : mf_io :=
  mk_io (io_tx w ++ [b]) (io_rx w) (io_timer w) (io_timerOvertime w)
        (io_uartStatus w) (io_rxBuf w).

Definition MifareStartTimer (ms : Z) (w : mf_io) : mf_io :=
  mk_io (io_tx w) (io_rx w) ms 0 (io_uartStatus w) (io_rxBuf w).

(** The timer interrupt ran until the timer hit zero. *)
Definition timer_expired (w : mf_io) : mf_io :=
  mk_io (io_tx w) (io_rx w) 0 1 (io_uartStatus w) (io_rxBuf w).

(** [while(i < size)] of [MifarePutBuf]; [i] and [checksum] are unsigned chars. *)
Fixpoint putbuf_loop (fuel : nat) (buffer : list Z) (i size checksum : Z)
  (w : mf_io) : Z * mf_io :=
  match fuel with
  | O => (checksum, w)
  | S fuel' =>
      if i <? size then
        let data := rd buffer i in
        let checksum := u8 (Z.lxor checksum data) in
        putbuf_loop fuel' buffer (u8 (i + 1)) size checksum (SerialPutChar data w)
      else (checksum, w)
  end.

Definition MifarePutBuf (buffer : list Z) (size : Z) (w : mf_io) : mf_io :=
  let w := set_io_uartStatus w MF_UARTSTATUS_TX in
  let '(checksum, w) := putbuf_loop (Z.to_nat size) buffer 0 size 0 w in
  let w := SerialPutChar checksum w in
  set_io_uartStatus w MF_UARTSTATUS_TXSUCC.

(** The receive loop of [MifareGetBuf]: [rxCount], [checkSum] and the state
    afterwards. *)
Fixpoint getbuf_loop (fuel : nat) (rxCount checkSum : Z) (w : mf_io)
  : Z * Z * mf_io :=
  match fuel with
  | O => (rxCount, checkSum, w)
  | S fuel' =>
      if (rxCount <? 2) || ((rxCount >=? 2) && (rxCount <? rd (io_rxBuf w) 1 + 2)) then
        let w := MifareStartTimer MIFARE_TIMERCOUNT w in
        match io_rx w with
        | [] =>
            let w := timer_expired w in
            (rxCount, checkSum, set_io_uartStatus w MF_UARTSTATUS_RXERR)
        | b :: rest =>
            let w := mk_io (io_tx w) rest (io_timer w) (io_timerOvertime w)
                           (io_uartStatus w) (io_rxBuf w) in
            let w := set_io_rxBuf w (wr (io_rxBuf w) rxCount (u8 b)) in
            let checkSum := u8 (Z.lxor checkSum (rd (io_rxBuf w) rxCount)) in
            getbuf_loop fuel' (rxCount + 1) checkSum w
        end
      else (rxCount, checkSum, w)
  end.

(** [while(rxCount < MAX_FRAME_SIZE) rxBuf[rxCount++] = 0]. *)
Definition clear_rest (rxBuf : list Z) (rxCount : Z) : list Z :=
  fold_left (fun buf n => wr buf n 0) (zrange rxCount MAX_FRAME_SIZE) rxBuf.

(** [MifareGetBuf()]: the length byte is at most 255, so 258 iterations
    exhaust the receive loop.  The definition follows the source for frames
    of at most [MAX_FRAME_SIZE + 5] bytes, the size of [rxBuf]; the source
    stores a longer frame past the end of the array, which no list stands
    for, and the theorems on the transport assume [link_fits]. *)
Definition MifareGetBuf (w : mf_io) : mf_io :=
  let w := set_io_uartStatus w MF_UARTSTATUS_RXSUCC in
  let '(rxCount, checkSum, w) := getbuf_loop 258 0 0 w in
  let w := if checkSum =? 0 then w else set_io_uartStatus w MF_UARTSTATUS_RXERR in
  set_io_rxBuf w (clear_rest (io_rxBuf w) rxCount).

(** The bytes the reader delivers, cut into the frames [MifareGetBuf] takes
    off the link: a frame is its first two bytes and as many more as the
    second announces.  Every frame holds bytes only and is no longer than
    [rxBuf]; the last one may be cut short by silence. *)
Fixpoint frames_fit_from (fuel : nat) (rx : list Z) : bool :=
  match fuel, rx with
  | _, [] => true
  | O, _ :: _ => false
  | S _, [b] => is_byte b
  | S fuel', _ :: len :: _ =>
      let n := Z.to_nat (len + 2) in
      (len + 2 <=? MAX_FRAME_SIZE + 5) && bytes_ok (firstn n rx) &&
      frames_fit_from fuel' (skipn n rx)
  end.

Definition frames_fit (rx : list Z) : bool := frames_fit_from (length rx) rx.

(** The link on which the transport stays inside [rxBuf]: the array has its
    [MAX_FRAME_SIZE + 5] bytes, the frame it holds already announces a length
    inside it, and so does every frame still to come. *)
Definition link_fits (w : mf_io) : Prop :=
  length (io_rxBuf w) = Z.to_nat (MAX_FRAME_SIZE + 5) /\
  0 <= rd (io_rxBuf w) 1 <= MAX_FRAME_SIZE + 3 /\
  frames_fit (io_rx w) = true.

(** The indeterminate value byte [i] of an uninitialised local array holds. *)
Variable uninit : Z -> Z.

(** The body of [for (i = 0; i < size; i++)] in [MifareCommTCL], as the
    braces of the source delimit it: the copy of one byte, then the
    transmission, the reception and the error check. *)
Definition commtcl_body (buffer : list Z) (size : Z)
  (st : list Z * Z * mf_io) (i : Z) : list Z * Z * mf_io :=
  let '(comm, success, w) := st in
  let comm := wr comm (i + 3) (rd buffer i) in
  let w := MifarePutBuf comm (u8 (size + 3)) w in
  let w := MifareGetBuf w in
  let rxBuf := io_rxBuf w in
  let success :=
    if (io_uartStatus w =? MF_UARTSTATUS_RXSUCC) && (rd rxBuf 2 =? SL_TCL) &&
       (rd rxBuf 3 =? SL_OPERATION_SUCC) &&
       ((rd rxBuf 4 =? MF_OPERATION_OK) || (rd rxBuf 4 =? MF_ADDITIONAL_FRAME))
    then SUCCESS else success in
  (comm, success, w).

(** [MifareCommTCL(buffer, size)]: the status returned and the state
    afterwards.  [success] is a [uint8_t], so the [FAIL] it starts from is
    stored as 255 and returned as such.  [comm] has [MAX_FRAME_SIZE + 3]
    bytes: the definition follows the source for [size] of at most
    [MAX_FRAME_SIZE] on a link that satisfies [link_fits]; beyond that the
    source stores outside [comm] and [rxBuf]. *)
Definition MifareCommTCL (buffer : list Z) (size : Z) (w : mf_io) : Z * mf_io :=
  let success := u8 FAIL in
  let comm := map uninit (zrange 0 (MAX_FRAME_SIZE + 3)) in
  let comm := wr comm 0 0xBA in
  let comm := wr comm 1 (u8 (size + 2)) in
  let comm := wr comm 2 SL_TCL in
  let '(_, success, w) :=
    fold_left (commtcl_body buffer size) (zrange 0 size) (comm, success, w) in
  let rxBuf := io_rxBuf w in
  let w := set_io_rxBuf w (wr rxBuf (5 + (rd rxBuf 1 - 3 - 1)) (rd rxBuf 4)) in
  (success, w).

(** [MF_RXLEN] and the buffer at [MF_RXDATA]. *)
Definition MF_RXLEN (w : mf_io) : Z := rd (io_rxBuf w) 1 - 3.
Definition MF_RXDATA (w : mf_io) : list Z := skipn 5 (io_rxBuf w).

(** ** Authentication (mifare.c) *)

(** A call [MifareCipherBlocksChained(tag, key, tag->ivect, data, ...)]:
    the tag and the buffer afterwards. *)
Definition cipher_with_tag_key (tag : mifare_tag) (key : mifare_desfire_key)
  (data : list Z) (data_size : Z) (direction : mifare_crypto_direction)
  (operation : mifare_crypto_operation) : mifare_tag * list Z :=
  let r := MifareCipherBlocksChained (Some tag) (Some key) IV_tag data data_size
             direction operation in
  (match cbc_tag r with Some t => t | None => tag end, cbc_data r).

(** The locals of [Authenticate] when it reaches the comparison of the two
    rotated RndA, with the tag and the link as they are then. *)
Record auth_state := mk_auth {
  auth_tag : mifare_tag;
  auth_io : mf_io;
  auth_key_length : Z;
  auth_PICC_RndB : list Z;
  auth_PCD_RndA : list Z;
  auth_iv_step2 : list Z;      (* tag->ivect once the challenge is deciphered *)
  auth_token_plain : list Z;   (* RndA + RndB' before it is transformed *)
  auth_token : list Z;         (* the token handed to the card *)
  auth_PICC_r_RndA : list Z;
  auth_PCD_r_RndA : list Z
}.

(** [BUFFER_APPEND_BYTES(cmd2, token, size)] on a buffer of 33 bytes that
    holds [n] bytes already: the bytes appended. *)
Definition appended_bytes (n capacity : Z) (data : list Z) (size : Z) : list Z :=
  firstn (Z.to_nat (Z.min size (capacity - n))) data.

(** [Authenticate] from [memset(tag->ivect, ...)] to the second [Rol];
    [rnd] is what [RAND_bytes] delivers.  The locals of the source are arrays
    of 16 bytes and [token] one of 32: the definition follows the source for
    a [key_length] from 1 to 16, on a link that satisfies [link_fits]. *)
Definition auth_exchange (tag : mifare_tag) (cmd key_no : Z)
  (key : mifare_desfire_key) (rnd : list Z) (w : mf_io) : auth_state :=
  let local16 := map uninit (zrange 0 16) in
  let tag := set_tag_ivect tag
               (memset (tag_ivect tag) 0 (Z.to_nat MAX_CRYPTO_BLOCK_SIZE)) in
  let tag := set_tag_authenticated_key_no tag NOT_YET_AUTHENTICATED in
  let tag := set_tag_authentication_scheme tag
               (if MF_AUTHENTICATE_LEGACY =? cmd then AS_LEGACY else AS_NEW) in
  let cmd1 := [cmd; key_no] in
  let '(_, w) := MifareCommTCL cmd1 2 w in
  let key_length := to_size_t (MF_RXLEN w - 1) in
  let PICC_E_RndB := memcpy local16 (MF_RXDATA w) (Z.to_nat key_length) in
  let PICC_RndB := memcpy local16 PICC_E_RndB (Z.to_nat key_length) in
  let '(tag, PICC_RndB) :=
    cipher_with_tag_key tag key PICC_RndB key_length MCD_RECEIVE MCO_DECIPHER in
  let iv_step2 := tag_ivect tag in
  let PCD_RndA := memcpy local16 rnd 16 in
  let PCD_r_RndB := memcpy local16 PICC_RndB (Z.to_nat key_length) in
  let PCD_r_RndB := Rol PCD_r_RndB key_length in
  let token := map uninit (zrange 0 32) in
  let token := memcpy token PCD_RndA (Z.to_nat key_length) in
  let token := memcpy_at token (Z.to_nat key_length) PCD_r_RndB (Z.to_nat key_length) in
  let token_plain := token in
  let '(tag, token) :=
    cipher_with_tag_key tag key token (to_size_t (2 * key_length)) MCD_SEND
      (if MF_AUTHENTICATE_LEGACY =? cmd then MCO_DECIPHER else MCO_ENCIPHER) in
  let cmd2 := 0xAF :: appended_bytes 1 33 token (to_size_t (2 * key_length)) in
  let '(_, w) := MifareCommTCL cmd2 (Z.of_nat (length cmd2)) w in
  let PICC_E_r_RndA := memcpy local16 (MF_RXDATA w) (Z.to_nat key_length) in
  let PICC_r_RndA := memcpy local16 PICC_E_r_RndA (Z.to_nat key_length) in
  let '(tag, PICC_r_RndA) :=
    cipher_with_tag_key tag key PICC_r_RndA key_length MCD_RECEIVE MCO_DECIPHER in
  let PCD_r_RndA := memcpy local16 PCD_RndA (Z.to_nat key_length) in
  let PCD_r_RndA := Rol PCD_r_RndA key_length in
  mk_auth tag w key_length PICC_RndB PCD_RndA iv_step2 token_plain token
          PICC_r_RndA PCD_r_RndA.

(** [Authenticate(tag, cmd, key_no, key)]: the status returned, the tag and
    the link afterwards. *)
Definition Authenticate (tag : mifare_tag) (cmd key_no : Z)
  (key : mifare_desfire_key) (rnd : list Z) (w : mf_io)
  : Z * mifare_tag * mf_io :=
  if tag_active tag =? 0 then (FAIL, tag, w)
  else
    let a := auth_exchange tag cmd key_no key rnd w in
    let tag := auth_tag a in
    if negb (memeq (auth_PCD_r_RndA a) (auth_PICC_r_RndA a)
                   (Z.to_nat (auth_key_length a)))
    then (FAIL, tag, auth_io a)
    else
      let tag := set_tag_authenticated_key_no tag key_no in
      let tag := set_tag_session_key tag
                   (MifareSessionKeyNew (tag_session_key tag) (auth_PCD_RndA a)
                                        (auth_PICC_RndB a) key) in
      let tag := set_tag_ivect tag
                   (memset (tag_ivect tag) 0 (Z.to_nat MAX_CRYPTO_BLOCK_SIZE)) in
      let tag :=
        match tag_authentication_scheme tag with
        | AS_LEGACY => tag
        | AS_NEW => set_tag_session_key tag (CmacGenerateSubkeys (tag_session_key tag))
        end in
      (SUCCESS, tag, auth_io a).

Definition MifareAuthenticate (tag : mifare_tag) (key_no : Z)
  (key : mifare_desfire_key) (rnd : list Z) (w : mf_io)
  : Z * mifare_tag * mf_io :=
  match key_type key with
  | T_DES | T_3DES => Authenticate tag MF_AUTHENTICATE_LEGACY key_no key rnd w
  | T_3K3DES => Authenticate tag MF_AUTHENTICATE_ISO key_no key rnd w
  | T_AES => Authenticate tag MF_AUTHENTICATE_AES key_no key rnd w
  end.

(** ** Command buffers and little-endian integers (mifare.h, mifare.c) *)

(** [BUFFER(size)]: the number of filled slots and the array; the size of
    the array is the length of the list. *)
Record buffer := mk_buffer {
  buf_n : Z;                    (* size_t n *)
  buf_array : list Z            (* uint8_t array[size] *)
}.

Definition BUFFER_INIT (size : Z) : buffer :=
  mk_buffer 0 (repeat 0 (Z.to_nat size)).

Definition BUFFER_SIZE (b : buffer) : Z := buf_n b.
Definition BUFFER_ARRAY (b : buffer) : list Z := buf_array b.
Definition BUFFER_CLEAR (b : buffer) : buffer := mk_buffer 0 (buf_array b).

(** [BUFFER_APPEND(buffer_name, data)]: no test of the room left. *)
Definition BUFFER_APPEND (b : buffer) (data : Z) : buffer :=
  mk_buffer (to_size_t (buf_n b + 1)) (wr (buf_array b) (buf_n b) (u8 data)).

(** The loop of [BUFFER_APPEND_BYTES]; [n] counts the bytes taken from
    [data]. *)
Fixpoint append_bytes_loop (fuel : nat) (b : buffer) (data : list Z)
  (n size : Z) : buffer :=
  match fuel with
  | O => b
  | S fuel' =>
      if (n <? size) && (buf_n b <? Z.of_nat (length (buf_array b))) then
        append_bytes_loop fuel'
          (mk_buffer (to_size_t (buf_n b + 1))
                     (wr (buf_array b) (buf_n b) (u8 (rd data n))))
          data (n + 1) size
      else b
  end.

Definition BUFFER_APPEND_BYTES (b : buffer) (data : list Z) (size : Z) : buffer :=
  append_bytes_loop (Z.to_nat size) b data 0 size.

(** The loop of [BUFFER_APPEND_LE]; [temp] is a [uint32_t]. *)
Fixpoint append_le_loop (fuel : nat) (b : buffer) (temp n size : Z) : buffer :=
  match fuel with
  | O => b
  | S fuel' =>
      if (n <? size) && (buf_n b <? Z.of_nat (length (buf_array b))) then
        append_le_loop fuel'
          (mk_buffer (to_size_t (buf_n b + 1))
                     (wr (buf_array b) (buf_n b) (u8 (Z.land temp 0x00FF))))
          (Z.shiftr temp 8) (n + 1) size
      else b
  end.

Definition BUFFER_APPEND_LE (b : buffer) (data size : Z) : buffer :=
  append_le_loop (Z.to_nat size) b (Z.land data 0xffffffff) 0 size.

(** [le16toh], [le24toh] and [le32toh] on the bytes at [data]. *)
Definition le16toh (data : list Z) : Z :=
  u16 (Z.lor (u16 (rd data 0)) (Z.shiftl (u16 (rd data 1)) 8)).

Definition le24toh (data : list Z) : Z :=
  Z.land (Z.lor (Z.lor (rd data 0) (Z.shiftl (rd data 1) 8))
                (Z.shiftl (rd data 2) 16)) 0xffffffff.

Definition le32toh (data : list Z) : Z :=
  Z.land (Z.lor (Z.lor (Z.lor (rd data 0) (Z.shiftl (rd data 1) 8))
                       (Z.shiftl (rd data 2) 16))
                (Z.shiftl (rd data 3) 24)) 0xffffffff.

(** ** Application identifiers (mifare_aid.c) *)

(** [MifareAidNew(res, aid)]: the 3 bytes [res->data] afterwards. *)
Definition MifareAidNew (res : list Z) (aid : Z) : list Z :=
  if aid >? 0x00FFFFFF then res
  else fold_left (fun data i => wr data i (u8 (Z.land (Z.shiftr aid (8 * i)) 0xFF)))
                 [0; 1; 2] res.

Definition MifareAidGetAid (aid : list Z) : Z :=
  Z.land (Z.lor (Z.lor (rd aid 0) (Z.shiftl (rd aid 1) 8))
                (Z.shiftl (rd aid 2) 16)) 0xffffffff.

(** ** Connection and two plain commands (mifare.c) *)

Definition FALSE : Z := 0.
Definition TRUE : Z := 1.
Definition SL_SELECT_CARD : Z := 0x01.
Definition SL_RATS : Z := 0x20.
Definition MIFARE_CARD_DES : Z := 0x06.
Definition MIFARE_UID_BYTES : Z := 7.
Definition MIFARE_AID_SIZE : Z := 3.
Definition SelectCard : list Z := [0xBA; 0x02; SL_SELECT_CARD].
Definition RATSDesfire : list Z := [0xBA; 0x02; SL_RATS].

Definition MifareTagInit (tag : mifare_tag) : mifare_tag :=
  mk_tag FALSE (tag_uid tag) (tag_type tag) MF_OPERATION_OK MF_OPERATION_OK
         (tag_session_key tag) (tag_authentication_scheme tag)
         NOT_YET_AUTHENTICATED (tag_ivect tag) (tag_cmac tag)
         (tag_crypto_buffer tag) 0.

Definition set_tag_active (t : mifare_tag) (v : Z) :=
  mk_tag v (tag_uid t) (tag_type t) (tag_last_picc_error t)
         (tag_last_pcd_error t) (tag_session_key t) (tag_authentication_scheme t)
         (tag_authenticated_key_no t) (tag_ivect t) (tag_cmac t)
         (tag_crypto_buffer t) (tag_selected_application t).
Definition set_tag_uid (t : mifare_tag) (v : list Z) :=
  mk_tag (tag_active t) v (tag_type t) (tag_last_picc_error t)
         (tag_last_pcd_error t) (tag_session_key t) (tag_authentication_scheme t)
         (tag_authenticated_key_no t) (tag_ivect t) (tag_cmac t)
         (tag_crypto_buffer t) (tag_selected_application t).
Definition set_tag_selected_application (t : mifare_tag) (v : Z) :=
  mk_tag (tag_active t) (tag_uid t) (tag_type t) (tag_last_picc_error t)
         (tag_last_pcd_error t) (tag_session_key t) (tag_authentication_scheme t)
         (tag_authenticated_key_no t) (tag_ivect t) (tag_cmac t)
         (tag_crypto_buffer t) v.

(** [MifareConnect(tag)]: the status returned, the tag and the link
    afterwards. *)
Definition MifareConnect (tag : mifare_tag) (w : mf_io)
  : Z * mifare_tag * mf_io :=
  if negb (tag_active tag =? 0) then (FAIL, tag, w)
  else
    let w := MifarePutBuf SelectCard 3 w in
    let w := MifareGetBuf w in
    let rxBuf := io_rxBuf w in
    let selected :=
      (io_uartStatus w =? MF_UARTSTATUS_RXSUCC) && (rd rxBuf 2 =? SL_SELECT_CARD)
      && (rd rxBuf 3 =? SL_OPERATION_SUCC)
      && (rd rxBuf (rd rxBuf 1) =? MIFARE_CARD_DES) in
    if selected then
      let uid := firstn (Z.to_nat MIFARE_UID_BYTES) (skipn 4 rxBuf) in
      let w := MifarePutBuf RATSDesfire 3 w in
      let w := MifareGetBuf w in
      let rxBuf := io_rxBuf w in
      let connected :=
        (io_uartStatus w =? MF_UARTSTATUS_RXSUCC) && (rd rxBuf 2 =? SL_RATS)
        && (rd rxBuf 3 =? SL_OPERATION_SUCC) in
      if connected then
        let tag := MifareTagInit tag in
        let tag := set_tag_active tag TRUE in
        let tag := set_tag_uid tag
                     (memcpy (tag_uid tag) uid (Z.to_nat MIFARE_UID_BYTES)) in
        (SUCCESS, tag, w)
      else (FAIL, tag, w)
    else (FAIL, tag, w).

Definition MifareDisconnect (tag : mifare_tag) : Z * mifare_tag :=
  if tag_active tag =? 0 then (FAIL, tag)
  else (SUCCESS, set_tag_active tag FALSE).

(** The bytes behind a pointer the pipeline returned; NULL has none. *)
Definition pointer_bytes (p : result_ptr) (data : list Z) (tag : mifare_tag)
  : option (list Z) :=
  match p with
  | R_NULL => None
  | R_data => Some data
  | R_crypto_buffer => Some (tag_crypto_buffer tag)
  end.

(** What a command leaves behind: the status returned, the tag, the link,
    and what it wrote through its output pointers, if it wrote. *)
Record command_result (A : Type) := mk_result {
  res_status : Z;
  res_tag : mifare_tag;
  res_io : mf_io;
  res_out : option A
}.
Arguments mk_result {A}.
Arguments res_status {A}.
Arguments res_tag {A}.
Arguments res_io {A}.
Arguments res_out {A}.

(** [MifareGetKeySettings(tag, settings, max_keys)] with two pointers that
    are not NULL; [None] where the source goes through a NULL pointer or a
    checksum loop leaves its buffer.  [MF_RXDATA], which the postprocessing
    may write, is part of [rxBuf]. *)
Definition MifareGetKeySettings (tag : mifare_tag) (w : mf_io)
  : option (command_result (Z * Z)) :=
  let cmd := BUFFER_INIT 1 in
  if tag_active tag =? 0 then Some (mk_result FAIL tag w None)
  else
    let cmd := BUFFER_APPEND cmd 0x45 in
    match MifareCryptoPreprocessData tag (BUFFER_ARRAY cmd) (BUFFER_SIZE cmd) 1
            (Z.lor MDCM_PLAIN CMAC_COMMAND) with
    | None => None
    | Some (p, n, tag) =>
        match pointer_bytes p (BUFFER_ARRAY cmd) tag with
        | None => None
        | Some bytes =>
            let '(_, w) := MifareCommTCL bytes (u8 n) w in
            let nbytes := MF_RXLEN w in
            match MifareCryptoPostprocessData tag (MF_RXDATA w) nbytes
                    (Z.lor (Z.lor MDCM_PLAIN CMAC_COMMAND) CMAC_VERIFY) with
            | None => None
            | Some r =>
                let tag := post_tag r in
                let w := set_io_rxBuf w (firstn 5 (io_rxBuf w) ++ post_data r) in
                match pointer_bytes (post_res r) (post_data r) tag with
                | None => Some (mk_result FAIL tag w None)
                | Some p =>
                    Some (mk_result SUCCESS tag w
                            (Some (rd p 0, Z.land (rd p 1) 0x0F)))
                end
            end
        end
    end.

(** [MifareSelectApplication(tag, aid)]. *)
Definition MifareSelectApplication (tag : mifare_tag) (aid : Z) (w : mf_io)
  : option (command_result unit) :=
  let cmd := BUFFER_INIT (4 + CMAC_LENGTH) in
  if tag_active tag =? 0 then Some (mk_result FAIL tag w None)
  else
    let cmd := BUFFER_APPEND cmd 0x5A in
    let cmd := BUFFER_APPEND_LE cmd aid MIFARE_AID_SIZE in
    match MifareCryptoPreprocessData tag (BUFFER_ARRAY cmd) (BUFFER_SIZE cmd) 0
            (Z.lor MDCM_PLAIN CMAC_COMMAND) with
    | None => None
    | Some (p, n, tag) =>
        match pointer_bytes p (BUFFER_ARRAY cmd) tag with
        | None => None
        | Some bytes =>
            let '(_, w) := MifareCommTCL bytes (u8 n) w in
            let nbytes := MF_RXLEN w in
            match MifareCryptoPostprocessData tag (MF_RXDATA w) nbytes
                    (Z.lor MDCM_PLAIN CMAC_COMMAND) with
            | None => None
            | Some r =>
                let tag := post_tag r in
                let w := set_io_rxBuf w (firstn 5 (io_rxBuf w) ++ post_data r) in
                match post_res r with
                | R_NULL => Some (mk_result FAIL tag w None)
                | _ =>
                    Some (mk_result SUCCESS
                            (set_tag_selected_application tag (Z.land aid 0xffffffff))
                            w (Some tt))
                end
            end
        end
    end.


(** ** Notions the properties are stated with *)

(** The property the specification states of [PaddedDataLength]. *)
Definition padded_length_spec (nbytes block_size : Z) : Prop :=
  let r := PaddedDataLength nbytes block_size in
  (exists k, 0 < k /\ r = k * block_size) /\
  nbytes <= r /\
  (nbytes <> 0 -> r - nbytes < block_size) /\
  (nbytes = 0 -> r = block_size).

(** One byte through the loop body of [MifareCrc32]. *)
Definition crc32_step (reg bt : Z) : Z := crc32_bits 8 (Z.lxor reg (u8 bt)).

(** A value of an [unsigned long] of des.c. *)
Definition in32 (x : Z) : Prop := 0 <= x < 2 ^ 32.

(** The rounds of [DES_encrypt1] for a direction, and for the other one. *)
Definition des_rounds (ks : list Z) (enc : Z) (lr : Z * Z) : Z * Z :=
  if enc =? 0 then fold_left (dec_body ks) dec_indices lr
  else fold_left (enc_body ks) enc_indices lr.

(** The block the primitive calls of [MifareCipherSingleBlock] leave in
    [edata], for the buffer at [data] they start from. *)
Definition block_cipher (key : mifare_desfire_key)
  (operation : mifare_crypto_operation) (data : list Z) : list Z :=
  match key_type key, operation with
  | T_DES, MCO_ENCIPHER => DES_ecb_encrypt data (key_ks1 key) DES_ENCRYPT
  | T_DES, MCO_DECIPHER => DES_ecb_encrypt data (key_ks1 key) DES_DECRYPT
  | T_3DES, MCO_ENCIPHER =>
      DES_ecb_encrypt
        (DES_ecb_encrypt (DES_ecb_encrypt data (key_ks1 key) DES_ENCRYPT)
                         (key_ks2 key) DES_DECRYPT)
        (key_ks1 key) DES_ENCRYPT
  | T_3DES, MCO_DECIPHER =>
      DES_ecb_encrypt
        (DES_ecb_encrypt (DES_ecb_encrypt data (key_ks1 key) DES_DECRYPT)
                         (key_ks2 key) DES_ENCRYPT)
        (key_ks1 key) DES_DECRYPT
  | T_3K3DES, MCO_ENCIPHER =>
      DES_ecb_encrypt
        (DES_ecb_encrypt (DES_ecb_encrypt data (key_ks1 key) DES_ENCRYPT)
                         (key_ks2 key) DES_DECRYPT)
        (key_ks3 key) DES_ENCRYPT
  | T_3K3DES, MCO_DECIPHER =>
      DES_ecb_encrypt
        (DES_ecb_encrypt (DES_ecb_encrypt data (key_ks3 key) DES_DECRYPT)
                         (key_ks2 key) DES_ENCRYPT)
        (key_ks1 key) DES_DECRYPT
  | T_AES, MCO_ENCIPHER =>
      AES_encrypt (firstn 16 data) (AES_set_encrypt_key (key_data key) (8 * 16))
  | T_AES, MCO_DECIPHER =>
      AES_decrypt (firstn 16 data) (AES_set_decrypt_key (key_data key) (8 * 16))
  end.

(** The length of the checksum the enciphered mode appends. *)
Definition enciphered_crc_length (tag : mifare_tag) : Z :=
  match tag_authentication_scheme tag with
  | AS_LEGACY => 2
  | AS_NEW => 4
  end.

(** The length of what follows the header once the checksum and the padding
    are in place. *)
Definition enciphered_region_length (tag : mifare_tag) (nbytes offset : Z) : Z :=
  PaddedDataLength (nbytes - offset + enciphered_crc_length tag)
    (KeyBlockSize (tag_session_key tag)).

(** The number a buffer holds, most significant byte at index 0. *)
Fixpoint be_value (l : list Z) : Z :=
  match l with
  | [] => 0
  | d :: rest => d * 256 ^ Z.of_nat (length rest) + be_value rest
  end.


(** The running XOR [MifarePutBuf] and [MifareGetBuf] keep over a frame. *)
Definition frame_checksum (l : list Z) : Z :=
  fold_left (fun c b => u8 (Z.lxor c b)) l 0.


(** The [k] low bytes of [temp], lowest first, as [BUFFER_APPEND_LE] and
    [MifareAidNew] cut them. *)
Fixpoint le_bytes (k : nat) (temp : Z) : list Z :=
  match k with
  | O => []
  | S k' => u8 (Z.land temp 0xFF) :: le_bytes k' (Z.shiftr temp 8)
  end.


(** Doubling in GF(2^bits) with the reduction constant [R], on the number
    a block holds with its most significant byte first: the rule that
    derives one CMAC subkey from the block before it. *)
Definition gf_double (bits R v : Z) : Z :=
  Z.lxor ((2 * v) mod 2 ^ bits) (if v <? 2 ^ (bits - 1) then 0 else R).


(** Two words agree on the bits of the mask [M]. *)
Definition agree_on (M x y : Z) : Prop := Z.land x M = Z.land y M.


(** ** Sample inputs *)

Definition zero_key : mifare_desfire_key :=
  mk_key (repeat 0 24%nat) T_DES (repeat 0 32%nat) (repeat 0 32%nat)
         (repeat 0 32%nat) (repeat 0 24%nat) (repeat 0 24%nat) 0.

Definition zero_tag : mifare_tag :=
  mk_tag 1 (repeat 0 7%nat) 0x06 0 0 zero_key AS_LEGACY NOT_YET_AUTHENTICATED
         (repeat 0 16%nat) (repeat 0 16%nat)
         (repeat 0 (Z.to_nat MAX_CRYPTO_BUFFER_SIZE)) 0.

Definition zero_io : mf_io :=
  mk_io [] [] 0 0 MF_UARTSTATUS_FREE (repeat 0 (Z.to_nat (MAX_FRAME_SIZE + 5))).

(** A frame as the reader delivers it: preamble, length, command code,
    status, the card's bytes and the XOR checksum. *)
Definition reader_frame (payload : list Z) : list Z :=
  let body :=
    [0xBD; u8 (Z.of_nat (length payload) + 3); SL_TCL; SL_OPERATION_SUCC] ++ payload in
  body ++ [fold_left (fun c b => u8 (Z.lxor c b)) body 0].

Definition sample_des_key : mifare_desfire_key :=
  MifareDesKeyNew zero_key [0x01; 0x23; 0x45; 0x67; 0x89; 0xAB; 0xCD; 0xEF].

Definition sample_aes_key : mifare_desfire_key :=
  MifareAesKeyNew zero_key (repeat 0x3C 16%nat).

(** Sixteen bytes as [RAND_bytes] may deliver them. *)
Definition sample_rnd : list Z :=
  [0xA0; 0xA1; 0xA2; 0xA3; 0xA4; 0xA5; 0xA6; 0xA7;
   0xA8; 0xA9; 0xAA; 0xAB; 0xAC; 0xAD; 0xAE; 0xAF].

(** What the reader answers during a legacy authentication: the challenge,
    once for each frame the two-byte command causes, then the card's last
    answer, once for each frame the 17-byte command causes. *)
Definition sample_auth_io : mf_io :=
  let challenge :=
    reader_frame [0xAF; 0x11; 0x22; 0x33; 0x44; 0x55; 0x66; 0x77; 0x88] in
  let answer :=
    reader_frame [0x00; 0x10; 0x20; 0x30; 0x40; 0x50; 0x60; 0x70; 0x80] in
  mk_io [] (challenge ++ challenge ++ concat (repeat answer 17%nat)) 0 0
        MF_UARTSTATUS_FREE (repeat 0 (Z.to_nat (MAX_FRAME_SIZE + 5))).

Definition sample_new_tag : mifare_tag :=
  set_tag_authentication_scheme zero_tag AS_NEW.

Definition sample_legacy_tag : mifare_tag :=
  set_tag_session_key zero_tag sample_des_key.

(** * Properties *)

(** ** Buffers *)

Lemma length_wr (buf : list Z) (i v : Z) : length (wr buf i v) = length buf.
Proof.
  unfold wr.
  destruct ((0 <=? i) && (i <? Z.of_nat (length buf))) eqn:E; [|reflexivity].
  apply andb_true_iff in E. destruct E as [E1 E2].
  apply Z.leb_le in E1. apply Z.ltb_lt in E2.
  rewrite length_app. cbn [length]. rewrite length_firstn, length_skipn. lia.
Qed.

Lemma rd_wr_same (buf : list Z) (i v : Z) :
  0 <= i < Z.of_nat (length buf) -> rd (wr buf i v) i = v.
Proof.
  intros H. unfold wr, rd.
  replace ((0 <=? i) && (i <? Z.of_nat (length buf))) with true
    by (symmetry; apply andb_true_iff; split; [apply Z.leb_le | apply Z.ltb_lt]; lia).
  rewrite app_nth2; rewrite length_firstn; [|lia].
  replace (Z.to_nat i - Nat.min (Z.to_nat i) (length buf))%nat with 0%nat by lia.
  reflexivity.
Qed.

Lemma rd_wr_other (buf : list Z) (i j v : Z) :
  0 <= i -> 0 <= j -> i <> j -> rd (wr buf i v) j = rd buf j.
Proof.
  intros Hi Hj Hij. unfold wr, rd.
  destruct ((0 <=? i) && (i <? Z.of_nat (length buf))) eqn:E; [|reflexivity].
  apply andb_true_iff in E. destruct E as [_ E2]. apply Z.ltb_lt in E2.
  destruct (Z_lt_dec j i) as [L|L].
  - rewrite app_nth1 by (rewrite length_firstn; lia).
    rewrite nth_firstn.
    replace (Z.to_nat j <? Z.to_nat i)%nat with true
      by (symmetry; apply Nat.ltb_lt; lia).
    reflexivity.
  - rewrite app_nth2 by (rewrite length_firstn; lia).
    rewrite length_firstn.
    replace (Z.to_nat j - Nat.min (Z.to_nat i) (length buf))%nat
      with (S (Z.to_nat j - S (Z.to_nat i)))%nat by lia.
    cbn [nth]. rewrite nth_skipn. f_equal. lia.
Qed.

(** ** Lengths *)

Lemma to_size_t_small (x : Z) : 0 <= x < 2 ^ size_bits -> to_size_t x = x.
Proof. intros H. unfold to_size_t. apply Z.mod_small. exact H. Qed.

Lemma padded_length_fits (nbytes block_size : Z) :
  0 <= nbytes -> 0 < block_size -> nbytes + block_size < 2 ^ size_bits ->
  padded_length_spec nbytes block_size.
Proof.
  intros Hn Hb Hfit. unfold padded_length_spec, PaddedDataLength.
  pose proof (Z.div_mod nbytes block_size ltac:(lia)) as Hdm.
  pose proof (Z.mod_pos_bound nbytes block_size Hb) as Hm.
  assert (Hq : 0 <= nbytes / block_size) by (apply Z.div_pos; lia).
  destruct (nbytes =? 0) eqn:E0; cbn [orb].
  - apply Z.eqb_eq in E0. subst nbytes.
    rewrite Z.div_0_l by lia. rewrite to_size_t_small by lia.
    repeat split; try lia. exists 1. lia.
  - apply Z.eqb_neq in E0.
    destruct (nbytes mod block_size =? 0) eqn:Em; cbn [negb].
    + apply Z.eqb_eq in Em.
      repeat split; try lia.
      exists (nbytes / block_size). split; [|lia].
      assert (nbytes / block_size <> 0) by (intros X; rewrite X in Hdm; lia).
      lia.
    + apply Z.eqb_neq in Em.
      rewrite to_size_t_small by nia.
      repeat split; try nia.
      exists (nbytes / block_size + 1). split; lia.
Qed.

(** C6 (as amended): for every [nbytes] and every positive [block_size]
    whose sum fits in [size_t], [PaddedDataLength] returns a positive
    multiple of [block_size] that is at least [nbytes] and exceeds it by
    less than [block_size], except that it is [block_size] for 0 bytes. *)
Theorem PaddedDataLength_fits (nbytes block_size : Z) :
  0 <= nbytes -> 0 < block_size -> nbytes + block_size < 2 ^ size_bits ->
  padded_length_spec nbytes block_size.
Proof. exact (padded_length_fits nbytes block_size). Qed.

(** ** Checksums *)

Lemma lxor_range (n a b : Z) :
  0 <= a < 2 ^ n -> 0 <= b < 2 ^ n -> 0 <= Z.lxor a b < 2 ^ n.
Proof.
  intros Ha Hb.
  assert (Hnn : 0 <= Z.lxor a b) by (apply Z.lxor_nonneg; lia).
  split; [exact Hnn|].
  destruct (Z.eq_dec (Z.lxor a b) 0) as [E|E]; [rewrite E; lia|].
  assert (Hn : 0 < n).
  { destruct (Z_lt_dec n 0) as [L|L]; [rewrite Z.pow_neg_r in Ha by lia; lia|].
    destruct (Z.eq_dec n 0) as [->|]; [|lia].
    change (2 ^ 0) with 1 in *.
    replace a with 0 in E by lia. replace b with 0 in E by lia.
    cbn in E. congruence. }
  apply Z.log2_lt_pow2; [lia|].
  pose proof (Z.log2_lxor a b ltac:(lia) ltac:(lia)) as Hl.
  assert (La : Z.log2 a < n).
  { destruct (Z.eq_dec a 0) as [->|Na]; [cbn; lia|].
    apply Z.log2_lt_pow2; lia. }
  assert (Lb : Z.log2 b < n).
  { destruct (Z.eq_dec b 0) as [->|Nb]; [cbn; lia|].
    apply Z.log2_lt_pow2; lia. }
  lia.
Qed.

Lemma land_ones_range (x n : Z) : 0 <= n -> 0 <= Z.land x (Z.ones n) < 2 ^ n.
Proof.
  intros Hn. rewrite Z.land_ones by exact Hn. apply Z.mod_pos_bound.
  apply Z.pow_pos_nonneg; lia.
Qed.

Lemma u8_range (x : Z) : 0 <= u8 x < 256.
Proof. exact (land_ones_range x 8 ltac:(lia)). Qed.

Lemma u16_range (x : Z) : 0 <= u16 x < 65536.
Proof. exact (land_ones_range x 16 ltac:(lia)). Qed.

Lemma u8_small (x : Z) : 0 <= x < 256 -> u8 x = x.
Proof.
  intros H. unfold u8. change 0xff with (Z.ones 8).
  rewrite Z.land_ones by lia. apply Z.mod_small. exact H.
Qed.

Lemma u16_small (x : Z) : 0 <= x < 65536 -> u16 x = x.
Proof.
  intros H. unfold u16. change 0xffff with (Z.ones 16).
  rewrite Z.land_ones by lia. apply Z.mod_small. exact H.
Qed.

Lemma u8_idem (x : Z) : u8 (u8 x) = u8 x.
Proof. apply u8_small, u8_range. Qed.

(** Feeding a CRC16 register its own low byte shifts it right by 8. *)
Lemma crc16_step_own_byte (reg : Z) :
  0 <= reg < 65536 ->
  crc16_step reg (u8 (Z.land reg 0xFF)) = Z.shiftr reg 8.
Proof.
  intros H. unfold crc16_step.
  change (Z.land reg 0xFF) with (u8 reg).
  rewrite !u8_idem, Z.lxor_nilpotent.
  change (u8 0) with 0. change (Z.shiftl 0 4) with 0.
  change (Z.lxor 0 0) with 0. change (u8 0) with 0.
  change (Z.shiftl 0 8) with 0. change (Z.shiftl 0 3) with 0.
  change (Z.shiftr 0 4) with 0. rewrite !Z.lxor_0_r.
  apply u16_small. rewrite Z.shiftr_div_pow2 by lia.
  change (2 ^ 8) with 256. split.
  - apply Z.div_pos; lia.
  - apply Z.div_lt_upper_bound; lia.
Qed.

Lemma crc16_step_range (reg bt : Z) : 0 <= crc16_step reg bt < 65536.
Proof. unfold crc16_step. apply u16_range. Qed.

Lemma crc16_loop_app (payload rest : list Z) (reg : Z) :
  payload <> [] -> Z.of_nat (length payload) < 2 ^ size_bits ->
  crc16_loop (payload ++ rest) (Z.of_nat (length payload)) reg
  = Some (fold_left crc16_step payload reg).
Proof.
  revert reg. induction payload as [|b p IH]; intros reg Hne Hlen; [congruence|].
  cbn [app crc16_loop fold_left length].
  rewrite to_size_t_small by (cbn [length] in Hlen; lia).
  replace (Z.of_nat (S (length p)) - 1) with (Z.of_nat (length p)) by lia.
  destruct p as [|b' p'].
  - reflexivity.
  - replace (Z.of_nat (length (b' :: p')) =? 0) with false
      by (symmetry; apply Z.eqb_neq; cbn [length]; lia).
    apply IH; [congruence | cbn [length] in *; lia].
Qed.

Lemma fold_crc16_range (payload : list Z) (reg : Z) :
  0 <= reg < 65536 -> 0 <= fold_left crc16_step payload reg < 65536.
Proof.
  revert reg. induction payload as [|b p IH]; intros reg H; [exact H|].
  cbn [fold_left]. apply IH, crc16_step_range.
Qed.

Lemma memcpy_at_app (payload spare crc : list Z) (n : nat) :
  length crc = n -> (n <= length spare)%nat ->
  memcpy_at (payload ++ spare) (length payload) crc n
  = payload ++ crc ++ skipn n spare.
Proof.
  intros Hc Hs. unfold memcpy_at, store_at, memcpy.
  rewrite firstn_app, firstn_all, Nat.sub_diag, firstn_O, app_nil_r.
  rewrite skipn_app, skipn_all, Nat.sub_diag, skipn_O. cbn [app].
  rewrite <- Hc, firstn_all. reflexivity.
Qed.

Lemma crc32_loop_app (payload rest : list Z) (reg : Z) :
  Z.of_nat (length payload) < 2 ^ size_bits ->
  crc32_loop (payload ++ rest) (Z.of_nat (length payload)) reg
  = Some (fold_left crc32_step payload reg).
Proof.
  revert reg. induction payload as [|b p IH]; intros reg Hlen.
  - cbn. destruct rest; reflexivity.
  - cbn [app crc32_loop fold_left].
    replace (Z.of_nat (length (b :: p)) =? 0) with false
      by (symmetry; apply Z.eqb_neq; cbn [length]; lia).
    rewrite to_size_t_small by (cbn [length] in Hlen; cbn [length]; lia).
    replace (Z.of_nat (length (b :: p)) - 1) with (Z.of_nat (length p))
      by (cbn [length]; lia).
    apply IH. cbn [length] in Hlen. lia.
Qed.

Lemma crc32_bits_range (n : nat) (reg : Z) :
  0 <= reg < 2 ^ 32 -> 0 <= crc32_bits n reg < 2 ^ 32.
Proof.
  revert reg. induction n as [|n IH]; intros reg H; [exact H|].
  cbn [crc32_bits]. apply IH.
  assert (Hs : 0 <= Z.shiftr reg 1 < 2 ^ 32).
  { rewrite Z.shiftr_div_pow2 by lia. change (2 ^ 1) with 2. split.
    - apply Z.div_pos; lia.
    - apply Z.div_lt_upper_bound; lia. }
  destruct (Z.land reg 1 =? 0); [exact Hs|].
  apply lxor_range; [exact Hs | cbv; split; [discriminate | reflexivity]].
Qed.

Lemma crc32_step_range (reg bt : Z) :
  0 <= reg < 2 ^ 32 -> 0 <= crc32_step reg bt < 2 ^ 32.
Proof.
  intros H. unfold crc32_step. apply crc32_bits_range, lxor_range; [exact H|].
  pose proof (u8_range bt). change (2 ^ 32) with 4294967296. lia.
Qed.

Lemma fold_crc32_range (payload : list Z) (reg : Z) :
  0 <= reg < 2 ^ 32 -> 0 <= fold_left crc32_step payload reg < 2 ^ 32.
Proof.
  revert reg. induction payload as [|b p IH]; intros reg H; [exact H|].
  cbn [fold_left]. apply IH, crc32_step_range, H.
Qed.

(** Shifting out [n] zero bits never pops a one. *)
Lemma crc32_bits_shiftl (n : nat) (x : Z) :
  0 <= x -> crc32_bits n (Z.shiftl x (Z.of_nat n)) = x.
Proof.
  intros Hx. induction n as [|n IH]; [cbn [crc32_bits]; apply Z.shiftl_0_r|].
  cbn [crc32_bits].
  replace (Z.of_nat (S n)) with (Z.of_nat n + 1) by lia.
  rewrite <- Z.shiftl_shiftl by lia.
  set (y := Z.shiftl x (Z.of_nat n)) in *.
  rewrite Z.shiftl_mul_pow2 by lia. change (2 ^ 1) with 2.
  replace (Z.land (y * 2) 1) with 0.
  2:{ change 1 with (Z.ones 1). rewrite Z.land_ones by lia.
      change (2 ^ 1) with 2. symmetry. apply Z.mod_mul. lia. }
  cbn [Z.eqb]. rewrite Z.shiftr_div_pow2 by lia. change (2 ^ 1) with 2.
  rewrite Z.div_mul by lia. exact IH.
Qed.

Lemma lxor_low_byte (reg : Z) :
  Z.lxor reg (u8 (Z.land reg 0xFF)) = Z.shiftl (Z.shiftr reg 8) 8.
Proof.
  change (Z.land reg 0xFF) with (u8 reg). rewrite u8_idem. unfold u8.
  change 0xff with (Z.ones 8).
  apply Z.bits_inj'. intros i Hi.
  rewrite Z.lxor_spec, Z.land_spec, Z.testbit_ones_nonneg by lia.
  destruct (Z_lt_dec i 8) as [L|L].
  - rewrite Z.shiftl_spec_low by lia.
    replace (i <? 8) with true by (symmetry; apply Z.ltb_lt; lia).
    rewrite andb_true_r. apply xorb_nilpotent.
  - rewrite Z.shiftl_spec_high by lia. rewrite Z.shiftr_spec by lia.
    replace (i <? 8) with false by (symmetry; apply Z.ltb_ge; lia).
    rewrite andb_false_r, xorb_false_r. f_equal. lia.
Qed.

(** Feeding a CRC32 register its own low byte shifts it right by 8. *)
Lemma crc32_step_own_byte (reg : Z) :
  0 <= reg -> crc32_step reg (Z.land reg 0xFF) = Z.shiftr reg 8.
Proof.
  intros H. unfold crc32_step. rewrite lxor_low_byte.
  apply (crc32_bits_shiftl 8). apply Z.shiftr_nonneg. exact H.
Qed.

(** C5: for every non-empty payload followed by room for the checksum,
    [MifareCrc16Append] (respectively [MifareCrc32Append]) succeeds, and
    running [MifareCrc16] (respectively [MifareCrc32]) over the payload and
    the appended little-endian checksum yields zero. *)
Theorem crc_append_then_crc_is_zero (payload spare : list Z) :
  payload <> [] -> (4 <= length spare)%nat ->
  Z.of_nat (length payload) + 4 < 2 ^ size_bits ->
  (exists buf,
     MifareCrc16Append (payload ++ spare) (Z.of_nat (length payload)) = Some buf /\
     MifareCrc16 buf (Z.of_nat (length payload) + 2) = Some [0; 0]) /\
  (exists buf,
     MifareCrc32Append (payload ++ spare) (Z.of_nat (length payload)) = Some buf /\
     MifareCrc32 buf (Z.of_nat (length payload) + 4) = Some [0; 0; 0; 0]).
Proof.
  intros Hne Hspare Hlen. split.
  - unfold MifareCrc16Append, MifareCrc16.
    rewrite crc16_loop_app by (try assumption; lia).
    set (reg := fold_left crc16_step payload 0x6363).
    assert (Hreg : 0 <= reg < 65536) by (apply fold_crc16_range; lia).
    eexists. split; [reflexivity|].
    rewrite Nat2Z.id, memcpy_at_app by (cbn [length]; lia).
    set (crc := [u8 (Z.land reg 255); u8 (Z.land (Z.shiftr reg 8) 255)]).
    replace (Z.of_nat (length payload) + 2)
      with (Z.of_nat (length (payload ++ crc)))
      by (rewrite length_app; unfold crc; cbn [length]; lia).
    rewrite app_assoc, crc16_loop_app.
    2:{ destruct payload; [congruence | discriminate]. }
    2:{ rewrite length_app; unfold crc; cbn [length]; lia. }
    rewrite fold_left_app. fold reg. unfold crc. cbn [fold_left].
    rewrite crc16_step_own_byte by exact Hreg.
    assert (Hreg8 : 0 <= Z.shiftr reg 8 < 256).
    { rewrite Z.shiftr_div_pow2 by lia. change (2 ^ 8) with 256. split.
      - apply Z.div_pos; lia.
      - apply Z.div_lt_upper_bound; lia. }
    rewrite crc16_step_own_byte by lia.
    replace (Z.shiftr (Z.shiftr reg 8) 8) with 0.
    + reflexivity.
    + rewrite (Z.shiftr_div_pow2 _ 8) by lia. change (2 ^ 8) with 256.
      symmetry. apply Z.div_small. lia.
  - unfold MifareCrc32Append, MifareCrc32.
    rewrite crc32_loop_app by lia.
    set (reg := fold_left crc32_step payload 0xFFFFFFFF).
    assert (Hreg : 0 <= reg < 2 ^ 32)
      by (apply fold_crc32_range; cbv; split; [discriminate | reflexivity]).
    eexists. split; [reflexivity|].
    rewrite Nat2Z.id, memcpy_at_app by (cbn [length]; lia).
    set (crc := [Z.land (Z.shiftr reg 0) 255; Z.land (Z.shiftr reg 8) 255;
                 Z.land (Z.shiftr reg 16) 255; Z.land (Z.shiftr reg 24) 255]).
    replace (Z.of_nat (length payload) + 4)
      with (Z.of_nat (length (payload ++ crc)))
      by (rewrite length_app; unfold crc; cbn [length]; lia).
    rewrite app_assoc, crc32_loop_app
      by (rewrite length_app; unfold crc; cbn [length]; lia).
    rewrite fold_left_app. fold reg. unfold crc. cbn [fold_left].
    rewrite Z.shiftr_0_r. clearbody reg. destruct Hreg as [Hreg0 Hreg32].
    rewrite crc32_step_own_byte by exact Hreg0.
    rewrite crc32_step_own_byte by (apply Z.shiftr_nonneg; exact Hreg0).
    rewrite Z.shiftr_shiftr by lia.
    rewrite crc32_step_own_byte by (apply Z.shiftr_nonneg; exact Hreg0).
    rewrite Z.shiftr_shiftr by lia.
    rewrite crc32_step_own_byte by (apply Z.shiftr_nonneg; exact Hreg0).
    rewrite Z.shiftr_shiftr by lia. cbn [Z.add Pos.add Pos.succ].
    replace (Z.shiftr reg 32) with 0.
    + reflexivity.
    + rewrite Z.shiftr_div_pow2 by lia. symmetry. apply Z.div_small.
      split; assumption.
Qed.

(** ** Key versions *)

Lemma forallb_zrange (P : Z -> bool) (a b v : Z) :
  forallb P (zrange a b) = true -> a <= v < b -> P v = true.
Proof.
  intros H Hv. rewrite forallb_forall in H. apply H.
  unfold zrange. apply in_map_iff. exists (Z.to_nat (v - a)). split; [lia|].
  apply in_seq. lia.
Qed.

Lemma version_bit_of_01 (version n : Z) :
  0 <= version < 256 -> 0 <= n < 8 ->
  version_bit_of version n = 0 \/ version_bit_of version n = 1.
Proof.
  intros Hv Hn.
  assert (H : forallb (fun v => forallb (fun n =>
                (version_bit_of v n =? 0) || (version_bit_of v n =? 1))
                (zrange 0 8)) (zrange 0 256) = true) by (vm_compute; reflexivity).
  pose proof (forallb_zrange _ _ _ _ (forallb_zrange _ _ _ _ H Hv) Hn) as E.
  apply orb_true_iff in E. destruct E as [E|E]; apply Z.eqb_eq in E; auto.
Qed.

Lemma low_bit_set (d vb : Z) :
  vb = 0 \/ vb = 1 ->
  Z.land (u8 (Z.lor (u8 (Z.land d 0xfe)) vb)) 1 = vb.
Proof.
  intros Hvb. change 1 with (Z.ones 1) at 1. rewrite Z.land_ones by lia.
  change (2 ^ 1) with 2. rewrite <- Z.bit0_mod. unfold u8.
  rewrite !Z.land_spec, Z.lor_spec, !Z.land_spec.
  change (Z.testbit 255 0) with true. change (Z.testbit 254 0) with false.
  rewrite !andb_false_r, !andb_true_r. cbn [orb].
  destruct Hvb as [-> | ->]; reflexivity.
Qed.

Lemma length_set_version_body ty version data n :
  length (set_version_body ty version data n) = length data.
Proof.
  unfold set_version_body. destruct (key_type_eqb ty T_DES);
    rewrite ?length_wr; reflexivity.
Qed.

Lemma set_version_body_other ty version data n j :
  0 <= n -> 0 <= j -> j <> n -> j <> n + 8 ->
  rd (set_version_body ty version data n) j = rd data j.
Proof.
  intros Hn Hj H1 H2. unfold set_version_body.
  destruct (key_type_eqb ty T_DES);
    repeat rewrite rd_wr_other by lia; reflexivity.
Qed.

Lemma set_version_body_low_bit ty version data n :
  0 <= version < 256 -> 0 <= n < 8 -> n + 8 < Z.of_nat (length data) ->
  Z.land (rd (set_version_body ty version data n) n) 1 = version_bit_of version n.
Proof.
  intros Hv Hn Hlen. unfold set_version_body.
  assert (E : rd (wr (wr data n (u8 (Z.land (rd data n) 254))) n
                     (u8 (Z.lor (rd (wr data n (u8 (Z.land (rd data n) 254))) n)
                                (version_bit_of version n)))) n
              = u8 (Z.lor (u8 (Z.land (rd data n) 254)) (version_bit_of version n))).
  { rewrite rd_wr_same by (rewrite length_wr; lia).
    rewrite rd_wr_same by lia. reflexivity. }
  destruct (key_type_eqb ty T_DES).
  - rewrite rd_wr_other by lia. rewrite E.
    apply low_bit_set, version_bit_of_01; assumption.
  - rewrite !rd_wr_other by lia. rewrite E.
    apply low_bit_set, version_bit_of_01; assumption.
Qed.

(** The version read back from any key whose [data] holds its two 8-byte
    halves is the version last set. *)
Lemma get_version_after_set (key : mifare_desfire_key) (version : Z) :
  (16 <= length (key_data key))%nat -> 0 <= version < 256 ->
  MifareKeyGetVersion (MifareKeySetVersion key version) = version.
Proof.
  intros Hlen Hv. unfold MifareKeyGetVersion, MifareKeySetVersion.
  cbn [key_data set_key_data]. unfold version_indices.
  set (ty := key_type key). set (d := key_data key) in *.
  cbn [fold_left].
  repeat match goal with
  | |- context [Z.land (rd ?X ?n) 1] =>
      let E := fresh "E" in
      assert (E : Z.land (rd X n) 1 = version_bit_of version n)
        by (repeat rewrite set_version_body_other by lia;
            apply set_version_body_low_bit;
            [exact Hv | lia | rewrite ?length_set_version_body; lia]);
      rewrite E; clear E
  end.
  assert (H : forallb (fun v =>
     u8 (Z.lor (u8 (Z.lor (u8 (Z.lor (u8 (Z.lor (u8 (Z.lor (u8 (Z.lor
       (u8 (Z.lor (u8 (Z.lor 0
          (Z.shiftl (version_bit_of v 0) (7 - 0))))
          (Z.shiftl (version_bit_of v 1) (7 - 1))))
          (Z.shiftl (version_bit_of v 2) (7 - 2))))
          (Z.shiftl (version_bit_of v 3) (7 - 3))))
          (Z.shiftl (version_bit_of v 4) (7 - 4))))
          (Z.shiftl (version_bit_of v 5) (7 - 5))))
          (Z.shiftl (version_bit_of v 6) (7 - 6))))
          (Z.shiftl (version_bit_of v 7) (7 - 7))) =? v) (zrange 0 256) = true)
    by (vm_compute; reflexivity).
  apply Z.eqb_eq. exact (forallb_zrange _ _ _ _ H Hv).
Qed.

Lemma length_memcpy (dst src : list Z) (n : nat) :
  (n <= length src)%nat -> (n <= length dst)%nat ->
  length (memcpy dst src n) = length dst.
Proof.
  intros Hs Hd. unfold memcpy.
  rewrite length_app, length_firstn, length_skipn. lia.
Qed.

Lemma length_memcpy_at (dst src : list Z) (off n : nat) :
  (n <= length src)%nat -> (off + n <= length dst)%nat ->
  length (memcpy_at dst off src n) = length dst.
Proof.
  intros Hs Hd. unfold memcpy_at, store_at.
  rewrite length_app, length_firstn, length_memcpy; rewrite ?length_skipn; lia.
Qed.

Lemma key_data_UpdateKeySchedules (key : mifare_desfire_key) :
  key_data (UpdateKeySchedules key) = key_data key.
Proof.
  unfold UpdateKeySchedules. cbn [set_key_ks1 set_key_ks2 key_data key_type].
  destruct (key_type_eqb T_3K3DES (key_type key)); reflexivity.
Qed.

(** C8: for every freshly created DES-family key and every version byte,
    [MifareKeyGetVersion] returns the version set by [MifareKeySetVersion];
    in particular a key built from 16 bytes of all-ones material reads
    back 0xAA after [MifareKeySetVersion(key, 0xAA)]. *)
Theorem fresh_key_version_roundtrip (key : mifare_desfire_key)
  (value : list Z) (version : Z) :
  length (key_data key) = 24%nat -> 0 <= version < 256 ->
  ((8 <= length value)%nat ->
     MifareKeyGetVersion (MifareKeySetVersion (MifareDesKeyNew key value) version)
       = version /\
     MifareKeyGetVersion
       (MifareKeySetVersion (MifareDesKeyNewWithVersion key value) version)
       = version) /\
  ((16 <= length value)%nat ->
     MifareKeyGetVersion (MifareKeySetVersion (Mifare3DesKeyNew key value) version)
       = version /\
     MifareKeyGetVersion
       (MifareKeySetVersion (Mifare3DesKeyNewWithVersion key value) version)
       = version) /\
  ((24 <= length value)%nat ->
     MifareKeyGetVersion (MifareKeySetVersion (Mifare3k3DesKeyNew key value) version)
       = version /\
     MifareKeyGetVersion
       (MifareKeySetVersion (Mifare3k3DesKeyNewWithVersion key value) version)
       = version) /\
  MifareKeyGetVersion
    (MifareKeySetVersion
       (Mifare3DesKeyNewWithVersion key (repeat 0xFF 16%nat)) 0xAA) = 0xAA.
Proof.
  intros Hkey Hv.
  assert (Hdes : forall v, (8 <= length v)%nat ->
            (16 <= length (key_data (MifareDesKeyNewWithVersion key v)))%nat).
  { intros v Hl. unfold MifareDesKeyNewWithVersion.
    rewrite key_data_UpdateKeySchedules. cbn [set_key_data set_key_type key_data].
    rewrite length_memcpy_at; rewrite ?length_memcpy; lia. }
  assert (H3des : forall v, (16 <= length v)%nat ->
            (16 <= length (key_data (Mifare3DesKeyNewWithVersion key v)))%nat).
  { intros v Hl. unfold Mifare3DesKeyNewWithVersion.
    rewrite key_data_UpdateKeySchedules. cbn [set_key_data set_key_type key_data].
    rewrite length_memcpy; lia. }
  assert (H3k : forall v, (24 <= length v)%nat ->
            (16 <= length (key_data (Mifare3k3DesKeyNewWithVersion key v)))%nat).
  { intros v Hl. unfold Mifare3k3DesKeyNewWithVersion.
    rewrite key_data_UpdateKeySchedules. cbn [set_key_data set_key_type key_data].
    rewrite length_memcpy; lia. }
  repeat split; intros; apply get_version_after_set; try lia.
  - unfold MifareDesKeyNew. apply Hdes.
    rewrite length_map, length_firstn. lia.
  - apply Hdes. assumption.
  - unfold Mifare3DesKeyNew. apply H3des.
    rewrite length_app, !length_map, length_skipn, !length_firstn. lia.
  - apply H3des. assumption.
  - unfold Mifare3k3DesKeyNew. apply H3k.
    rewrite length_app, !length_map, length_skipn, !length_firstn. lia.
  - apply H3k. assumption.
  - apply H3des. rewrite repeat_length. lia.
Qed.

(** C7 (the code at a failing input): on a 3DES key whose second half is
    all zero, [MifareKeySetVersion(key, 0x00)] leaves 0xFF in every byte of
    the second half: the low bit is the complement of the version bit, and
    the seven other bits, which were 0, are set. *)
Theorem set_version_clobbers_second_half :
  key_data (MifareKeySetVersion
              (Mifare3DesKeyNewWithVersion zero_key (repeat 0x00 16%nat)) 0x00)
  = repeat 0x00 8%nat ++ repeat 0xFF 8%nat ++ repeat 0x00 8%nat.
Proof. vm_compute. reflexivity. Qed.

Lemma lor_lnot_one (d : Z) :
  u8 (Z.lor (u8 (Z.land d 0xfe)) (Z.lnot 1)) = 0xFE.
Proof.
  unfold u8. apply Z.bits_inj'. intros i Hi.
  rewrite !Z.land_spec, Z.lor_spec, !Z.land_spec.
  destruct (Z.eq_dec i 0) as [->|Ni].
  { change (Z.testbit 254 0) with false. change (Z.testbit (Z.lnot 1) 0) with false.
    rewrite !andb_false_r. reflexivity. }
  rewrite Z.lnot_spec by lia.
  assert (E1 : Z.testbit 1 i = false)
    by (apply (Z.bits_above_log2 1 i); cbn; lia).
  rewrite E1. cbn [negb]. rewrite orb_true_r, andb_true_l.
  change 255 with (Z.lxor 254 1). rewrite Z.lxor_spec, E1, xorb_false_r.
  reflexivity.
Qed.




(** X1: on a key wider than single DES, one iteration of the loop of
    [MifareKeySetVersion] leaves 0xFF or 0xFE in the byte of the second half
    it writes, whatever that byte held: 0xFF less the version bit. *)
Lemma set_version_body_second_half ty version data n :
  ty <> T_DES -> 0 <= version < 256 -> 0 <= n < 8 ->
  n + 8 < Z.of_nat (length data) ->
  rd (set_version_body ty version data n) (n + 8)
  = 0xFF - version_bit_of version n.
Proof.
  intros Hty Hv Hn Hlen. unfold set_version_body.
  replace (key_type_eqb ty T_DES) with false
    by (destruct ty; [congruence | reflexivity ..]).
  rewrite rd_wr_same by (rewrite !length_wr; lia).
  rewrite rd_wr_same by (rewrite !length_wr; lia).
  destruct (version_bit_of_01 version n Hv Hn) as [-> | ->].
  - unfold u8 at 1. change (Z.lnot 0) with (-1). rewrite Z.lor_m1_r. reflexivity.
  - apply lor_lnot_one.
Qed.

(** ** Postprocessing *)

(** C10: in a new-generation session, in Plain or MACed mode with the
    CMAC-on-command and CMAC-verify flags set, a response of 2 to 8 bytes is
    returned as it came: the pointer is [data] (not NULL), [*nbytes] and the
    buffer are unchanged, and so is the tag: no CMAC was computed (its IV
    and CMAC are untouched) and the last-error field is not set. *)
Theorem postprocess_short_frame_unverified (tag : mifare_tag) (data : list Z)
  (nbytes communication_settings : Z) :
  tag_authentication_scheme tag = AS_NEW ->
  Z.land communication_settings MDCM_MASK = MDCM_PLAIN \/
  Z.land communication_settings MDCM_MASK = MDCM_MACED ->
  flag_set communication_settings CMAC_COMMAND = true ->
  flag_set communication_settings CMAC_VERIFY = true ->
  1 < nbytes < 1 + CMAC_LENGTH ->
  MifareCryptoPostprocessData tag data nbytes communication_settings
  = Some (mk_post R_data nbytes data tag).
Proof.
  intros Hscheme Hmode Hcmd Hver Hn.
  unfold MifareCryptoPostprocessData.
  replace (1 =? nbytes) with false by (symmetry; apply Z.eqb_neq; lia).
  assert (E : postprocess_maced tag data nbytes communication_settings
              = mk_post R_data nbytes data tag).
  { unfold postprocess_maced. rewrite Hscheme, Hcmd, Hver. cbn [negb].
    replace (nbytes <? 1 + CMAC_LENGTH) with true
      by (symmetry; apply Z.ltb_lt; lia).
    reflexivity. }
  destruct Hmode as [-> | ->].
  - change (MDCM_PLAIN =? MDCM_PLAIN) with true. cbn iota.
    rewrite Hscheme, E. reflexivity.
  - change (MDCM_MACED =? MDCM_PLAIN) with false.
    change (MDCM_MACED =? MDCM_MACED) with true. cbn iota.
    rewrite E. reflexivity.
Qed.

(** ** Transport *)

Lemma putbuf_loop_tx (fuel : nat) (buffer : list Z) (i size checksum : Z)
  (w : mf_io) :
  0 <= i <= size -> size <= 255 -> (Z.to_nat (size - i) <= fuel)%nat ->
  Z.of_nat (length (io_tx (snd (putbuf_loop fuel buffer i size checksum w))))
  = Z.of_nat (length (io_tx w)) + (size - i).
Proof.
  revert i checksum w. induction fuel as [|fuel IH]; intros i checksum w Hi Hs Hf.
  - cbn [putbuf_loop snd]. lia.
  - cbn [putbuf_loop]. destruct (i <? size) eqn:E.
    + apply Z.ltb_lt in E. rewrite u8_small by lia.
      rewrite IH by lia. cbn [SerialPutChar io_tx].
      rewrite length_app. cbn [length]. lia.
    + apply Z.ltb_ge in E. cbn [snd]. lia.
Qed.

Lemma MifarePutBuf_tx (buffer : list Z) (size : Z) (w : mf_io) :
  0 <= size <= 255 ->
  Z.of_nat (length (io_tx (MifarePutBuf buffer size w)))
  = Z.of_nat (length (io_tx w)) + size + 1.
Proof.
  intros Hs. unfold MifarePutBuf.
  pose proof (putbuf_loop_tx (Z.to_nat size) buffer 0 size 0
                (set_io_uartStatus w MF_UARTSTATUS_TX)
                ltac:(lia) ltac:(lia) ltac:(lia)) as H.
  destruct (putbuf_loop (Z.to_nat size) buffer 0 size 0
              (set_io_uartStatus w MF_UARTSTATUS_TX)) as [checksum w'].
  cbn [snd] in H. cbn [set_io_uartStatus SerialPutChar io_tx] in *.
  rewrite length_app. cbn [length]. lia.
Qed.

Lemma getbuf_loop_tx (fuel : nat) (rxCount checkSum : Z) (w : mf_io) :
  io_tx (snd (getbuf_loop fuel rxCount checkSum w)) = io_tx w.
Proof.
  revert rxCount checkSum w. induction fuel as [|fuel IH]; intros; [reflexivity|].
  cbn [getbuf_loop].
  destruct ((rxCount <? 2) || (rxCount >=? 2) && (rxCount <? rd (io_rxBuf w) 1 + 2));
    [|reflexivity].
  cbn [MifareStartTimer io_rx]. destruct (io_rx w) as [|b rest]; [reflexivity|].
  rewrite IH. reflexivity.
Qed.

Lemma MifareGetBuf_tx (w : mf_io) : io_tx (MifareGetBuf w) = io_tx w.
Proof.
  unfold MifareGetBuf.
  pose proof (getbuf_loop_tx 258 0 0 (set_io_uartStatus w MF_UARTSTATUS_RXSUCC)) as H.
  destruct (getbuf_loop 258 0 0 (set_io_uartStatus w MF_UARTSTATUS_RXSUCC))
    as [[rxCount checkSum] w'].
  cbn [snd set_io_uartStatus io_tx] in H.
  destruct (checkSum =? 0); cbn [set_io_rxBuf set_io_uartStatus io_tx]; exact H.
Qed.

Lemma commtcl_fold_tx (buffer : list Z) (size : Z) (idx : list Z)
  (st : list Z * Z * mf_io) :
  0 <= size <= 252 ->
  Z.of_nat (length (io_tx (snd (fold_left (commtcl_body buffer size) idx st))))
  = Z.of_nat (length (io_tx (snd st))) + Z.of_nat (length idx) * (size + 4).
Proof.
  intros Hs. revert st. induction idx as [|i idx IH]; intros st.
  - cbn [fold_left length]. lia.
  - cbn [fold_left]. rewrite IH. destruct st as [[comm success] w].
    unfold commtcl_body. cbn [snd].
    rewrite MifareGetBuf_tx, MifarePutBuf_tx by (rewrite u8_small; lia).
    rewrite u8_small by lia. cbn [length]. lia.
Qed.

(** X2: one call of [MifareCommTCL] with [size] payload bytes, at most
    [MAX_FRAME_SIZE] of them so that they fit [comm], on a link that
    satisfies [link_fits], hands [size * (size + 4)] bytes to the serial
    link, [size] frames of [size + 4] bytes: one frame only when [size]
    is 1. *)
Lemma MifareCommTCL_tx_length (buffer : list Z) (size : Z) (w : mf_io) :
  0 <= size <= MAX_FRAME_SIZE -> (Z.to_nat size <= length buffer)%nat ->
  link_fits w ->
  Z.of_nat (length (io_tx (snd (MifareCommTCL buffer size w))))
  = Z.of_nat (length (io_tx w)) + size * (size + 4).
Proof.
  intros Hs0 _ _.
  assert (Hs : 0 <= size <= 252) by (unfold MAX_FRAME_SIZE in Hs0; lia).
  unfold MifareCommTCL.
  match goal with
  | |- context [fold_left ?f ?l ?st] =>
      pose proof (commtcl_fold_tx buffer size l st Hs) as H;
      destruct (fold_left f l st) as [[comm success] w']
  end.
  cbn [snd set_io_rxBuf io_tx] in *. rewrite H.
  unfold zrange. rewrite length_map, length_seq. lia.
Qed.

(** C9 (the code at a failing input): for the 2-byte payload
    {0x0A, 0x00}, the first command of a legacy authentication,
    [MifareCommTCL] hands two frames to the serial link and not one.  The
    first is sent when only one payload byte has been copied: its second
    payload byte is whatever the uninitialised [comm] array held.  The
    second is the frame of the claim. *)
Theorem commtcl_two_bytes_two_frames :
  io_tx (snd (MifareCommTCL [0x0A; 0x00] 2 zero_io))
  = [0xBA; 0x04; 0x21; 0x0A; uninit 4;
     u8 (Z.lxor 0x95 (uninit 4))]
    ++ [0xBA; 0x04; 0x21; 0x0A; 0x00; 0x95].
Proof.
  vm_compute. reflexivity.
Qed.

(** ** DES: decryption inverts encryption *)

Lemma land_range (n a b : Z) : 0 <= n -> 0 <= b < 2 ^ n -> 0 <= Z.land a b < 2 ^ n.
Proof.
  intros Hn Hb.
  assert (E : b = Z.land b (Z.ones n))
    by (rewrite Z.land_ones, Z.mod_small; lia).
  rewrite E, Z.land_assoc. apply land_ones_range. exact Hn.
Qed.

Lemma in32_lxor (a b : Z) : in32 a -> in32 b -> in32 (Z.lxor a b).
Proof. apply lxor_range. Qed.

Lemma in32_mask (x : Z) : in32 (Z.land x 0xffffffff).
Proof. exact (land_ones_range x 32 ltac:(lia)). Qed.

Lemma PERM_OP_involutive (a b n m : Z) :
  0 <= n ->
  PERM_OP (fst (PERM_OP a b n m)) (snd (PERM_OP a b n m)) n m = (a, b).
Proof.
  intros Hn. unfold PERM_OP. cbn [fst snd].
  set (t := Z.land (Z.lxor (Z.shiftr a n) b) m).
  assert (E : Z.land (Z.lxor (Z.shiftr (Z.lxor a (Z.shiftl t n)) n) (Z.lxor b t)) m = t).
  { rewrite Z.shiftr_lxor, Z.shiftr_shiftl_l, Z.sub_diag, Z.shiftl_0_r by lia.
    rewrite Z.lxor_assoc, (Z.lxor_comm t (Z.lxor b t)), Z.lxor_assoc.
    rewrite Z.lxor_nilpotent, Z.lxor_0_r. reflexivity. }
  rewrite E. f_equal.
  - rewrite Z.lxor_assoc, Z.lxor_nilpotent, Z.lxor_0_r. reflexivity.
  - rewrite Z.lxor_assoc, Z.lxor_nilpotent, Z.lxor_0_r. reflexivity.
Qed.

Lemma PERM_OP_undo (a b n m a' b' : Z) :
  0 <= n -> PERM_OP a b n m = (a', b') -> PERM_OP a' b' n m = (a, b).
Proof.
  intros Hn H. pose proof (PERM_OP_involutive a b n m Hn) as E.
  rewrite H in E. exact E.
Qed.

Lemma PERM_OP_range (a b n m : Z) :
  0 <= n -> in32 a -> in32 b -> in32 m -> in32 (Z.shiftl m n) ->
  in32 (fst (PERM_OP a b n m)) /\ in32 (snd (PERM_OP a b n m)).
Proof.
  intros Hn Ha Hb Hm Hmn. unfold PERM_OP. cbn [fst snd]. split.
  - apply in32_lxor; [exact Ha|]. rewrite Z.shiftl_land.
    apply land_range; [lia | exact Hmn].
  - apply in32_lxor; [exact Hb|]. apply land_range; [lia | exact Hm].
Qed.

Ltac in32_const := cbv; split; [discriminate | reflexivity].

(** [FP] undoes [IP] and [IP] undoes [FP], the two words exchanged. *)
Lemma FP_IP (l r l' r' : Z) : IP l r = (l', r') -> FP r' l' = (r, l).
Proof.
  unfold IP, FP. intros H.
  destruct (PERM_OP r l 4 252645135) as [r1 l1] eqn:E1.
  destruct (PERM_OP l1 r1 16 65535) as [l2 r2] eqn:E2.
  destruct (PERM_OP r2 l2 2 858993459) as [r3 l3] eqn:E3.
  destruct (PERM_OP l3 r3 8 16711935) as [l4 r4] eqn:E4.
  destruct (PERM_OP r4 l4 1 1431655765) as [r5 l5] eqn:E5.
  inversion H; subst l' r'; clear H.
  rewrite (PERM_OP_undo _ _ 1 _ _ _ ltac:(lia) E5).
  rewrite (PERM_OP_undo _ _ 8 _ _ _ ltac:(lia) E4).
  rewrite (PERM_OP_undo _ _ 2 _ _ _ ltac:(lia) E3).
  rewrite (PERM_OP_undo _ _ 16 _ _ _ ltac:(lia) E2).
  rewrite (PERM_OP_undo _ _ 4 _ _ _ ltac:(lia) E1).
  reflexivity.
Qed.

Lemma IP_FP (l r l' r' : Z) : FP l r = (l', r') -> IP r' l' = (r, l).
Proof.
  unfold IP, FP. intros H.
  destruct (PERM_OP l r 1 1431655765) as [l1 r1] eqn:E1.
  destruct (PERM_OP r1 l1 8 16711935) as [r2 l2] eqn:E2.
  destruct (PERM_OP l2 r2 2 858993459) as [l3 r3] eqn:E3.
  destruct (PERM_OP r3 l3 16 65535) as [r4 l4] eqn:E4.
  destruct (PERM_OP l4 r4 4 252645135) as [l5 r5] eqn:E5.
  inversion H; subst l' r'; clear H.
  rewrite (PERM_OP_undo _ _ 4 _ _ _ ltac:(lia) E5).
  rewrite (PERM_OP_undo _ _ 16 _ _ _ ltac:(lia) E4).
  rewrite (PERM_OP_undo _ _ 2 _ _ _ ltac:(lia) E3).
  rewrite (PERM_OP_undo _ _ 8 _ _ _ ltac:(lia) E2).
  rewrite (PERM_OP_undo _ _ 1 _ _ _ ltac:(lia) E1).
  reflexivity.
Qed.

Lemma IP_range (l r : Z) :
  in32 l -> in32 r -> in32 (fst (IP l r)) /\ in32 (snd (IP l r)).
Proof.
  intros Hl Hr. unfold IP.
  pose proof (PERM_OP_range r l 4 252645135 ltac:(lia) Hr Hl
                ltac:(in32_const) ltac:(in32_const)) as [A1 B1].
  destruct (PERM_OP r l 4 252645135) as [r1 l1]. cbn [fst snd] in A1, B1.
  pose proof (PERM_OP_range l1 r1 16 65535 ltac:(lia) B1 A1
                ltac:(in32_const) ltac:(in32_const)) as [A2 B2].
  destruct (PERM_OP l1 r1 16 65535) as [l2 r2]. cbn [fst snd] in A2, B2.
  pose proof (PERM_OP_range r2 l2 2 858993459 ltac:(lia) B2 A2
                ltac:(in32_const) ltac:(in32_const)) as [A3 B3].
  destruct (PERM_OP r2 l2 2 858993459) as [r3 l3]. cbn [fst snd] in A3, B3.
  pose proof (PERM_OP_range l3 r3 8 16711935 ltac:(lia) B3 A3
                ltac:(in32_const) ltac:(in32_const)) as [A4 B4].
  destruct (PERM_OP l3 r3 8 16711935) as [l4 r4]. cbn [fst snd] in A4, B4.
  pose proof (PERM_OP_range r4 l4 1 1431655765 ltac:(lia) B4 A4
                ltac:(in32_const) ltac:(in32_const)) as [A5 B5].
  destruct (PERM_OP r4 l4 1 1431655765) as [r5 l5]. cbn [fst snd] in *.
  split; assumption.
Qed.

Lemma FP_range (l r : Z) :
  in32 l -> in32 r -> in32 (fst (FP l r)) /\ in32 (snd (FP l r)).
Proof.
  intros Hl Hr. unfold FP.
  pose proof (PERM_OP_range l r 1 1431655765 ltac:(lia) Hl Hr
                ltac:(in32_const) ltac:(in32_const)) as [A1 B1].
  destruct (PERM_OP l r 1 1431655765) as [l1 r1]. cbn [fst snd] in A1, B1.
  pose proof (PERM_OP_range r1 l1 8 16711935 ltac:(lia) B1 A1
                ltac:(in32_const) ltac:(in32_const)) as [A2 B2].
  destruct (PERM_OP r1 l1 8 16711935) as [r2 l2]. cbn [fst snd] in A2, B2.
  pose proof (PERM_OP_range l2 r2 2 858993459 ltac:(lia) B2 A2
                ltac:(in32_const) ltac:(in32_const)) as [A3 B3].
  destruct (PERM_OP l2 r2 2 858993459) as [l3 r3]. cbn [fst snd] in A3, B3.
  pose proof (PERM_OP_range r3 l3 16 65535 ltac:(lia) B3 A3
                ltac:(in32_const) ltac:(in32_const)) as [A4 B4].
  destruct (PERM_OP r3 l3 16 65535) as [r4 l4]. cbn [fst snd] in A4, B4.
  pose proof (PERM_OP_range l4 r4 4 252645135 ltac:(lia) B4 A4
                ltac:(in32_const) ltac:(in32_const)) as [A5 B5].
  destruct (PERM_OP l4 r4 4 252645135) as [l5 r5]. cbn [fst snd] in *.
  split; assumption.
Qed.

(** The two rotations of [DES_encrypt1] undo each other on 32-bit words. *)
Lemma rotate_29_3 (x : Z) :
  in32 x ->
  Z.land (ROTATE (Z.land (ROTATE x 29) 0xffffffff) 3) 0xffffffff = x.
Proof.
  unfold in32, ROTATE. intros Hx.
  change 0xffffffff with (Z.ones 32). rewrite !Z.land_ones by lia.
  rewrite !Z.shiftr_div_pow2, !Z.shiftl_mul_pow2 by lia.
  change (2 ^ 32) with 4294967296 in *. change (2 ^ 29) with 536870912.
  change (2 ^ (32 - 29)) with 8. change (2 ^ 3) with 8.
  change (2 ^ (32 - 3)) with 536870912.
  pose proof (Z.div_mod x 536870912 ltac:(lia)) as D.
  pose proof (Z.mod_pos_bound x 536870912 ltac:(lia)) as M.
  set (h := x / 536870912) in *. set (lo := x mod 536870912) in *.
  assert (Hh : 0 <= h < 8) by lia.
  assert (E1 : (h + x * 8) mod 4294967296 = h + 8 * lo).
  { replace (h + x * 8) with (h + 8 * lo + h * 4294967296) by lia.
    rewrite Z.mod_add by lia. apply Z.mod_small. lia. }
  rewrite E1.
  replace ((h + 8 * lo) / 8) with lo
    by (apply (Z.div_unique _ 8 lo h); lia).
  replace (lo + (h + 8 * lo) * 536870912) with (x + lo * 4294967296) by lia.
  rewrite Z.mod_add by lia. apply Z.mod_small. lia.
Qed.

Lemma rotate_3_29 (x : Z) :
  in32 x ->
  Z.land (ROTATE (Z.land (ROTATE x 3) 0xffffffff) 29) 0xffffffff = x.
Proof.
  unfold in32, ROTATE. intros Hx.
  change 0xffffffff with (Z.ones 32). rewrite !Z.land_ones by lia.
  rewrite !Z.shiftr_div_pow2, !Z.shiftl_mul_pow2 by lia.
  change (2 ^ 32) with 4294967296 in *. change (2 ^ 29) with 536870912.
  change (2 ^ (32 - 29)) with 8. change (2 ^ 3) with 8.
  change (2 ^ (32 - 3)) with 536870912.
  pose proof (Z.div_mod x 8 ltac:(lia)) as D.
  pose proof (Z.mod_pos_bound x 8 ltac:(lia)) as M.
  set (h := x / 8) in *. set (lo := x mod 8) in *.
  assert (Hh : 0 <= h < 536870912) by lia.
  assert (E1 : (h + x * 536870912) mod 4294967296 = h + 536870912 * lo).
  { replace (h + x * 536870912) with (h + 536870912 * lo + h * 4294967296) by lia.
    rewrite Z.mod_add by lia. apply Z.mod_small. lia. }
  rewrite E1.
  replace ((h + 536870912 * lo) / 536870912) with lo
    by (apply (Z.div_unique _ 536870912 lo h); lia).
  replace (lo + (h + 536870912 * lo) * 8) with (x + lo * 4294967296) by lia.
  rewrite Z.mod_add by lia. apply Z.mod_small. lia.
Qed.

(** Every entry of the S/P table is a 32-bit value, as in spr.h. *)
Hypothesis DES_SPtrans_range : forall i j, in32 (DES_SPtrans i j).

Lemma D_ENCRYPT_involutive (s : list Z) (LL R S : Z) :
  D_ENCRYPT s (D_ENCRYPT s LL R S) R S = LL.
Proof.
  unfold D_ENCRYPT.
  rewrite Z.lxor_assoc, Z.lxor_nilpotent, Z.lxor_0_r. reflexivity.
Qed.

Lemma D_ENCRYPT_range (s : list Z) (LL R S : Z) :
  in32 LL -> in32 (D_ENCRYPT s LL R S).
Proof.
  intros H. unfold D_ENCRYPT.
  repeat apply in32_lxor; try apply DES_SPtrans_range. exact H.
Qed.

Lemma dec_enc_body (s : list Z) (l r i : Z) :
  dec_body s (snd (enc_body s (l, r) i), fst (enc_body s (l, r) i)) (i + 2)
  = (r, l).
Proof.
  unfold dec_body, enc_body. cbn [fst snd].
  rewrite Z.sub_0_r, !Z.add_0_r, D_ENCRYPT_involutive.
  replace (i + 2 - 2) with i by lia.
  rewrite D_ENCRYPT_involutive. reflexivity.
Qed.

Lemma enc_dec_body (s : list Z) (l r i : Z) :
  enc_body s (snd (dec_body s (l, r) i), fst (dec_body s (l, r) i)) (i - 2)
  = (r, l).
Proof.
  unfold dec_body, enc_body. cbn [fst snd].
  rewrite !Z.sub_0_r, Z.add_0_r, D_ENCRYPT_involutive.
  replace (i - 2 + 2) with i by lia.
  rewrite D_ENCRYPT_involutive. reflexivity.
Qed.

Lemma dec_rounds_undo_enc (s : list Z) (idx : list Z) (l r : Z) :
  fold_left (dec_body s) (map (fun i => i + 2) (rev idx))
    (snd (fold_left (enc_body s) idx (l, r)),
     fst (fold_left (enc_body s) idx (l, r)))
  = (r, l).
Proof.
  revert l r. induction idx as [|i idx IH]; intros l r; [reflexivity|].
  cbn [fold_left rev]. rewrite map_app, fold_left_app. cbn [map fold_left].
  destruct (enc_body s (l, r) i) as [l' r'] eqn:E.
  rewrite IH. pose proof (dec_enc_body s l r i) as H.
  rewrite E in H. exact H.
Qed.

Lemma enc_rounds_undo_dec (s : list Z) (idx : list Z) (l r : Z) :
  fold_left (enc_body s) (map (fun i => i - 2) (rev idx))
    (snd (fold_left (dec_body s) idx (l, r)),
     fst (fold_left (dec_body s) idx (l, r)))
  = (r, l).
Proof.
  revert l r. induction idx as [|i idx IH]; intros l r; [reflexivity|].
  cbn [fold_left rev]. rewrite map_app, fold_left_app. cbn [map fold_left].
  destruct (dec_body s (l, r) i) as [l' r'] eqn:E.
  rewrite IH. pose proof (enc_dec_body s l r i) as H.
  rewrite E in H. exact H.
Qed.

Lemma enc_rounds_range (s : list Z) (idx : list Z) (l r : Z) :
  in32 l -> in32 r ->
  in32 (fst (fold_left (enc_body s) idx (l, r))) /\
  in32 (snd (fold_left (enc_body s) idx (l, r))).
Proof.
  revert l r. induction idx as [|i idx IH]; intros l r Hl Hr; [split; assumption|].
  cbn [fold_left]. unfold enc_body at 2 4.
  apply IH; repeat apply D_ENCRYPT_range; assumption.
Qed.

Lemma dec_rounds_range (s : list Z) (idx : list Z) (l r : Z) :
  in32 l -> in32 r ->
  in32 (fst (fold_left (dec_body s) idx (l, r))) /\
  in32 (snd (fold_left (dec_body s) idx (l, r))).
Proof.
  revert l r. induction idx as [|i idx IH]; intros l r Hl Hr; [split; assumption|].
  cbn [fold_left]. unfold dec_body at 2 4.
  apply IH; repeat apply D_ENCRYPT_range; assumption.
Qed.

Lemma des_rounds_range (ks : list Z) (enc l r : Z) :
  in32 l -> in32 r ->
  in32 (fst (des_rounds ks enc (l, r))) /\ in32 (snd (des_rounds ks enc (l, r))).
Proof.
  intros Hl Hr. unfold des_rounds. destruct (enc =? 0).
  - apply dec_rounds_range; assumption.
  - apply enc_rounds_range; assumption.
Qed.

Lemma des_rounds_undo (ks : list Z) (enc enc' l r : Z) :
  (enc' =? 0) = negb (enc =? 0) ->
  des_rounds ks enc'
    (snd (des_rounds ks enc (l, r)), fst (des_rounds ks enc (l, r)))
  = (r, l).
Proof.
  intros H. unfold des_rounds. rewrite H. destruct (enc =? 0); cbn [negb].
  - exact (enc_rounds_undo_dec ks dec_indices l r).
  - exact (dec_rounds_undo_enc ks enc_indices l r).
Qed.

Lemma DES_encrypt1_unfold (d0 d1 : Z) (ks : list Z) (enc : Z) :
  DES_encrypt1 (d0, d1) ks enc
  = let ip := IP d0 d1 in
    let lr := des_rounds ks enc (Z.land (ROTATE (snd ip) 29) 0xffffffff,
                                 Z.land (ROTATE (fst ip) 29) 0xffffffff) in
    let fp := FP (Z.land (ROTATE (snd lr) 3) 0xffffffff)
                 (Z.land (ROTATE (fst lr) 3) 0xffffffff) in
    (snd fp, fst fp).
Proof.
  unfold DES_encrypt1, des_rounds. cbn [fst snd].
  destruct (IP d0 d1) as [r l]. cbn [fst snd].
  destruct (enc =? 0).
  - destruct (fold_left (dec_body ks) dec_indices _) as [l' r']. cbn [fst snd].
    destruct (FP _ _) as [r'' l'']. reflexivity.
  - destruct (fold_left (enc_body ks) enc_indices _) as [l' r']. cbn [fst snd].
    destruct (FP _ _) as [r'' l'']. reflexivity.
Qed.

Lemma DES_encrypt1_range (d0 d1 : Z) (ks : list Z) (enc : Z) :
  in32 (fst (DES_encrypt1 (d0, d1) ks enc)) /\
  in32 (snd (DES_encrypt1 (d0, d1) ks enc)).
Proof.
  rewrite DES_encrypt1_unfold. cbv zeta. cbn [fst snd].
  match goal with
  | |- in32 (snd (FP ?a ?b)) /\ in32 (fst (FP ?a ?b)) =>
      pose proof (FP_range a b (in32_mask _) (in32_mask _)) as [A B]
  end.
  split; assumption.
Qed.

(** Running [DES_encrypt1] in one direction and then in the other gives
    back the two words. *)
Lemma DES_encrypt1_inverse (d0 d1 : Z) (ks : list Z) (enc enc' : Z) :
  in32 d0 -> in32 d1 -> (enc' =? 0) = negb (enc =? 0) ->
  DES_encrypt1 (DES_encrypt1 (d0, d1) ks enc) ks enc' = (d0, d1).
Proof.
  intros H0 H1 Henc.
  pose proof (IP_range d0 d1 H0 H1) as [HipA HipB].
  rewrite (DES_encrypt1_unfold d0 d1). cbv zeta.
  destruct (IP d0 d1) as [rA lA] eqn:EIP. cbn [fst snd] in *.
  set (l1 := Z.land (ROTATE lA 29) 0xffffffff).
  set (r1 := Z.land (ROTATE rA 29) 0xffffffff).
  pose proof (des_rounds_range ks enc l1 r1 (in32_mask _) (in32_mask _)) as [Hl16 Hr16].
  pose proof (des_rounds_undo ks enc enc' l1 r1 Henc) as Hundo.
  destruct (des_rounds ks enc (l1, r1)) as [l16 r16] eqn:ER. cbn [fst snd] in *.
  set (l17 := Z.land (ROTATE l16 3) 0xffffffff).
  set (r17 := Z.land (ROTATE r16 3) 0xffffffff).
  destruct (FP r17 l17) as [rF lF] eqn:EFP. cbn [fst snd].
  rewrite DES_encrypt1_unfold. cbv zeta.
  rewrite (IP_FP _ _ _ _ EFP). cbn [fst snd].
  unfold l17, r17. rewrite !rotate_3_29 by assumption.
  rewrite Hundo. cbn [fst snd].
  unfold l1, r1. rewrite !rotate_29_3 by assumption.
  rewrite (FP_IP _ _ _ _ EIP). reflexivity.
Qed.

(** *** Bytes and words *)

Lemma testbit_high (a n i : Z) :
  0 <= a < 2 ^ n -> 0 <= n <= i -> Z.testbit a i = false.
Proof.
  intros Ha Hi. rewrite <- (Z.mod_small a (2 ^ n)) by exact Ha.
  apply Z.mod_pow2_bits_high. exact Hi.
Qed.

Lemma lor_shiftl_add (a b n : Z) :
  0 <= n -> 0 <= a < 2 ^ n -> Z.lor a (Z.shiftl b n) = a + b * 2 ^ n.
Proof.
  intros Hn Ha.
  assert (E : Z.land a (Z.shiftl b n) = 0).
  { apply Z.bits_inj'. intros i Hi. rewrite Z.land_spec, Z.bits_0.
    destruct (Z_lt_dec i n) as [L|L].
    - rewrite Z.shiftl_spec_low by lia. apply andb_false_r.
    - rewrite (testbit_high a n i) by lia. reflexivity. }
  rewrite <- Z.lxor_lor, <- Z.add_nocarry_lxor by exact E.
  rewrite Z.shiftl_mul_pow2 by exact Hn. reflexivity.
Qed.

Lemma is_byte_range (b : Z) : is_byte b = true -> 0 <= b < 256.
Proof.
  unfold is_byte. intros H. apply andb_true_iff in H. destruct H as [H1 H2].
  apply Z.leb_le in H1. apply Z.ltb_lt in H2. lia.
Qed.

Lemma is_byte_of_range (b : Z) : 0 <= b < 256 -> is_byte b = true.
Proof.
  intros H. unfold is_byte. apply andb_true_iff.
  split; [apply Z.leb_le | apply Z.ltb_lt]; lia.
Qed.

Lemma c2l_bytes (b0 b1 b2 b3 : Z) (rest : list Z) :
  0 <= b0 < 256 -> 0 <= b1 < 256 -> 0 <= b2 < 256 -> 0 <= b3 < 256 ->
  c2l (b0 :: b1 :: b2 :: b3 :: rest) = b0 + 256 * b1 + 65536 * b2 + 16777216 * b3.
Proof.
  intros H0 H1 H2 H3. unfold c2l.
  change (rd (b0 :: b1 :: b2 :: b3 :: rest) 0) with b0.
  change (rd (b0 :: b1 :: b2 :: b3 :: rest) 1) with b1.
  change (rd (b0 :: b1 :: b2 :: b3 :: rest) 2) with b2.
  change (rd (b0 :: b1 :: b2 :: b3 :: rest) 3) with b3.
  rewrite (lor_shiftl_add b0 b1 8) by (change (2 ^ 8) with 256; lia).
  change (2 ^ 8) with 256.
  rewrite (lor_shiftl_add _ b2 16) by (change (2 ^ 16) with 65536; lia).
  change (2 ^ 16) with 65536.
  rewrite (lor_shiftl_add _ b3 24) by (change (2 ^ 24) with 16777216; lia).
  change (2 ^ 24) with 16777216. lia.
Qed.

Lemma c2l_range (c : list Z) :
  (4 <= length c)%nat -> bytes_ok (firstn 4 c) = true -> in32 (c2l c).
Proof.
  intros Hlen Hok.
  destruct c as [|b0 [|b1 [|b2 [|b3 rest]]]]; cbn [length] in Hlen; try lia.
  cbn [firstn bytes_ok forallb] in Hok.
  repeat (apply andb_true_iff in Hok; destruct Hok as [?%is_byte_range Hok]).
  rewrite c2l_bytes by assumption. unfold in32. change (2 ^ 32) with 4294967296. lia.
Qed.

Lemma l2c_c2l (c : list Z) :
  (4 <= length c)%nat -> bytes_ok (firstn 4 c) = true -> l2c (c2l c) = firstn 4 c.
Proof.
  clear uninit AES_encrypt AES_decrypt AES_set_encrypt_key AES_set_decrypt_key AES_KEY.
  intros Hlen Hok.
  destruct c as [|b0 [|b1 [|b2 [|b3 rest]]]]; cbn [length] in Hlen; try lia.
  cbn [firstn bytes_ok forallb] in Hok.
  repeat (apply andb_true_iff in Hok; destruct Hok as [?%is_byte_range Hok]).
  rewrite c2l_bytes by assumption. unfold l2c. cbn [firstn].
  change 0xff with (Z.ones 8). rewrite !Z.land_ones by lia.
  rewrite !Z.shiftr_div_pow2 by lia.
  change (2 ^ 8) with 256; change (2 ^ 16) with 65536; change (2 ^ 24) with 16777216.
  repeat f_equal; Z.div_mod_to_equations; lia.
Qed.

Lemma c2l_l2c (x : Z) (rest : list Z) : in32 x -> c2l (l2c x ++ rest) = x.
Proof.
  clear uninit AES_encrypt AES_decrypt AES_set_encrypt_key AES_set_decrypt_key AES_KEY.
  unfold in32. change (2 ^ 32) with 4294967296. intros Hx.
  unfold l2c. cbn [app]. change 0xff with (Z.ones 8).
  rewrite !Z.land_ones by lia. rewrite !Z.shiftr_div_pow2 by lia.
  change (2 ^ 8) with 256; change (2 ^ 16) with 65536; change (2 ^ 24) with 16777216.
  rewrite c2l_bytes by (apply Z.mod_pos_bound; lia).
  Z.div_mod_to_equations. lia.
Qed.

Lemma bytes_ok_l2c (x : Z) : bytes_ok (l2c x) = true.
Proof.
  unfold l2c, bytes_ok. cbn [forallb].
  rewrite !is_byte_of_range; [reflexivity | ..];
    exact (land_ones_range _ 8 ltac:(lia)).
Qed.

Lemma bytes_ok_app (a b : list Z) :
  bytes_ok (a ++ b) = bytes_ok a && bytes_ok b.
Proof. apply forallb_app. Qed.

Lemma length_DES_ecb_encrypt (input ks : list Z) (enc : Z) :
  length (DES_ecb_encrypt input ks enc) = 8%nat.
Proof.
  unfold DES_ecb_encrypt. destruct (DES_encrypt1 _ ks enc) as [a b]. reflexivity.
Qed.

Lemma bytes_ok_DES_ecb_encrypt (input ks : list Z) (enc : Z) :
  bytes_ok (DES_ecb_encrypt input ks enc) = true.
Proof.
  unfold DES_ecb_encrypt. destruct (DES_encrypt1 _ ks enc) as [a b].
  rewrite bytes_ok_app, !bytes_ok_l2c. reflexivity.
Qed.

Lemma bytes_ok_firstn_skipn (n : nat) (l : list Z) :
  bytes_ok l = true ->
  bytes_ok (firstn n l) = true /\ bytes_ok (skipn n l) = true.
Proof.
  intros H. rewrite <- (firstn_skipn n l), bytes_ok_app in H.
  apply andb_true_iff in H. exact H.
Qed.

Lemma bytes_ok_firstn (n : nat) (l : list Z) :
  bytes_ok l = true -> bytes_ok (firstn n l) = true.
Proof. intros H. apply (bytes_ok_firstn_skipn n l H). Qed.

Lemma bytes_ok_skipn (n : nat) (l : list Z) :
  bytes_ok l = true -> bytes_ok (skipn n l) = true.
Proof. intros H. apply (bytes_ok_firstn_skipn n l H). Qed.

(** [DES_ecb_encrypt] in one direction and then in the other gives back the
    8 bytes it read. *)
Lemma DES_ecb_encrypt_inverse (input rest ks : list Z) (enc enc' : Z) :
  (8 <= length input)%nat -> bytes_ok (firstn 8 input) = true ->
  (enc' =? 0) = negb (enc =? 0) ->
  DES_ecb_encrypt (DES_ecb_encrypt input ks enc ++ rest) ks enc' = firstn 8 input.
Proof.
  intros Hlen Hok Henc.
  assert (Hok0 : bytes_ok (firstn 4 input) = true).
  { replace (firstn 4 input) with (firstn 4 (firstn 8 input))
      by (rewrite firstn_firstn; reflexivity).
    apply bytes_ok_firstn, Hok. }
  assert (Hok1 : bytes_ok (firstn 4 (skipn 4 input)) = true).
  { replace (firstn 4 (skipn 4 input)) with (skipn 4 (firstn 8 input))
      by (rewrite skipn_firstn_comm; reflexivity).
    apply bytes_ok_skipn, Hok. }
  assert (Hlen1 : (4 <= length (skipn 4 input))%nat) by (rewrite length_skipn; lia).
  pose proof (c2l_range input ltac:(lia) Hok0) as R0.
  pose proof (c2l_range (skipn 4 input) Hlen1 Hok1) as R1.
  unfold DES_ecb_encrypt at 2.
  pose proof (DES_encrypt1_range (c2l input) (c2l (skipn 4 input)) ks enc) as [Ra Rb].
  pose proof (DES_encrypt1_inverse (c2l input) (c2l (skipn 4 input)) ks enc enc'
                R0 R1 Henc) as Hinv.
  destruct (DES_encrypt1 (c2l input, c2l (skipn 4 input)) ks enc) as [a b].
  cbn [fst snd] in *. unfold DES_ecb_encrypt.
  rewrite <- app_assoc, c2l_l2c by exact Ra.
  replace (skipn 4 (l2c a ++ l2c b ++ rest)) with (l2c b ++ rest) by reflexivity.
  rewrite c2l_l2c by exact Rb. rewrite Hinv.
  rewrite l2c_c2l, l2c_c2l by (try assumption; lia).
  rewrite <- (firstn_skipn 4 (firstn 8 input)).
  rewrite firstn_firstn, skipn_firstn_comm. reflexivity.
Qed.

(** X3: for every S/P table of 32-bit entries and every key schedule,
    [DES_ecb_encrypt] with [DES_DECRYPT] on the output of [DES_ecb_encrypt]
    with [DES_ENCRYPT] gives back the 8 bytes read, and the other way
    round. *)
Theorem DES_decrypt_inverts_encrypt (input ks : list Z) :
  (8 <= length input)%nat -> bytes_ok (firstn 8 input) = true ->
  DES_ecb_encrypt (DES_ecb_encrypt input ks DES_ENCRYPT) ks DES_DECRYPT
  = firstn 8 input /\
  DES_ecb_encrypt (DES_ecb_encrypt input ks DES_DECRYPT) ks DES_ENCRYPT
  = firstn 8 input.
Proof.
  intros Hlen Hok. split.
  - rewrite <- (app_nil_r (DES_ecb_encrypt input ks DES_ENCRYPT)).
    apply DES_ecb_encrypt_inverse; [exact Hlen | exact Hok | reflexivity].
  - rewrite <- (app_nil_r (DES_ecb_encrypt input ks DES_DECRYPT)).
    apply DES_ecb_encrypt_inverse; [exact Hlen | exact Hok | reflexivity].
Qed.

(** ** Block chaining: a round trip *)

Lemma length_Xor (ivect data : list Z) (n : nat) :
  length (Xor ivect data n) = length data.
Proof.
  revert ivect data. induction n as [|n IH]; intros [|i iv] [|d ds];
    cbn [Xor length]; try reflexivity.
  rewrite IH. reflexivity.
Qed.

Lemma skipn_Xor (ivect data : list Z) (n : nat) :
  skipn n (Xor ivect data n) = skipn n data.
Proof.
  revert ivect data. induction n as [|n IH]; intros [|i iv] [|d ds];
    cbn [Xor skipn]; try reflexivity.
  apply IH.
Qed.

Lemma Xor_app (ivect a b : list Z) (n : nat) :
  length a = n -> Xor ivect (a ++ b) n = Xor ivect a n ++ b.
Proof.
  revert ivect a. induction n as [|n IH]; intros ivect a Ha.
  - destruct a; [|discriminate]. destruct ivect; reflexivity.
  - destruct a as [|x a]; [discriminate|]. destruct ivect as [|i iv]; [reflexivity|].
    cbn [app Xor]. rewrite IH by (cbn [length] in Ha; lia). reflexivity.
Qed.

Lemma Xor_involutive (ivect data : list Z) (n : nat) :
  Xor ivect (Xor ivect data n) n = data.
Proof.
  revert ivect data. induction n as [|n IH]; intros [|i iv] [|d ds];
    cbn [Xor]; try reflexivity.
  rewrite IH, Z.lxor_assoc, Z.lxor_nilpotent, Z.lxor_0_r. reflexivity.
Qed.

Lemma bytes_ok_Xor (ivect data : list Z) (n : nat) :
  bytes_ok (firstn n ivect) = true -> bytes_ok data = true ->
  bytes_ok (Xor ivect data n) = true.
Proof.
  revert ivect data. induction n as [|n IH]; intros [|i iv] [|d ds] Hi Hd;
    cbn [Xor]; try assumption.
  cbn [firstn bytes_ok forallb] in *.
  apply andb_true_iff in Hi. destruct Hi as [Hi1 Hi2].
  apply andb_true_iff in Hd. destruct Hd as [Hd1 Hd2].
  apply andb_true_iff. split.
  - apply is_byte_of_range. apply is_byte_range in Hi1, Hd1.
    exact (lxor_range 8 d i Hd1 Hi1).
  - apply IH; assumption.
Qed.

(** What the AES primitives are relied on for: on a 16-byte block they
    produce a 16-byte block, and decryption under the same user key gives
    the block back. *)
Hypothesis AES_contract : forall userKey input,
  length input = 16%nat -> bytes_ok input = true ->
  length (AES_encrypt input (AES_set_encrypt_key userKey (8 * 16))) = 16%nat /\
  bytes_ok (AES_encrypt input (AES_set_encrypt_key userKey (8 * 16))) = true /\
  AES_decrypt (AES_encrypt input (AES_set_encrypt_key userKey (8 * 16)))
              (AES_set_decrypt_key userKey (8 * 16)) = input.

(** [DES_ecb_encrypt] reads the first 8 bytes of its input only. *)
Lemma DES_ecb_encrypt_app (a b ks : list Z) (enc : Z) :
  length a = 8%nat -> DES_ecb_encrypt (a ++ b) ks enc = DES_ecb_encrypt a ks enc.
Proof.
  intros Ha.
  destruct a as [|a0 [|a1 [|a2 [|a3 [|a4 [|a5 [|a6 [|a7 [|]]]]]]]]]; try discriminate.
  reflexivity.
Qed.

Lemma block_size_cases (key : mifare_desfire_key) :
  (key_type key <> T_AES /\ KeyBlockSize key = 8) \/
  (key_type key = T_AES /\ KeyBlockSize key = 16).
Proof. unfold KeyBlockSize. destruct (key_type key); auto; left; split; congruence. Qed.

Lemma MifareCipherSingleBlock_eq (key : mifare_desfire_key) (data ivect : list Z)
  (direction : mifare_crypto_direction) (operation : mifare_crypto_operation) :
  let bs := Z.to_nat (KeyBlockSize key) in
  (bs <= length data)%nat ->
  MifareCipherSingleBlock key data ivect direction operation bs
  = let data1 := match direction with
                 | MCD_SEND => Xor ivect data bs
                 | MCD_RECEIVE => data
                 end in
    let data3 := firstn bs (block_cipher key operation data1) ++ skipn bs data in
    match direction with
    | MCD_SEND => (data3, memcpy ivect data3 bs)
    | MCD_RECEIVE => (Xor ivect data3 bs, memcpy ivect (firstn bs data) bs)
    end.
Proof.
  intros bs Hlen. unfold MifareCipherSingleBlock, block_cipher. fold bs.
  destruct (block_size_cases key) as [[Hty Hbs] | [Hty Hbs]];
    assert (Ebs : bs = Z.to_nat (KeyBlockSize key)) by reflexivity;
    rewrite Hbs in Ebs; clearbody bs; vm_compute in Ebs; subst bs; cbv zeta;
    set (data1 := match direction with
                  | MCD_SEND => Xor ivect data _
                  | MCD_RECEIVE => data
                  end);
    assert (Hskip : skipn _ data1 = skipn _ data)
      by (unfold data1; destruct direction; [apply skipn_Xor | reflexivity]);
    assert (Hlen1 : length data1 = length data)
      by (unfold data1; destruct direction; [apply length_Xor | reflexivity]).
  - assert (Hm : forall x ks enc, length x = 8%nat ->
              DES_ecb_encrypt (memcpy data1 x 8) ks enc = DES_ecb_encrypt x ks enc).
    { intros x ks enc Hx. unfold memcpy. rewrite firstn_all2 by lia.
      apply DES_ecb_encrypt_app, Hx. }
    assert (Hs : forall x y, length x = 8%nat ->
              memcpy (memcpy data1 x 8) y 8 = firstn 8 y ++ skipn 8 data).
    { intros x y Hx. unfold memcpy. rewrite (firstn_all2 x) by lia.
      rewrite skipn_app, skipn_all2 by lia. rewrite Hx. cbn [Nat.sub app].
      rewrite skipn_O, Hskip. reflexivity. }
    assert (Hs0 : forall y, memcpy data1 y 8 = firstn 8 y ++ skipn 8 data).
    { intros y. unfold memcpy. rewrite Hskip. reflexivity. }
    destruct (key_type key) eqn:Ety; try congruence; destruct operation;
      rewrite ?Hm by apply length_DES_ecb_encrypt;
      rewrite ?Hs by apply length_DES_ecb_encrypt; rewrite ?Hs0;
      destruct direction; reflexivity.
  - assert (Hs0 : forall y, memcpy data1 y 16 = firstn 16 y ++ skipn 16 data).
    { intros y. unfold memcpy. rewrite Hskip. reflexivity. }
    rewrite Hty. destruct operation; rewrite Hs0; destruct direction; reflexivity.
Qed.

Lemma DES_ecb_encrypt_inverse_nil (input ks : list Z) (enc enc' : Z) :
  (8 <= length input)%nat -> bytes_ok (firstn 8 input) = true ->
  (enc' =? 0) = negb (enc =? 0) ->
  DES_ecb_encrypt (DES_ecb_encrypt input ks enc) ks enc' = firstn 8 input.
Proof.
  intros Hlen Hok Henc.
  rewrite <- (app_nil_r (DES_ecb_encrypt input ks enc)).
  apply DES_ecb_encrypt_inverse; assumption.
Qed.

Lemma DES_ecb_encrypt_inverse_block (x ks : list Z) (enc enc' : Z) (tail : list Z) :
  length x = 8%nat -> bytes_ok x = true -> (enc' =? 0) = negb (enc =? 0) ->
  DES_ecb_encrypt (DES_ecb_encrypt x ks enc ++ tail) ks enc' = x.
Proof.
  intros Hlen Hok Henc.
  rewrite DES_ecb_encrypt_inverse by (rewrite ?firstn_all2 by lia; (assumption || lia)).
  apply firstn_all2. lia.
Qed.

Lemma DES_ecb_encrypt_inverse_block_nil (x ks : list Z) (enc enc' : Z) :
  length x = 8%nat -> bytes_ok x = true -> (enc' =? 0) = negb (enc =? 0) ->
  DES_ecb_encrypt (DES_ecb_encrypt x ks enc) ks enc' = x.
Proof.
  intros Hlen Hok Henc.
  rewrite <- (app_nil_r (DES_ecb_encrypt x ks enc)).
  apply DES_ecb_encrypt_inverse_block; assumption.
Qed.

(** Deciphering the block that enciphering produced gives back the bytes
    that were enciphered, for each of the four key types. *)
Lemma block_cipher_inverse (key : mifare_desfire_key) (data tail : list Z) :
  let bs := Z.to_nat (KeyBlockSize key) in
  (bs <= length data)%nat -> bytes_ok (firstn bs data) = true ->
  length (block_cipher key MCO_ENCIPHER data) = bs /\
  bytes_ok (block_cipher key MCO_ENCIPHER data) = true /\
  block_cipher key MCO_DECIPHER
    (firstn bs (block_cipher key MCO_ENCIPHER data) ++ tail) = firstn bs data.
Proof.
  intros bs Hlen Hok.
  assert (Hflag : (DES_DECRYPT =? 0) = negb (DES_ENCRYPT =? 0)) by reflexivity.
  assert (Hflag' : (DES_ENCRYPT =? 0) = negb (DES_DECRYPT =? 0)) by reflexivity.
  pose proof length_DES_ecb_encrypt as L.
  pose proof bytes_ok_DES_ecb_encrypt as B.
  destruct (block_size_cases key) as [[Hty Hbs] | [Hty Hbs]];
    assert (Ebs : bs = Z.to_nat (KeyBlockSize key)) by reflexivity;
    rewrite Hbs in Ebs; clearbody bs; vm_compute in Ebs; subst bs.
  - unfold block_cipher.
    destruct (key_type key) eqn:Ety; try congruence;
      (split; [apply L | split; [apply B|]]);
      rewrite (firstn_all2 (DES_ecb_encrypt _ _ _)) by (rewrite L; lia).
    + apply DES_ecb_encrypt_inverse; assumption.
    + rewrite DES_ecb_encrypt_inverse_block by (try apply L; try apply B; assumption).
      rewrite DES_ecb_encrypt_inverse_block_nil
        by (try apply L; try apply B; assumption).
      apply DES_ecb_encrypt_inverse_nil; assumption.
    + rewrite DES_ecb_encrypt_inverse_block by (try apply L; try apply B; assumption).
      rewrite DES_ecb_encrypt_inverse_block_nil
        by (try apply L; try apply B; assumption).
      apply DES_ecb_encrypt_inverse_nil; assumption.
  - unfold block_cipher. rewrite Hty.
    assert (Hl16 : length (firstn 16 data) = 16%nat) by (rewrite length_firstn; lia).
    destruct (AES_contract (key_data key) (firstn 16 data) Hl16 Hok) as (A1 & A2 & A3).
    split; [exact A1 | split; [exact A2|]].
    rewrite firstn_app, (firstn_all2 (AES_encrypt _ _)) by lia.
    rewrite A1, Nat.sub_diag, firstn_O, app_nil_r.
    rewrite (firstn_all2 (AES_encrypt _ _)) by lia. exact A3.
Qed.

Lemma bytes_ok_firstn_Xor (ivect data : list Z) (n : nat) :
  bytes_ok (firstn n ivect) = true -> bytes_ok (firstn n data) = true ->
  bytes_ok (firstn n (Xor ivect data n)) = true.
Proof.
  revert ivect data. induction n as [|n IH]; intros [|i iv] [|d ds] Hi Hd;
    cbn [Xor]; try assumption; try reflexivity.
  cbn [firstn bytes_ok forallb] in *.
  apply andb_true_iff in Hi. destruct Hi as [Hi1 Hi2].
  apply andb_true_iff in Hd. destruct Hd as [Hd1 Hd2].
  apply andb_true_iff. split.
  - apply is_byte_of_range. apply is_byte_range in Hi1, Hd1.
    exact (lxor_range 8 d i Hd1 Hi1).
  - apply IH; assumption.
Qed.

Lemma Xor_firstn_Xor (ivect data : list Z) (n : nat) :
  Xor ivect (firstn n (Xor ivect data n)) n = firstn n data.
Proof.
  revert ivect data. induction n as [|n IH]; intros [|i iv] [|d ds];
    cbn [Xor firstn]; try reflexivity.
  rewrite IH, Z.lxor_assoc, Z.lxor_nilpotent, Z.lxor_0_r. reflexivity.
Qed.

Lemma skipn_app_exact (P view : list Z) (n : nat) :
  length P = n -> skipn n (P ++ view) = view.
Proof.
  intros H. rewrite skipn_app, skipn_all2, H, Nat.sub_diag by lia. reflexivity.
Qed.

Lemma firstn_app_exact (P view : list Z) (n : nat) :
  length P = n -> firstn n (P ++ view) = P.
Proof.
  intros H. rewrite firstn_app, firstn_all2, H, Nat.sub_diag, firstn_O, app_nil_r by lia.
  reflexivity.
Qed.

Lemma KeyBlockSize_pos (key : mifare_desfire_key) : 8 <= KeyBlockSize key <= 16.
Proof. unfold KeyBlockSize. destruct (key_type key); lia. Qed.

(** The loop of [MifareCipherBlocksChained], run to encipher for sending
    and then, from the same IV, to decipher what was received. *)
Lemma cipher_blocks_roundtrip (key : mifare_desfire_key) (ds : Z) :
  ds < 2 ^ size_bits ->
  forall (fuel : nat) (P view iv : list Z),
  Z.of_nat (length P) <= ds ->
  (ds - Z.of_nat (length P)) mod KeyBlockSize key = 0 ->
  ds - Z.of_nat (length P) <= Z.of_nat (length view) ->
  bytes_ok (firstn (Z.to_nat (ds - Z.of_nat (length P))) view) = true ->
  (Z.to_nat (KeyBlockSize key) <= length iv)%nat ->
  bytes_ok (firstn (Z.to_nat (KeyBlockSize key)) iv) = true ->
  exists c iv1,
    cipher_blocks fuel key (P ++ view) iv (Z.of_nat (length P)) ds
      MCD_SEND MCO_ENCIPHER (KeyBlockSize key) = (P ++ c, iv1) /\
    forall P', length P' = length P ->
      cipher_blocks fuel key (P' ++ c) iv (Z.of_nat (length P)) ds
        MCD_RECEIVE MCO_DECIPHER (KeyBlockSize key) = (P' ++ view, iv1).
Proof.
  intros Hds. pose proof (KeyBlockSize_pos key) as Hbs.
  set (bsZ := KeyBlockSize key) in *. set (bs := Z.to_nat bsZ).
  induction fuel as [|fuel IH]; intros P view iv Hoff Hmod Hview Hok Hiv Hivok.
  - exists view, iv. split; [reflexivity|]. intros P' HP'. reflexivity.
  - cbn [cipher_blocks].
    destruct (Z.of_nat (length P) <? ds) eqn:Elt.
    2:{ exists view, iv. split; [reflexivity|]. intros P' HP'. reflexivity. }
    apply Z.ltb_lt in Elt.
    assert (Hge : bsZ <= ds - Z.of_nat (length P)).
    { pose proof (Z.div_mod (ds - Z.of_nat (length P)) bsZ ltac:(lia)) as D.
      rewrite Hmod in D.
      assert (0 < (ds - Z.of_nat (length P)) / bsZ) by nia. nia. }
    assert (Hlenv : (bs <= length view)%nat) by (unfold bs; lia).
    rewrite Nat2Z.id, skipn_app_exact by reflexivity.
    fold bs. unfold bs at 1, bsZ at 1.
    rewrite MifareCipherSingleBlock_eq by (fold bsZ; fold bs; exact Hlenv).
    fold bsZ. fold bs. cbv zeta.
    assert (Hok1 : bytes_ok (firstn bs view) = true).
    { replace (firstn bs view)
        with (firstn bs (firstn (Z.to_nat (ds - Z.of_nat (length P))) view))
        by (rewrite firstn_firstn; f_equal; unfold bs; lia).
      apply bytes_ok_firstn, Hok. }
    pose proof (block_cipher_inverse key (Xor iv view bs)) as Hinv.
    fold bsZ in Hinv. fold bs in Hinv. cbv zeta in Hinv.
    assert (HlenX : (bs <= length (Xor iv view bs))%nat) by (rewrite length_Xor; exact Hlenv).
    assert (HokX : bytes_ok (firstn bs (Xor iv view bs)) = true)
      by (apply bytes_ok_firstn_Xor; assumption).
    set (E := firstn bs (block_cipher key MCO_ENCIPHER (Xor iv view bs))).
    assert (HE : length E = bs).
    { destruct (Hinv [] HlenX HokX) as (A1 & _ & _).
      unfold E. rewrite length_firstn. lia. }
    assert (HEok : bytes_ok E = true).
    { destruct (Hinv [] HlenX HokX) as (_ & A2 & _).
      unfold E. apply bytes_ok_firstn, A2. }
    unfold store_at. rewrite firstn_app_exact by reflexivity.
    rewrite to_size_t_small by lia.
    replace (memcpy iv (E ++ skipn bs view) bs) with (E ++ skipn bs iv)
      by (unfold memcpy; rewrite firstn_app_exact by exact HE; reflexivity).
    rewrite (app_assoc P E).
    replace (Z.of_nat (length P) + bsZ) with (Z.of_nat (length (P ++ E)))
      by (rewrite length_app, HE; unfold bs; lia).
    destruct (IH (P ++ E) (skipn bs view) (E ++ skipn bs iv)) as (c1 & iv1 & Hs & Hr).
    + rewrite length_app, HE. unfold bs. lia.
    + rewrite length_app, HE.
      replace (ds - Z.of_nat (length P + bs)) with (ds - Z.of_nat (length P) - 1 * bsZ)
        by (unfold bs; lia).
      rewrite <- Zminus_mod_idemp_r, Z.mod_mul by lia.
      rewrite Z.sub_0_r. exact Hmod.
    + rewrite length_app, HE, length_skipn. unfold bs. lia.
    + rewrite length_app, HE.
      rewrite firstn_skipn_comm.
      replace (bs + Z.to_nat (ds - Z.of_nat (length P + bs)))%nat
        with (Z.to_nat (ds - Z.of_nat (length P))) by (unfold bs; lia).
      apply bytes_ok_skipn, Hok.
    + rewrite length_app, HE. fold bs. lia.
    + fold bs. rewrite firstn_app_exact by exact HE. exact HEok.
    + exists (E ++ c1), iv1. split.
      * rewrite Hs, <- app_assoc. reflexivity.
      * intros P' HP'.
        rewrite skipn_app_exact by exact HP'.
        rewrite firstn_app_exact by exact HP'.
        pose proof (MifareCipherSingleBlock_eq key (E ++ c1) iv
                      MCD_RECEIVE MCO_DECIPHER) as HR.
        cbv zeta in HR. fold bsZ in HR. fold bs in HR.
        rewrite HR by (rewrite length_app; lia). clear HR.
        destruct (Hinv c1 HlenX HokX) as (_ & _ & A3). fold E in A3.
        rewrite firstn_app_exact by exact HE.
        rewrite skipn_app_exact by exact HE.
        rewrite A3.
        rewrite firstn_all2 by (rewrite length_firstn, length_Xor; lia).
        rewrite Xor_app by (rewrite length_firstn, length_Xor; lia).
        rewrite Xor_firstn_Xor.
        replace (memcpy iv E bs) with (E ++ skipn bs iv)
          by (unfold memcpy; rewrite firstn_all2 by lia; reflexivity).
        rewrite (app_assoc P' (firstn bs view)).
        rewrite Hr.
        -- rewrite <- app_assoc, firstn_skipn. reflexivity.
        -- rewrite !length_app, HE, length_firstn, HP'. lia.
Qed.

(** The loop of [MifareCipherBlocksChained] ends on its own condition: once
    the fuel covers the bytes left, more fuel changes nothing. *)
Lemma cipher_blocks_fuel (key : mifare_desfire_key) (ds bs : Z)
  (direction : mifare_crypto_direction) (operation : mifare_crypto_operation) :
  0 < bs -> ds + bs <= 2 ^ size_bits ->
  forall (fuel : nat) (data iv : list Z) (offset : Z),
  0 <= offset -> (Z.to_nat (ds - offset) <= fuel)%nat ->
  cipher_blocks (S fuel) key data iv offset ds direction operation bs
  = cipher_blocks fuel key data iv offset ds direction operation bs.
Proof.
  intros Hbs Hds. induction fuel as [|fuel IH]; intros data iv offset Hoff Hfuel.
  - cbn [cipher_blocks].
    replace (offset <? ds) with false by (symmetry; apply Z.ltb_ge; lia).
    reflexivity.
  - remember (S fuel) as f eqn:Ef. cbn [cipher_blocks]. subst f.
    cbn [cipher_blocks].
    destruct (offset <? ds) eqn:E; [|reflexivity].
    apply Z.ltb_lt in E.
    destruct (MifareCipherSingleBlock key (skipn (Z.to_nat offset) data) iv
                direction operation (Z.to_nat bs)) as [block iv'].
    rewrite to_size_t_small by lia.
    rewrite <- IH by lia. reflexivity.
Qed.

(** C1: for a key of any of the four algorithms, a buffer of bytes whose
    length is a multiple of the key's block size, enciphered for sending by
    [MifareCipherBlocksChained] under an IV and then deciphered as received
    under a copy of that same IV, is the original buffer; the two runs also
    leave the same IV behind. *)
Theorem cipher_chained_roundtrip (key : mifare_desfire_key)
  (ivect data : list Z) :
  Z.of_nat (length data) mod KeyBlockSize key = 0 ->
  Z.of_nat (length data) < 2 ^ size_bits ->
  bytes_ok data = true ->
  (Z.to_nat (KeyBlockSize key) <= length ivect)%nat ->
  bytes_ok ivect = true ->
  let data_size := Z.of_nat (length data) in
  let sent :=
    MifareCipherBlocksChained None (Some key) (IV_buf ivect) data data_size
      MCD_SEND MCO_ENCIPHER in
  let received :=
    MifareCipherBlocksChained None (Some key) (IV_buf ivect) (cbc_data sent)
      data_size MCD_RECEIVE MCO_DECIPHER in
  cbc_data received = data /\ cbc_ivect received = cbc_ivect sent.
Proof.
  intros Hmod Hsize Hok Hiv Hivok data_size sent received.
  destruct (cipher_blocks_roundtrip key data_size Hsize
              (Z.to_nat data_size) [] data ivect) as (c & iv1 & Hs & Hr).
  - cbn [length]. unfold data_size. lia.
  - cbn [length]. rewrite Z.sub_0_r. exact Hmod.
  - cbn [length]. unfold data_size. lia.
  - cbn [length]. apply bytes_ok_firstn, Hok.
  - exact Hiv.
  - apply bytes_ok_firstn, Hivok.
  - cbn [length app] in Hs. specialize (Hr [] eq_refl). cbn [length app] in Hr.
    change (Z.of_nat 0) with 0 in Hs, Hr.
    unfold received, sent, MifareCipherBlocksChained, cipher_chain.
    rewrite Hs. cbn [cbc_data]. rewrite Hr. cbn [cbc_data cbc_ivect].
    split; reflexivity.
Qed.

(** ** Authentication *)

(** A call on the tag with the caller's key and [tag->ivect] changes the
    tag's IV only: it starts from zero in the legacy scheme and from the
    tag's IV in the new one. *)
Lemma cipher_with_tag_key_eq (tag : mifare_tag) (key : mifare_desfire_key)
  (data : list Z) (data_size : Z) (direction : mifare_crypto_direction)
  (operation : mifare_crypto_operation) :
  let iv0 := match tag_authentication_scheme tag with
             | AS_LEGACY => memset (tag_ivect tag) 0 (Z.to_nat MAX_CRYPTO_BLOCK_SIZE)
             | AS_NEW => tag_ivect tag
             end in
  let r := cipher_chain key iv0 data data_size direction operation in
  cipher_with_tag_key tag key data data_size direction operation
  = (set_tag_ivect tag (snd r), fst r).
Proof.
  cbv zeta. unfold cipher_with_tag_key, MifareCipherBlocksChained.
  destruct (cipher_chain key _ data data_size direction operation) as [d iv].
  reflexivity.
Qed.

Lemma auth_exchange_tag (tag : mifare_tag) (cmd key_no : Z)
  (key : mifare_desfire_key) (rnd : list Z) (w : mf_io) :
  let t := auth_tag (auth_exchange tag cmd key_no key rnd w) in
  tag_authenticated_key_no t = NOT_YET_AUTHENTICATED /\
  tag_session_key t = tag_session_key tag /\
  tag_authentication_scheme t
  = (if MF_AUTHENTICATE_LEGACY =? cmd then AS_LEGACY else AS_NEW).
Proof.
  cbv zeta. unfold auth_exchange.
  repeat match goal with
  | |- context [MifareCommTCL ?b ?s ?w] =>
      destruct (MifareCommTCL b s w) as [? ?]
  | |- context [cipher_with_tag_key ?t ?k ?d ?s ?dir ?op] =>
      rewrite (cipher_with_tag_key_eq t k d s dir op); cbv zeta
  end.
  cbn [auth_tag set_tag_ivect set_tag_authenticated_key_no
       set_tag_authentication_scheme tag_authenticated_key_no tag_session_key
       tag_authentication_scheme].
  repeat split; reflexivity.
Qed.

(** C3: in every run of [Authenticate] on an active tag in which the
    deciphered RndA' of the card differs from the engine's own rotation of
    RndA over the [key_length] bytes compared, [Authenticate] returns FAIL,
    [authenticated_key_no] is NOT_YET_AUTHENTICATED, and the session key of
    the tag, CMAC subkeys included, is the one it had before the call.  The
    runs are those inside the arrays of the source: the link satisfies
    [link_fits], [RAND_bytes] delivers its 16 bytes, and the challenge has
    from 1 to 16 bytes. *)
Theorem authenticate_mismatch_fails (tag : mifare_tag) (cmd key_no : Z)
  (key : mifare_desfire_key) (rnd : list Z) (w : mf_io) :
  tag_active tag <> 0 ->
  link_fits w -> length rnd = 16%nat ->
  0 < auth_key_length (auth_exchange tag cmd key_no key rnd w) <= 16 ->
  memeq (auth_PCD_r_RndA (auth_exchange tag cmd key_no key rnd w))
        (auth_PICC_r_RndA (auth_exchange tag cmd key_no key rnd w))
        (Z.to_nat (auth_key_length (auth_exchange tag cmd key_no key rnd w)))
  = false ->
  let '(status, tag', _) := Authenticate tag cmd key_no key rnd w in
  status = FAIL /\
  tag_authenticated_key_no tag' = NOT_YET_AUTHENTICATED /\
  tag_session_key tag' = tag_session_key tag /\
  key_cmac_sk1 (tag_session_key tag') = key_cmac_sk1 (tag_session_key tag) /\
  key_cmac_sk2 (tag_session_key tag') = key_cmac_sk2 (tag_session_key tag).
Proof.
  intros Hactive _ _ _ Hneq. unfold Authenticate.
  replace (tag_active tag =? 0) with false by (symmetry; apply Z.eqb_neq; exact Hactive).
  rewrite Hneq. cbn [negb].
  destruct (auth_exchange_tag tag cmd key_no key rnd w) as (H1 & H2 & _).
  rewrite H2. repeat split; assumption.
Qed.

Lemma firstn_memcpy (dst src : list Z) (n : nat) :
  (n <= length src)%nat -> firstn n (memcpy dst src n) = firstn n src.
Proof.
  intros H. unfold memcpy. apply firstn_app_exact. rewrite length_firstn. lia.
Qed.

Lemma firstn_memcpy_at (X Y : list Z) (n : nat) :
  (n <= length X)%nat -> (n <= length Y)%nat ->
  firstn (n + n) (memcpy_at X n Y n) = firstn n X ++ firstn n Y.
Proof.
  intros HX HY. unfold memcpy_at, store_at, memcpy.
  rewrite firstn_app, length_firstn, (firstn_all2 (firstn n X))
    by (rewrite length_firstn; lia).
  replace (n + n - Nat.min n (length X))%nat with n by lia.
  rewrite firstn_app_exact by (rewrite length_firstn; lia). reflexivity.
Qed.

Lemma firstn_Rol (x : list Z) (len : Z) :
  0 <= len -> (Z.to_nat len <= length x)%nat ->
  firstn (Z.to_nat len) (Rol x len) = Rol (firstn (Z.to_nat len) x) len.
Proof.
  intros H0 Hlen. destruct x as [|first rest].
  - rewrite !firstn_nil. reflexivity.
  - destruct (Z.eq_dec len 0) as [->|Hne]; [reflexivity|].
    assert (E : Z.to_nat len = S (Z.to_nat (len - 1))) by lia.
    rewrite E in *. rewrite firstn_cons. unfold Rol.
    set (m := Z.to_nat (len - 1)) in *. cbn [length] in Hlen.
    assert (Hm : length (firstn m rest) = m) by (rewrite length_firstn; lia).
    rewrite firstn_firstn, Nat.min_id.
    rewrite (skipn_all2 (first :: firstn m rest)) by (cbn [length]; lia).
    replace (S m) with (m + 1)%nat at 1 by lia.
    rewrite firstn_app, Hm, (firstn_all2 (firstn m rest)) by lia.
    replace (m + 1 - m)%nat with 1%nat by lia. reflexivity.
Qed.

(** C4 (as amended): in step 3 the token is RndA followed by RndB rotated
    left by one byte, and it is transformed by the chained CBC in the send
    direction: enciphered, from the IV that deciphering the challenge left
    in the tag, in the new generation; deciphered, from an IV reset to
    zero, in the legacy generation.  The runs are those inside the arrays
    of the source: the link satisfies [link_fits], [RAND_bytes] delivers its
    16 bytes, and the challenge has from 1 to 16 bytes. *)
Theorem authenticate_token (tag : mifare_tag) (cmd key_no : Z)
  (key : mifare_desfire_key) (rnd : list Z) (w : mf_io) :
  let a := auth_exchange tag cmd key_no key rnd w in
  let n := Z.to_nat (auth_key_length a) in
  link_fits w ->
  0 < auth_key_length a <= 16 -> length rnd = 16%nat ->
  (n <= length (auth_PICC_RndB a))%nat ->
  firstn (n + n) (auth_token_plain a)
  = firstn n rnd ++ firstn n (Rol (auth_PICC_RndB a) (auth_key_length a)) /\
  auth_token a
  = fst (if MF_AUTHENTICATE_LEGACY =? cmd
         then cipher_chain key
                (memset (auth_iv_step2 a) 0 (Z.to_nat MAX_CRYPTO_BLOCK_SIZE))
                (auth_token_plain a) (to_size_t (2 * auth_key_length a))
                MCD_SEND MCO_DECIPHER
         else cipher_chain key (auth_iv_step2 a)
                (auth_token_plain a) (to_size_t (2 * auth_key_length a))
                MCD_SEND MCO_ENCIPHER).
Proof.
  cbv zeta. unfold auth_exchange.
  repeat match goal with
  | |- context [MifareCommTCL ?b ?s ?w] =>
      destruct (MifareCommTCL b s w) as [? ?]
  | |- context [cipher_with_tag_key ?t ?k ?d ?s ?dir ?op] =>
      rewrite (cipher_with_tag_key_eq t k d s dir op); cbv zeta
  end.
  cbn [auth_key_length auth_PICC_RndB auth_token_plain auth_token auth_iv_step2
       set_tag_ivect tag_ivect tag_authentication_scheme
       set_tag_authenticated_key_no set_tag_authentication_scheme].
  match goal with
  | |- context [to_size_t (MF_RXLEN ?m - 1)] => set (kl := to_size_t (MF_RXLEN m - 1))
  end.
  match goal with
  | |- context [Rol (memcpy ?l (fst ?c) ?k) kl] => set (RndB := fst c)
  end.
  set (local16 := map uninit (zrange 0 16)).
  assert (Hl16 : length local16 = 16%nat)
    by (unfold local16, zrange; rewrite !length_map, length_seq; reflexivity).
  assert (Hl32 : length (map uninit (zrange 0 32)) = 32%nat)
    by (unfold zrange; rewrite !length_map, length_seq; reflexivity).
  intros _ Hn Hrnd HB. split.
  - assert (HA : memcpy local16 rnd 16 = rnd).
    { unfold memcpy. rewrite firstn_all2, skipn_all2, app_nil_r by lia. reflexivity. }
    rewrite HA.
    assert (Hc : length (memcpy local16 RndB (Z.to_nat kl)) = 16%nat)
      by (rewrite length_memcpy; lia).
    rewrite firstn_memcpy_at.
    + rewrite !firstn_memcpy by lia. f_equal.
      rewrite !firstn_Rol by lia. rewrite firstn_memcpy by lia. reflexivity.
    + rewrite length_memcpy; lia.
    + destruct (memcpy local16 RndB (Z.to_nat kl)) as [|first rest] eqn:E;
        [cbn [length] in Hc; lia|].
      unfold Rol. rewrite length_app, length_firstn. cbn [length].
      rewrite length_skipn. cbn [length] in *. lia.
  - destruct (MF_AUTHENTICATE_LEGACY =? cmd); reflexivity.
Qed.

(** ** Preparing an enciphered command *)

Lemma crc16_append_layout (payload spare : list Z) :
  payload <> [] -> (2 <= length spare)%nat ->
  Z.of_nat (length payload) < 2 ^ size_bits ->
  exists crc,
    MifareCrc16 payload (Z.of_nat (length payload)) = Some crc /\
    length crc = 2%nat /\
    MifareCrc16Append (payload ++ spare) (Z.of_nat (length payload))
    = Some (payload ++ crc ++ skipn 2 spare).
Proof.
  intros Hne Hs Hlen. unfold MifareCrc16Append, MifareCrc16.
  rewrite crc16_loop_app by assumption.
  pose proof (crc16_loop_app payload [] 0x6363 Hne Hlen) as H0.
  rewrite app_nil_r in H0. rewrite H0.
  eexists. split; [reflexivity|]. split; [reflexivity|].
  rewrite Nat2Z.id, memcpy_at_app by (cbn [length]; lia). reflexivity.
Qed.

Lemma crc32_append_layout (payload spare : list Z) :
  (4 <= length spare)%nat ->
  Z.of_nat (length payload) < 2 ^ size_bits ->
  exists crc,
    MifareCrc32 payload (Z.of_nat (length payload)) = Some crc /\
    length crc = 4%nat /\
    MifareCrc32Append (payload ++ spare) (Z.of_nat (length payload))
    = Some (payload ++ crc ++ skipn 4 spare).
Proof.
  intros Hs Hlen. unfold MifareCrc32Append, MifareCrc32.
  rewrite crc32_loop_app by assumption.
  pose proof (crc32_loop_app payload [] 0xFFFFFFFF Hlen) as H0.
  rewrite app_nil_r in H0. rewrite H0.
  eexists. split; [reflexivity|]. split; [reflexivity|].
  rewrite Nat2Z.id, memcpy_at_app by (cbn [length]; lia). reflexivity.
Qed.

Lemma firstn_split_at (l : list Z) (o m : nat) :
  firstn (o + m) l = firstn o l ++ firstn m (skipn o l).
Proof.
  revert l. induction o as [|o IH]; intros l; [reflexivity|].
  destruct l as [|x l]; cbn [Nat.add firstn skipn app].
  - rewrite firstn_nil. reflexivity.
  - rewrite IH. reflexivity.
Qed.


(** C2 (as amended): in the enciphered mode with [ENC_COMMAND] set and
    [NO_CRC] clear, on a payload that in the legacy scheme is not empty,
    [MifareCryptoPreprocessData] returns the crypto buffer holding the
    header in clear followed by the chained cipher's output over the payload,
    its checksum and zero bytes up to a positive multiple of the session
    key's block size.  The checksum is the CRC16 of the payload alone in the
    legacy scheme and the CRC32 of header and payload in the new scheme; the
    cipher runs in the send direction from the tag's IV (zeroed first in the
    legacy scheme), deciphering in the legacy scheme and enciphering in the
    new one; the length returned is the header plus the padded region. *)
Theorem preprocess_enciphered_layout (tag : mifare_tag) (data : list Z)
  (nbytes offset communication_settings : Z) :
  Z.land communication_settings MDCM_MASK = MDCM_ENCIPHERED ->
  flag_set communication_settings ENC_COMMAND = true ->
  flag_set communication_settings NO_CRC = false ->
  0 <= offset <= nbytes ->
  (tag_authentication_scheme tag = AS_LEGACY -> offset < nbytes) ->
  nbytes <= Z.of_nat (length data) ->
  nbytes + 4 + 16 < 2 ^ size_bits ->
  offset + enciphered_region_length tag nbytes offset
    <= Z.of_nat (length (tag_crypto_buffer tag)) ->
  let key := tag_session_key tag in
  let region_length := enciphered_region_length tag nbytes offset in
  let header := firstn (Z.to_nat offset) data in
  let payload := firstn (Z.to_nat (nbytes - offset)) (skipn (Z.to_nat offset) data) in
  exists crc tag',
    match tag_authentication_scheme tag with
    | AS_LEGACY => MifareCrc16 payload (nbytes - offset)
    | AS_NEW => MifareCrc32 (header ++ payload) nbytes
    end = Some crc /\
    (exists k, 0 < k /\ region_length = k * KeyBlockSize key) /\
    MifareCryptoPreprocessData tag data nbytes offset communication_settings
    = Some (R_crypto_buffer, offset + region_length, tag') /\
    let zeros :=
      repeat 0 (Z.to_nat (region_length
                          - (nbytes - offset + enciphered_crc_length tag))) in
    let rest :=
      skipn (Z.to_nat (offset + region_length)) (tag_crypto_buffer tag) in
    let enciphered :=
      match tag_authentication_scheme tag with
      | AS_LEGACY =>
          cipher_chain key (memset (tag_ivect tag) 0 16)
            (payload ++ crc ++ zeros ++ rest) region_length MCD_SEND MCO_DECIPHER
      | AS_NEW =>
          cipher_chain key (tag_ivect tag)
            (payload ++ crc ++ zeros ++ rest) region_length MCD_SEND MCO_ENCIPHER
      end in
    tag_crypto_buffer tag' = header ++ fst enciphered /\
    tag_ivect tag' = snd enciphered.
Proof.
  intros Hmode Henc Hcrc Hoff Hleg Hdata Hfit Hbuf key region_length header payload.
  set (c := enciphered_crc_length tag) in *.
  assert (Hc : 2 <= c <= 4)
    by (unfold c, enciphered_crc_length; destruct (tag_authentication_scheme tag); lia).
  pose proof (KeyBlockSize_pos key) as Hbs.
  destruct (padded_length_fits (nbytes - offset + c) (KeyBlockSize key))
    as (Hk & Hge & Hlt & _); [lia | lia | lia |].
  fold key in Hk, Hge, Hlt. 
  change (PaddedDataLength (nbytes - offset + c) (KeyBlockSize key))
    with region_length in Hk, Hge, Hlt.
  specialize (Hlt ltac:(lia)).
  assert (Hheader : length header = Z.to_nat offset)
    by (unfold header; rewrite length_firstn; lia).
  assert (Hpayload : length payload = Z.to_nat (nbytes - offset))
    by (unfold payload; rewrite length_firstn, length_skipn; lia).
  assert (Hsplit : firstn (Z.to_nat nbytes) data = header ++ payload).
  { replace (Z.to_nat nbytes) with (Z.to_nat offset + Z.to_nat (nbytes - offset))%nat
      by lia.
    apply firstn_split_at. }
  set (cb := tag_crypto_buffer tag) in *.
  set (spare := skipn (Z.to_nat nbytes) cb).
  assert (Hspare : Z.of_nat (length spare) = Z.of_nat (length cb) - nbytes)
    by (unfold spare; rewrite length_skipn; lia).
  assert (Hres0 : memcpy cb data (Z.to_nat nbytes) = header ++ payload ++ spare)
    by (unfold memcpy; rewrite Hsplit, <- app_assoc; reflexivity).
  (* the checksum *)
  assert (Hcrcs : exists crc,
    match tag_authentication_scheme tag with
    | AS_LEGACY => MifareCrc16 payload (nbytes - offset)
    | AS_NEW => MifareCrc32 (header ++ payload) nbytes
    end = Some crc /\
    Z.of_nat (length crc) = c /\
    match tag_authentication_scheme tag with
    | AS_LEGACY =>
        match MifareCrc16Append (skipn (Z.to_nat offset) (header ++ payload ++ spare))
                (to_size_t (nbytes - offset)) with
        | None => None
        | Some view =>
            Some (store_at (header ++ payload ++ spare) (Z.to_nat offset) view,
                  to_size_t (nbytes + 2))
        end
    | AS_NEW =>
        match MifareCrc32Append (header ++ payload ++ spare) nbytes with
        | None => None
        | Some res => Some (res, to_size_t (nbytes + 4))
        end
    end = Some (header ++ payload ++ crc ++ skipn (Z.to_nat c) spare, nbytes + c)).
  { unfold c, enciphered_crc_length in *.
    destruct (tag_authentication_scheme tag) eqn:Es.
    - specialize (Hleg eq_refl).
      destruct (crc16_append_layout payload spare) as (crc & H1 & H2 & H3);
        [destruct payload; [cbn [length] in Hpayload; lia | congruence] | lia | lia |].
      exists crc.
      replace (Z.of_nat (length payload)) with (nbytes - offset) in H1, H3 by lia.
      rewrite H1, H2. split; [reflexivity|]. split; [reflexivity|].
      rewrite (skipn_app_exact header _ _ Hheader).
      rewrite !to_size_t_small by lia. rewrite H3.
      unfold store_at. rewrite (firstn_app_exact header _ _ Hheader). reflexivity.
    - destruct (crc32_append_layout (header ++ payload) spare) as (crc & H1 & H2 & H3);
        [lia | rewrite length_app; lia |].
      exists crc.
      replace (Z.of_nat (length (header ++ payload))) with nbytes in H1, H3
        by (rewrite length_app; lia).
      rewrite H1, H2. split; [reflexivity|]. split; [reflexivity|].
      rewrite <- app_assoc in H3. rewrite H3.
      rewrite !to_size_t_small by lia. rewrite <- ?app_assoc. reflexivity. }
  destruct Hcrcs as (crc & Hcrc1 & Hcrclen & Hcrc2).
  exists crc.
  assert (Hedl : to_size_t (EncipheredDataLength tag (to_size_t (nbytes - offset))
                              communication_settings + offset)
                 = offset + region_length).
  { unfold EncipheredDataLength. rewrite Hcrc.
    rewrite (to_size_t_small (nbytes - offset)) by lia.
    change (match tag_authentication_scheme tag with AS_LEGACY => 2 | AS_NEW => 4 end)
      with c.
    rewrite (to_size_t_small (nbytes - offset + c)) by lia.
    change (PaddedDataLength (nbytes - offset + c) (KeyBlockSize (tag_session_key tag)))
      with region_length.
    rewrite to_size_t_small by lia. lia. }
  set (zeros := repeat 0 (Z.to_nat (region_length - (nbytes - offset + c)))).
  set (rest := skipn (Z.to_nat (offset + region_length)) cb).
  set (padded := header ++ payload ++ crc ++ zeros ++ rest).
  assert (Hpad :
    store_at (header ++ payload ++ crc ++ skipn (Z.to_nat c) spare)
      (Z.to_nat (nbytes + c))
      (memset (skipn (Z.to_nat (nbytes + c))
                 (header ++ payload ++ crc ++ skipn (Z.to_nat c) spare)) 0
         (Z.to_nat (offset + region_length - (nbytes + c))))
    = padded).
  { assert (Hl : length (header ++ payload ++ crc) = Z.to_nat (nbytes + c))
      by (rewrite !length_app; lia).
    replace (header ++ payload ++ crc ++ skipn (Z.to_nat c) spare)
      with ((header ++ payload ++ crc) ++ skipn (Z.to_nat c) spare)
      by (rewrite <- !app_assoc; reflexivity).
    unfold store_at, memset.
    rewrite (firstn_app_exact _ _ _ Hl), (skipn_app_exact _ _ _ Hl).
    unfold padded, zeros, rest, spare. rewrite !skipn_skipn, <- !app_assoc.
    replace (Z.to_nat (offset + region_length - (nbytes + c)))
      with (Z.to_nat (region_length - (nbytes - offset + c))) by lia.
    replace (Z.to_nat (region_length - (nbytes - offset + c)) + Z.to_nat c
             + Z.to_nat nbytes)%nat
      with (Z.to_nat (offset + region_length)) by lia.
    reflexivity. }
  unfold MifareCryptoPreprocessData, preprocess_enciphered.
  rewrite Hmode, Henc, Hcrc, Hedl. cbn [negb Z.eqb MDCM_ENCIPHERED MDCM_PLAIN MDCM_MACED].
  fold cb. rewrite Hres0, Hcrc2, Hpad.
  replace (to_size_t (offset + region_length - offset)) with region_length
    by (rewrite to_size_t_small by lia; lia).
  assert (Hview : skipn (Z.to_nat offset) padded = payload ++ crc ++ zeros ++ rest)
    by (apply skipn_app_exact; exact Hheader).
  assert (Hhead : firstn (Z.to_nat offset) padded = header)
    by (apply firstn_app_exact; exact Hheader).
  rewrite Hview. unfold cipher_with_tag, MifareCipherBlocksChained.
  fold key. change (Z.to_nat MAX_CRYPTO_BLOCK_SIZE) with 16%nat.
  destruct (tag_authentication_scheme tag);
    match goal with
    | |- context [cipher_chain ?k ?iv ?d ?n ?dir ?op] =>
        destruct (cipher_chain k iv d n dir op) as [out iv'] eqn:Echain
    end;
    cbn [cbc_tag cbc_data fst snd];
    (eexists; split; [exact Hcrc1|]; split; [exact Hk|]; split; [reflexivity|]);
    cbn [tag_crypto_buffer tag_ivect set_tag_crypto_buffer set_tag_ivect fst snd];
    unfold store_at; rewrite Hhead; split; reflexivity.
Qed.

(** ** Byte rotations and shifts *)

Lemma Rol_whole (x : Z) (l : list Z) :
  Rol (x :: l) (Z.of_nat (length (x :: l))) = l ++ [x].
Proof.
  unfold Rol. cbn [length].
  replace (Z.to_nat (Z.of_nat (S (length l)) - 1)) with (length l) by lia.
  rewrite firstn_all. cbn [skipn]. rewrite skipn_all. reflexivity.
Qed.

Lemma Rol_iter_app (a b : list Z) :
  Nat.iter (length a) (fun d => Rol d (Z.of_nat (length d))) (a ++ b) = b ++ a.
Proof.
  revert b. induction a as [|x a IH]; intros b.
  - cbn. rewrite app_nil_r. reflexivity.
  - cbn [length]. rewrite Nat.iter_succ_r. cbn [app].
    rewrite Rol_whole, <- app_assoc, IH, <- app_assoc. reflexivity.
Qed.

(** X4: [Rol] applied to a whole buffer as many times as the buffer has
    bytes gives the buffer back. *)
Theorem Rol_full_turn (data : list Z) :
  Nat.iter (length data) (fun d => Rol d (Z.of_nat (length d))) data = data.
Proof.
  rewrite <- (app_nil_r data) at 2. rewrite Rol_iter_app. reflexivity.
Qed.

Lemma be_value_range (l : list Z) :
  bytes_ok l = true -> 0 <= be_value l < 256 ^ Z.of_nat (length l).
Proof.
  induction l as [|d rest IH]; intros Hok.
  - cbn. lia.
  - cbn [bytes_ok forallb] in Hok. apply andb_true_iff in Hok.
    destruct Hok as [Hd Hrest]. apply is_byte_range in Hd.
    specialize (IH Hrest). cbn [be_value length].
    rewrite Nat2Z.inj_succ, Z.pow_succ_r by lia. nia.
Qed.

Lemma shift_in_byte (d r : Z) :
  0 <= d < 256 -> 0 <= r < 256 ->
  u8 (Z.shiftl d 1) = 2 * d - (d / 128) * 256 /\
  u8 (Z.lor (Z.shiftl d 1) (Z.shiftr r 7)) = 2 * d - (d / 128) * 256 + r / 128.
Proof.
  intros Hd Hr.
  assert (H : forallb (fun d => forallb (fun r =>
                (u8 (Z.shiftl d 1) =? 2 * d - (d / 128) * 256) &&
                (u8 (Z.lor (Z.shiftl d 1) (Z.shiftr r 7))
                 =? 2 * d - (d / 128) * 256 + r / 128))
                (zrange 0 256)) (zrange 0 256) = true) by (vm_compute; reflexivity).
  pose proof (forallb_zrange _ _ _ _ (forallb_zrange _ _ _ _ H Hd) Hr) as E.
  apply andb_true_iff in E. destruct E as [E1 E2].
  apply Z.eqb_eq in E1. apply Z.eqb_eq in E2. split; assumption.
Qed.

Lemma length_Lsl (data : list Z) (len : nat) : length (Lsl data len) = length data.
Proof.
  revert data. induction len as [|n IH]; intros data;
    [destruct data; reflexivity|].
  destruct data as [|d rest]; [destruct n; reflexivity|].
  destruct n as [|n]; [reflexivity|].
  change (Lsl (d :: rest) (S (S n)))
    with (u8 (Z.lor (Z.shiftl d 1) (Z.shiftr (rd rest 0) 7)) :: Lsl rest (S n)).
  cbn [length]. rewrite IH. reflexivity.
Qed.

Lemma Lsl_value (data : list Z) :
  bytes_ok data = true -> data <> [] ->
  bytes_ok (Lsl data (length data)) = true /\
  be_value (Lsl data (length data))
  = 2 * be_value data - (rd data 0 / 128) * 256 ^ Z.of_nat (length data).
Proof.
  induction data as [|d rest IH]; intros Hok Hne; [congruence|].
  cbn [bytes_ok forallb] in Hok. apply andb_true_iff in Hok.
  destruct Hok as [Hd Hrest]. apply is_byte_range in Hd.
  change (rd (d :: rest) 0) with d.
  destruct rest as [|r rest'].
  - destruct (shift_in_byte d 0 Hd ltac:(lia)) as [E _].
    change (Lsl [d] (length [d])) with [u8 (Z.shiftl d 1)].
    cbn [bytes_ok forallb be_value length]. rewrite E.
    change (256 ^ Z.of_nat 0) with 1. change (256 ^ Z.of_nat 1) with 256.
    split; [|lia].
    rewrite is_byte_of_range; [reflexivity|].
    pose proof (Z.div_mod d 128 ltac:(lia)). 
    pose proof (Z.mod_pos_bound d 128 ltac:(lia)).
    assert (0 <= d / 128 < 2) by (split; [apply Z.div_pos; lia | apply Z.div_lt_upper_bound; lia]).
    nia.
  - assert (Hr : 0 <= r < 256).
    { cbn [bytes_ok forallb] in Hrest. apply andb_true_iff in Hrest.
      apply is_byte_range, Hrest. }
    destruct (shift_in_byte d r Hd Hr) as [_ E].
    destruct (IH Hrest ltac:(discriminate)) as [IHok IHv].
    change (rd (r :: rest') 0) with r in IHv.
    change (Lsl (d :: r :: rest') (length (d :: r :: rest')))
      with (u8 (Z.lor (Z.shiftl d 1) (Z.shiftr (rd (r :: rest') 0) 7))
            :: Lsl (r :: rest') (length (r :: rest'))).
    change (rd (r :: rest') 0) with r. rewrite E.
    set (L := Lsl (r :: rest') (length (r :: rest'))) in *.
    assert (HL : length L = length (r :: rest')) by apply length_Lsl.
    cbn [bytes_ok forallb be_value]. rewrite HL, IHv.
    set (n := length (r :: rest')).
    pose proof (Z.div_mod d 128 ltac:(lia)).
    pose proof (Z.mod_pos_bound d 128 ltac:(lia)).
    assert (0 <= d / 128 < 2) by (split; [apply Z.div_pos; lia | apply Z.div_lt_upper_bound; lia]).
    assert (0 <= r / 128 < 2) by (split; [apply Z.div_pos; lia | apply Z.div_lt_upper_bound; lia]).
    split.
    + fold (bytes_ok L). rewrite IHok, andb_true_r.
      apply is_byte_of_range. nia.
    + change (length (d :: r :: rest')) with (S n).
      rewrite (Nat2Z.inj_succ n), Z.pow_succ_r by lia.
      change (r * 256 ^ Z.of_nat (length rest') + be_value rest')
        with (be_value (r :: rest')).
      ring.
Qed.

(** X5: on a non-empty buffer of bytes, read as a number with its most
    significant byte first, [Lsl] over the whole buffer doubles the number
    modulo 2^(8 * length): the top bit is shifted out and a 0 comes in. *)
Theorem Lsl_doubles (data : list Z) :
  bytes_ok data = true -> data <> [] ->
  be_value (Lsl data (length data))
  = (2 * be_value data) mod 2 ^ (8 * Z.of_nat (length data)).
Proof.
  intros Hok Hne. destruct (Lsl_value data Hok Hne) as [HokL Hv].
  pose proof (be_value_range _ HokL) as HR. rewrite length_Lsl in HR.
  rewrite Z.pow_mul_r by lia. change (2 ^ 8) with 256.
  set (N := 256 ^ Z.of_nat (length data)) in *.
  replace (2 * be_value data)
    with (be_value (Lsl data (length data)) + (rd data 0 / 128) * N) by lia.
  rewrite Z.mod_add by lia. symmetry. apply Z.mod_small. exact HR.
Qed.

(** ** The sizes of the buffers *)

Lemma two_pow_size_bits : 8 <= size_bits -> 256 <= 2 ^ size_bits.
Proof.
  intros H. change 256 with (2 ^ 8). apply Z.pow_le_mono_r; lia.
Qed.

(** X6: for a frame of at most [MAX_FRAME_SIZE] bytes and a header inside
    it, the enciphered length (header included) and the MACed length fit
    the tag's crypto buffer of [MAX_CRYPTO_BUFFER_SIZE] bytes, and the
    padded length fits the [MAX_PADDED_DATA_LENGTH] bytes of the local
    buffer of [Cmac]. *)
Theorem crypto_lengths_fit_buffers (tag : mifare_tag)
  (nbytes offset communication_settings : Z) :
  8 <= size_bits -> 0 <= offset <= nbytes -> nbytes <= MAX_FRAME_SIZE ->
  nbytes
  <= EncipheredDataLength tag (nbytes - offset) communication_settings + offset
  <= MAX_CRYPTO_BUFFER_SIZE /\
  MacedDataLength (tag_session_key tag) nbytes <= MAX_CRYPTO_BUFFER_SIZE /\
  PaddedDataLength nbytes (KeyBlockSize (tag_session_key tag))
  <= MAX_PADDED_DATA_LENGTH.
Proof.
  intros Hbits Hoff Hmax. pose proof (two_pow_size_bits Hbits) as Hpow.
  pose proof (KeyBlockSize_pos (tag_session_key tag)) as Hbs.
  unfold MAX_CRYPTO_BUFFER_SIZE, MAX_ENCIPHERED_DATA_LENGTH, MAX_PADDED_DATA_LENGTH,
    MAX_FRAME_SIZE, MAX_CRYPTO_BLOCK_SIZE in *.
  split; [|split].
  - unfold EncipheredDataLength.
    set (c := if flag_set communication_settings NO_CRC then 0
              else match tag_authentication_scheme tag with
                   | AS_LEGACY => 2 | AS_NEW => 4 end).
    assert (Hc : 0 <= c <= 4)
      by (unfold c; destruct (flag_set communication_settings NO_CRC);
          [lia | destruct (tag_authentication_scheme tag); lia]).
    rewrite to_size_t_small by lia.
    destruct (padded_length_fits (nbytes - offset + c)
                (KeyBlockSize (tag_session_key tag)))
      as (_ & Hge & Hlt & Hz); [lia | lia | lia |].
    destruct (Z.eq_dec (nbytes - offset + c) 0) as [E|E].
    + specialize (Hz E). lia.
    + specialize (Hlt E). lia.
  - unfold MacedDataLength, KeyMacingLength, MAC_LENGTH, CMAC_LENGTH.
    destruct (key_type (tag_session_key tag)); rewrite to_size_t_small; lia.
  - destruct (padded_length_fits nbytes (KeyBlockSize (tag_session_key tag)))
      as (_ & Hge & Hlt & Hz); [lia | lia | lia |].
    destruct (Z.eq_dec nbytes 0) as [E|E].
    + specialize (Hz E). lia.
    + specialize (Hlt E). lia.
Qed.

(** ** Fresh keys *)

Lemma rd_skipn (l : list Z) (n : nat) (i : Z) :
  0 <= i -> rd (skipn n l) i = rd l (Z.of_nat n + i).
Proof.
  intros Hi. unfold rd. rewrite nth_skipn. f_equal. lia.
Qed.

Lemma rd_app_l (a b : list Z) (i : Z) :
  0 <= i < Z.of_nat (length a) -> rd (a ++ b) i = rd a i.
Proof. intros H. unfold rd. apply app_nth1. lia. Qed.

Lemma rd_app_r (a b : list Z) (i : Z) :
  Z.of_nat (length a) <= i -> rd (a ++ b) i = rd b (i - Z.of_nat (length a)).
Proof.
  intros H. unfold rd. rewrite app_nth2 by lia. f_equal. lia.
Qed.

Lemma rd_map (f : Z -> Z) (l : list Z) (i : Z) :
  0 <= i < Z.of_nat (length l) -> rd (map f l) i = f (rd l i).
Proof.
  intros H. unfold rd.
  rewrite (nth_indep (map f l) 0 (f 0)) by (rewrite length_map; lia).
  apply map_nth.
Qed.

(** [DES_set_key] reads the 8 bytes at [key] and nothing else. *)
Lemma DES_set_key_reads_8 (a b : list Z) :
  (forall i, 0 <= i < 8 -> rd a i = rd b i) -> DES_set_key a = DES_set_key b.
Proof.
  intros H. unfold DES_set_key, DES_set_key_unchecked.
  assert (E0 : c2l a = c2l b)
    by (unfold c2l; rewrite !H by lia; reflexivity).
  assert (E1 : c2l (skipn 4 a) = c2l (skipn 4 b)).
  { unfold c2l. rewrite !rd_skipn by lia.
    change (Z.of_nat 4 + 0) with 4. change (Z.of_nat 4 + 1) with 5.
    change (Z.of_nat 4 + 2) with 6. change (Z.of_nat 4 + 3) with 7.
    rewrite !H by lia. reflexivity. }
  rewrite E0, E1. reflexivity.
Qed.

Lemma version_zero (key : mifare_desfire_key) :
  (forall n, 0 <= n < 8 -> Z.land (rd (key_data key) n) 1 = 0) ->
  MifareKeyGetVersion key = 0.
Proof.
  intros H. unfold MifareKeyGetVersion, version_indices. cbn [fold_left].
  rewrite !H by lia. reflexivity.
Qed.

Lemma low_bit_cleared (b : Z) : Z.land (u8 (Z.land b 0xfe)) 1 = 0.
Proof.
  unfold u8. rewrite <- !Z.land_assoc.
  change (Z.land 254 (Z.land 255 1)) with 0. apply Z.land_0_r.
Qed.

Lemma low_bit_forced (b : Z) : Z.land (u8 (Z.lor b 0x01)) 1 = 1.
Proof.
  unfold u8. rewrite <- Z.land_assoc. change (Z.land 255 1) with 1.
  rewrite Z.land_lor_distr_l. change (Z.land 1 1) with 1.
  apply Z.bits_inj'. intros i Hi. rewrite Z.lor_spec, Z.land_spec.
  destruct (Z.testbit 1 i); [apply orb_true_r | rewrite andb_false_r; reflexivity].
Qed.

(** X7: a key made by [MifareDesKeyNew] from 8 or more bytes holds the
    first 8 of them, low bits cleared, in both halves of its data; it
    has type DES, version 0, and the same schedule for both halves. *)
Theorem MifareDesKeyNew_shape (key : mifare_desfire_key) (value : list Z) :
  (8 <= length value)%nat -> length (key_data key) = 24%nat ->
  let half := map (fun b => u8 (Z.land b 0xfe)) (firstn 8 value) in
  let k := MifareDesKeyNew key value in
  key_type k = T_DES /\
  key_data k = half ++ half ++ skipn 16 (key_data key) /\
  MifareKeyGetVersion k = 0 /\
  key_ks1 k = DES_set_key half /\ key_ks2 k = DES_set_key half.
Proof.
  intros Hv Hk half k.
  assert (Hhalf : length half = 8%nat)
    by (unfold half; rewrite length_map, length_firstn; lia).
  assert (Hdata : key_data k = half ++ half ++ skipn 16 (key_data key)).
  { unfold k, MifareDesKeyNew, MifareDesKeyNewWithVersion. fold half.
    rewrite key_data_UpdateKeySchedules. cbn [set_key_data set_key_type key_data].
    unfold memcpy_at, store_at, memcpy.
    rewrite (firstn_all2 (n := 8) half) by lia.
    rewrite firstn_app_exact by exact Hhalf.
    rewrite skipn_app_exact by exact Hhalf.
    rewrite skipn_skipn. reflexivity. }
  assert (Hks : key_ks1 k = DES_set_key (key_data k) /\
                key_ks2 k = DES_set_key (skipn 8 (key_data k))).
  { unfold k, MifareDesKeyNew, MifareDesKeyNewWithVersion, UpdateKeySchedules.
    cbn [set_key_ks1 set_key_ks2 set_key_data set_key_type key_type key_data
         key_type_eqb key_ks1 key_ks2].
    split; reflexivity. }
  destruct Hks as [Hks1 Hks2].
  split; [reflexivity|]. split; [exact Hdata|]. split; [|split].
  - apply version_zero. intros n Hn. rewrite Hdata.
    rewrite rd_app_l by lia. unfold half.
    rewrite rd_map by (rewrite length_firstn; lia). apply low_bit_cleared.
  - rewrite Hks1, Hdata. apply DES_set_key_reads_8. intros i Hi.
    apply rd_app_l. lia.
  - rewrite Hks2, Hdata. rewrite skipn_app_exact by exact Hhalf.
    apply DES_set_key_reads_8. intros i Hi. apply rd_app_l. lia.
Qed.

(** X8: a key made by [Mifare3DesKeyNew] from 16 or more bytes has type
    3DES and version 0, and in each of the 8 byte pairs the byte of the
    first half is even and the byte of the second half is odd: the halves
    differ in every byte, whatever the material. *)
Theorem Mifare3DesKeyNew_halves_differ (key : mifare_desfire_key)
  (value : list Z) (n : Z) :
  (16 <= length value)%nat -> length (key_data key) = 24%nat -> 0 <= n < 8 ->
  let k := Mifare3DesKeyNew key value in
  key_type k = T_3DES /\ MifareKeyGetVersion k = 0 /\
  Z.land (rd (key_data k) n) 1 = 0 /\
  Z.land (rd (key_data k) (n + 8)) 1 = 1 /\
  rd (key_data k) n <> rd (key_data k) (n + 8).
Proof.
  intros Hv Hk Hn k.
  set (lo := map (fun b => u8 (Z.land b 0xfe)) (firstn 8 (firstn 16 value))).
  set (hi := map (fun b => u8 (Z.lor b 0x01)) (skipn 8 (firstn 16 value))).
  assert (Hlo : length lo = 8%nat)
    by (unfold lo; rewrite length_map, !length_firstn; lia).
  assert (Hhi : length hi = 8%nat)
    by (unfold hi; rewrite length_map, length_skipn, length_firstn; lia).
  assert (Hdata : key_data k = lo ++ hi ++ skipn 16 (key_data key)).
  { unfold k, Mifare3DesKeyNew, Mifare3DesKeyNewWithVersion. fold lo. fold hi.
    rewrite key_data_UpdateKeySchedules. cbn [set_key_data set_key_type key_data].
    unfold memcpy. rewrite firstn_all2 by (rewrite length_app; lia).
    rewrite <- app_assoc. reflexivity. }
  assert (Heven : forall m, 0 <= m < 8 -> Z.land (rd (key_data k) m) 1 = 0).
  { intros m Hm. rewrite Hdata, rd_app_l by lia. unfold lo.
    rewrite rd_map by (rewrite !length_firstn; lia). apply low_bit_cleared. }
  assert (Hodd : Z.land (rd (key_data k) (n + 8)) 1 = 1).
  { rewrite Hdata, rd_app_r by lia. rewrite rd_app_l by lia. unfold hi.
    rewrite rd_map by (rewrite length_skipn, length_firstn; lia).
    apply low_bit_forced. }
  split; [reflexivity|]. split; [apply version_zero, Heven|].
  split; [apply Heven, Hn|]. split; [exact Hodd|].
  intros E. pose proof (Heven n Hn) as H0. rewrite E, Hodd in H0. discriminate.
Qed.

(** ** What [MifareKeySetVersion] keeps *)

Lemma set_version_body_first ty version data n :
  0 <= n < 8 -> n + 8 < Z.of_nat (length data) ->
  rd (set_version_body ty version data n) n
  = u8 (Z.lor (u8 (Z.land (rd data n) 0xfe)) (version_bit_of version n)).
Proof.
  intros Hn Hlen. unfold set_version_body.
  destruct (key_type_eqb ty T_DES).
  - rewrite rd_wr_other by lia.
    rewrite rd_wr_same by (rewrite length_wr; lia).
    rewrite rd_wr_same by lia. reflexivity.
  - rewrite !rd_wr_other by lia.
    rewrite rd_wr_same by (rewrite length_wr; lia).
    rewrite rd_wr_same by lia. reflexivity.
Qed.

Lemma set_version_body_des version data n :
  0 <= n < 8 -> n + 8 < Z.of_nat (length data) ->
  rd (set_version_body T_DES version data n) (n + 8)
  = rd (set_version_body T_DES version data n) n.
Proof.
  intros Hn Hlen. unfold set_version_body. cbn [key_type_eqb].
  rewrite rd_wr_same by (rewrite !length_wr; lia).
  rewrite (rd_wr_other _ (n + 8) n) by lia. reflexivity.
Qed.

Lemma version_byte (d vb : Z) :
  0 <= d < 256 -> vb = 0 \/ vb = 1 ->
  u8 (Z.lor (u8 (Z.land d 0xfe)) vb) = 2 * (d / 2) + vb.
Proof.
  intros Hd Hvb.
  assert (H : forallb (fun d =>
                (u8 (Z.lor (u8 (Z.land d 0xfe)) 0) =? 2 * (d / 2) + 0) &&
                (u8 (Z.lor (u8 (Z.land d 0xfe)) 1) =? 2 * (d / 2) + 1))
                (zrange 0 256) = true) by (vm_compute; reflexivity).
  pose proof (forallb_zrange _ _ _ _ H Hd) as E.
  apply andb_true_iff in E. destruct E as [E0 E1].
  apply Z.eqb_eq in E0. apply Z.eqb_eq in E1.
  destruct Hvb as [-> | ->]; assumption.
Qed.

Ltac eight_cases n H :=
  assert (n = 0 \/ n = 1 \/ n = 2 \/ n = 3 \/ n = 4 \/ n = 5 \/ n = 6 \/ n = 7)
    as [-> | [-> | [-> | [-> | [-> | [-> | [-> | ->]]]]]]] by lia.

Lemma MifareKeySetVersion_changes (key : mifare_desfire_key) (version : Z) :
  (16 <= length (key_data key))%nat -> bytes_ok (key_data key) = true ->
  0 <= version < 256 ->
  let k := MifareKeySetVersion key version in
  (key_type k = key_type key /\ key_ks1 k = key_ks1 key /\
   key_ks2 k = key_ks2 key /\ key_ks3 k = key_ks3 key /\
   key_cmac_sk1 k = key_cmac_sk1 key /\ key_cmac_sk2 k = key_cmac_sk2 key) /\
  length (key_data k) = length (key_data key) /\
  (forall j, 16 <= j -> rd (key_data k) j = rd (key_data key) j) /\
  (forall n, 0 <= n < 8 ->
     rd (key_data k) n = 2 * (rd (key_data key) n / 2) + version_bit_of version n).
Proof.
  intros Hlen Hok Hv k.
  assert (Hbyte : forall n, 0 <= n < 8 -> 0 <= rd (key_data key) n < 256).
  { intros n Hn. apply is_byte_range. unfold bytes_ok in Hok.
    rewrite forallb_forall in Hok. apply Hok. unfold rd. apply nth_In. lia. }
  unfold k, MifareKeySetVersion.
  cbn [set_key_data key_type key_ks1 key_ks2 key_ks3 key_cmac_sk1 key_cmac_sk2
       key_data].
  unfold version_indices. cbn [fold_left].
  set (ty := key_type key). set (d := key_data key) in *.
  split; [repeat split|]. split; [|split].
  - rewrite !length_set_version_body. reflexivity.
  - intros j Hj. repeat rewrite set_version_body_other by lia. reflexivity.
  - intros n Hn. eight_cases n Hn;
      repeat rewrite set_version_body_other by lia;
      (rewrite set_version_body_first
         by (rewrite ?length_set_version_body; lia));
      repeat rewrite set_version_body_other by lia;
      (apply version_byte; [apply Hbyte; lia | apply version_bit_of_01; lia]).
Qed.

(** X9: [MifareKeySetVersion] changes nothing in a key but its data, and
    there only the low bits of the first half and the bytes of the second
    half: the type, the three schedules (which are not recomputed) and the
    CMAC subkeys stay, the length of the data and the bytes from index 16
    stay, and byte [n] of the first half keeps its seven upper bits and
    takes version bit [n] as its low bit. *)
Theorem MifareKeySetVersion_frame (key : mifare_desfire_key) (version : Z) :
  (16 <= length (key_data key))%nat -> bytes_ok (key_data key) = true ->
  0 <= version < 256 ->
  let k := MifareKeySetVersion key version in
  (key_type k = key_type key /\ key_ks1 k = key_ks1 key /\
   key_ks2 k = key_ks2 key /\ key_ks3 k = key_ks3 key /\
   key_cmac_sk1 k = key_cmac_sk1 key /\ key_cmac_sk2 k = key_cmac_sk2 key) /\
  length (key_data k) = length (key_data key) /\
  (forall j, 16 <= j -> rd (key_data k) j = rd (key_data key) j) /\
  (forall n, 0 <= n < 8 ->
     rd (key_data k) n = 2 * (rd (key_data key) n / 2) + version_bit_of version n).
Proof. exact (MifareKeySetVersion_changes key version). Qed.

Lemma MifareKeySetVersion_des_copy (key : mifare_desfire_key)
  (version n : Z) :
  key_type key = T_DES -> (16 <= length (key_data key))%nat -> 0 <= n < 8 ->
  rd (key_data (MifareKeySetVersion key version)) (n + 8)
  = rd (key_data (MifareKeySetVersion key version)) n.
Proof.
  intros Hty Hlen Hn. unfold MifareKeySetVersion. rewrite Hty.
  cbn [set_key_data key_data]. unfold version_indices. cbn [fold_left].
  set (d := key_data key) in *.
  eight_cases n Hn;
    repeat rewrite (set_version_body_other _ _ _ 7) by lia;
    repeat rewrite (set_version_body_other _ _ _ 6) by lia;
    repeat rewrite (set_version_body_other _ _ _ 5) by lia;
    repeat rewrite (set_version_body_other _ _ _ 4) by lia;
    repeat rewrite (set_version_body_other _ _ _ 3) by lia;
    repeat rewrite (set_version_body_other _ _ _ 2) by lia;
    repeat rewrite (set_version_body_other _ _ _ 1) by lia;
    apply set_version_body_des; rewrite ?length_set_version_body; lia.
Qed.

(** X10: after [MifareKeySetVersion] on a key of type DES, each byte of the
    second half of the data is the byte of the first half: the key stays a
    single-DES key. *)
Theorem MifareKeySetVersion_des_halves (key : mifare_desfire_key)
  (version n : Z) :
  key_type key = T_DES -> (16 <= length (key_data key))%nat -> 0 <= n < 8 ->
  rd (key_data (MifareKeySetVersion key version)) (n + 8)
  = rd (key_data (MifareKeySetVersion key version)) n.
Proof. exact (MifareKeySetVersion_des_copy key version n). Qed.

(** ** Frames on the serial link *)

Lemma skipn_nth_cons (l : list Z) (i : nat) :
  (i < length l)%nat -> skipn i l = nth i l 0 :: skipn (S i) l.
Proof.
  revert l. induction i as [|i IH]; intros [|x l] H; cbn [length] in H; try lia.
  - reflexivity.
  - cbn [skipn nth]. apply IH. lia.
Qed.

Lemma putbuf_loop_frame (fuel : nat) (buffer : list Z) (i size checksum : Z)
  (w : mf_io) :
  0 <= i <= size -> size <= 255 -> size <= Z.of_nat (length buffer) ->
  (Z.to_nat (size - i) <= fuel)%nat ->
  putbuf_loop fuel buffer i size checksum w
  = (fold_left (fun c b => u8 (Z.lxor c b))
       (firstn (Z.to_nat (size - i)) (skipn (Z.to_nat i) buffer)) checksum,
     mk_io (io_tx w ++ firstn (Z.to_nat (size - i)) (skipn (Z.to_nat i) buffer))
           (io_rx w) (io_timer w) (io_timerOvertime w) (io_uartStatus w)
           (io_rxBuf w)).
Proof.
  revert i checksum w. induction fuel as [|fuel IH]; intros i checksum w Hi Hs Hb Hf.
  - replace (Z.to_nat (size - i)) with 0%nat by lia.
    cbn [putbuf_loop firstn fold_left]. rewrite app_nil_r. destruct w; reflexivity.
  - cbn [putbuf_loop]. destruct (i <? size) eqn:E.
    + apply Z.ltb_lt in E.
      rewrite u8_small by lia.
      rewrite IH by (cbn [SerialPutChar io_tx]; lia).
      replace (Z.to_nat (size - i)) with (S (Z.to_nat (size - (i + 1)))) by lia.
      rewrite (skipn_nth_cons buffer (Z.to_nat i)) by lia.
      replace (S (Z.to_nat i)) with (Z.to_nat (i + 1)) by lia.
      cbn [firstn fold_left SerialPutChar io_tx io_rx io_timer io_timerOvertime
           io_uartStatus io_rxBuf].
      unfold rd. rewrite <- app_assoc. reflexivity.
    + apply Z.ltb_ge in E.
      replace (Z.to_nat (size - i)) with 0%nat by lia.
      cbn [firstn fold_left]. rewrite app_nil_r. destruct w; reflexivity.
Qed.

Lemma MifarePutBuf_sends (buffer : list Z) (size : Z) (w : mf_io) :
  0 <= size <= 255 -> size <= Z.of_nat (length buffer) ->
  let sent := firstn (Z.to_nat size) buffer in
  let w' := MifarePutBuf buffer size w in
  io_tx w' = io_tx w ++ sent ++ [frame_checksum sent] /\
  frame_checksum (sent ++ [frame_checksum sent]) = 0 /\
  io_uartStatus w' = MF_UARTSTATUS_TXSUCC /\
  io_rx w' = io_rx w /\ io_rxBuf w' = io_rxBuf w.
Proof.
  intros Hs Hb sent w'. unfold w', MifarePutBuf.
  rewrite putbuf_loop_frame by lia.
  rewrite Z.sub_0_r. change (Z.to_nat 0) with 0%nat. cbn [skipn]. fold sent.
  cbn [SerialPutChar set_io_uartStatus io_tx io_rx io_rxBuf io_uartStatus].
  fold (frame_checksum sent).
  split; [rewrite <- app_assoc; reflexivity|]. split; [|repeat split].
  unfold frame_checksum. rewrite fold_left_app. cbn [fold_left].
  rewrite Z.lxor_nilpotent. reflexivity.
Qed.

(** X11: [MifarePutBuf] hands to the serial link the first [size] bytes of
    the buffer followed by the XOR of them, so that the XOR over the whole
    of what it sends is zero; it ends with the status TXSUCC and leaves the
    receive side alone. *)
Theorem MifarePutBuf_frame (buffer : list Z) (size : Z) (w : mf_io) :
  0 <= size <= 255 -> size <= Z.of_nat (length buffer) ->
  let sent := firstn (Z.to_nat size) buffer in
  let w' := MifarePutBuf buffer size w in
  io_tx w' = io_tx w ++ sent ++ [frame_checksum sent] /\
  frame_checksum (sent ++ [frame_checksum sent]) = 0 /\
  io_uartStatus w' = MF_UARTSTATUS_TXSUCC /\
  io_rx w' = io_rx w /\ io_rxBuf w' = io_rxBuf w.
Proof. exact (MifarePutBuf_sends buffer size w). Qed.

Lemma wr_app_at (a c : list Z) (x v : Z) :
  wr (a ++ x :: c) (Z.of_nat (length a)) v = a ++ v :: c.
Proof.
  unfold wr.
  replace ((0 <=? Z.of_nat (length a))
           && (Z.of_nat (length a) <? Z.of_nat (length (a ++ x :: c)))) with true
    by (symmetry; apply andb_true_iff; split;
        [apply Z.leb_le | apply Z.ltb_lt; rewrite length_app; cbn [length]]; lia).
  rewrite Nat2Z.id, firstn_app_exact by reflexivity.
  replace (S (length a)) with (length (a ++ [x])) by (rewrite length_app; cbn; lia).
  replace (a ++ x :: c) with ((a ++ [x]) ++ c) by (rewrite <- app_assoc; reflexivity).
  rewrite skipn_app_exact by reflexivity. reflexivity.
Qed.

Lemma firstn_S_nth (l : list Z) (k : nat) :
  (k < length l)%nat -> firstn (S k) l = firstn k l ++ [nth k l 0].
Proof.
  revert l. induction k as [|k IH]; intros [|x l] H; cbn [length] in H; try lia.
  - reflexivity.
  - cbn [firstn nth app]. rewrite <- IH by lia. reflexivity.
Qed.

Lemma zrange_cons (a b : Z) : a < b -> zrange a b = a :: zrange (a + 1) b.
Proof.
  intros H. unfold zrange.
  replace (Z.to_nat (b - a)) with (S (Z.to_nat (b - (a + 1)))) by lia.
  cbn [seq map]. rewrite <- seq_shift, map_map. f_equal; [lia|].
  apply map_ext. intros k. lia.
Qed.

Lemma zrange_nil (a b : Z) : b <= a -> zrange a b = [].
Proof.
  intros H. unfold zrange. replace (Z.to_nat (b - a)) with 0%nat by lia. reflexivity.
Qed.

Lemma clear_span (pre mid post : list Z) :
  fold_left (fun buf n => wr buf n 0)
    (zrange (Z.of_nat (length pre)) (Z.of_nat (length pre + length mid)))
    (pre ++ mid ++ post)
  = pre ++ repeat 0 (length mid) ++ post.
Proof.
  revert pre. induction mid as [|x mid IH]; intros pre.
  - rewrite zrange_nil by (cbn [length]; lia). reflexivity.
  - rewrite zrange_cons by (cbn [length]; lia). cbn [fold_left app length repeat].
    rewrite wr_app_at.
    replace (pre ++ 0 :: mid ++ post) with ((pre ++ [0]) ++ mid ++ post)
      by (rewrite <- app_assoc; reflexivity).
    replace (Z.of_nat (length pre) + 1) with (Z.of_nat (length (pre ++ [0])))
      by (rewrite length_app; cbn [length]; lia).
    replace (length pre + S (length mid))%nat
      with (length (pre ++ [0%Z]) + length mid)%nat
      by (rewrite length_app; cbn [length]; lia).
    rewrite IH, <- app_assoc. reflexivity.
Qed.

Lemma clear_rest_app (p t : list Z) :
  (length p <= 60)%nat -> (60 <= length (p ++ t))%nat ->
  clear_rest (p ++ t) (Z.of_nat (length p))
  = p ++ repeat 0 (60 - length p) ++ skipn (60 - length p) t.
Proof.
  intros Hp Ht. rewrite length_app in Ht. unfold clear_rest.
  rewrite <- (firstn_skipn (60 - length p) t) at 1.
  replace MAX_FRAME_SIZE
    with (Z.of_nat (length p + length (firstn (60 - length p) t)))
    by (rewrite length_firstn; unfold MAX_FRAME_SIZE; lia).
  rewrite clear_span, length_firstn.
  replace (Nat.min (60 - length p) (length t)) with (60 - length p)%nat by lia.
  reflexivity.
Qed.

(** The receive loop of [MifareGetBuf] while the bytes of [p] arrive: every
    byte is wanted, stored and XORed in. *)
Lemma getbuf_loop_consume (p rest buf0 : list Z) (n fuel : nat) (k : nat)
  (checkSum : Z) (w : mf_io) :
  bytes_ok p = true -> (length p <= length buf0)%nat ->
  (length p <= 2)%nat \/ Z.of_nat (length p) <= rd p 1 + 2 ->
  (k + n = length p)%nat ->
  io_rx w = skipn k p ++ rest ->
  io_rxBuf w = firstn k p ++ skipn k buf0 ->
  exists w',
    getbuf_loop (n + fuel) (Z.of_nat k) checkSum w
    = getbuf_loop fuel (Z.of_nat (length p))
        (fold_left (fun c b => u8 (Z.lxor c b)) (skipn k p) checkSum) w' /\
    io_rx w' = rest /\ io_rxBuf w' = p ++ skipn (length p) buf0 /\
    io_tx w' = io_tx w /\ io_uartStatus w' = io_uartStatus w.
Proof.
  intros Hok Hbuf Hwant. revert k checkSum w.
  induction n as [|n IH]; intros k checkSum w Hk Hrx Hbufw.
  - assert (k = length p) by lia. subst k.
    rewrite skipn_all in *. rewrite firstn_all in Hbufw.
    exists w. cbn [Nat.add fold_left]. repeat split; assumption.
  - assert (Hlt : (k < length p)%nat) by lia.
    cbn [Nat.add getbuf_loop].
    assert (Hcond : (Z.of_nat k <? 2)
                    || ((Z.of_nat k >=? 2)
                        && (Z.of_nat k <? rd (io_rxBuf w) 1 + 2)) = true).
    { destruct (Z.of_nat k <? 2) eqn:E2; [reflexivity|]. apply Z.ltb_ge in E2.
      cbn [orb]. apply andb_true_iff. split; [apply Z.geb_le; lia|].
      apply Z.ltb_lt. rewrite Hbufw.
      rewrite rd_app_l by (rewrite length_firstn; lia).
      unfold rd. rewrite nth_firstn.
      replace (Z.to_nat 1 <? k)%nat with true by (symmetry; apply Nat.ltb_lt; lia).
      fold (rd p 1). destruct Hwant; lia. }
    rewrite Hcond. cbn [MifareStartTimer io_rx]. rewrite Hrx.
    rewrite (skipn_nth_cons p k) by exact Hlt. cbn [app].
    set (b := nth k p 0).
    assert (Hb : 0 <= b < 256).
    { apply is_byte_range. unfold bytes_ok in Hok. rewrite forallb_forall in Hok.
      apply Hok. apply nth_In. exact Hlt. }
    cbn [MifareStartTimer set_io_rxBuf io_tx io_rx io_timer io_timerOvertime
         io_uartStatus io_rxBuf].
    rewrite (u8_small b) by exact Hb.
    assert (Hwr : wr (io_rxBuf w) (Z.of_nat k) b
                  = firstn (S k) p ++ skipn (S k) buf0).
    { rewrite Hbufw.
      rewrite (skipn_nth_cons buf0 k) by lia.
      replace (Z.of_nat k) with (Z.of_nat (length (firstn k p)))
        by (rewrite length_firstn; lia).
      rewrite wr_app_at, firstn_S_nth by exact Hlt.
      rewrite <- app_assoc. reflexivity. }
    rewrite Hwr.
    assert (Hrd : rd (firstn (S k) p ++ skipn (S k) buf0) (Z.of_nat k) = b).
    { rewrite rd_app_l by (rewrite length_firstn; lia).
      unfold rd. rewrite nth_firstn, Nat2Z.id.
      replace (k <? S k)%nat with true by (symmetry; apply Nat.ltb_lt; lia).
      reflexivity. }
    rewrite Hrd.
    replace (Z.of_nat k + 1) with (Z.of_nat (S k)) by lia.
    match goal with
    | |- context [getbuf_loop _ _ _ ?w1] =>
        destruct (IH (S k) (u8 (Z.lxor checkSum b)) w1) as (w' & E & H1 & H2 & H3 & H4);
          [lia | reflexivity | reflexivity |]
    end.
    exists w'. cbn [fold_left]. rewrite E. repeat split; assumption.
Qed.

Lemma MifareGetBuf_on_frame (f rest : list Z) (w : mf_io) :
  bytes_ok f = true -> (2 <= length f <= 60)%nat ->
  Z.of_nat (length f) = rd f 1 + 2 ->
  (60 <= length (io_rxBuf w))%nat -> io_rx w = f ++ rest ->
  let w' := MifareGetBuf w in
  io_rx w' = rest /\ io_tx w' = io_tx w /\
  io_rxBuf w' = f ++ repeat 0 (60 - length f) ++ skipn 60 (io_rxBuf w) /\
  io_uartStatus w'
  = (if frame_checksum f =? 0 then MF_UARTSTATUS_RXSUCC else MF_UARTSTATUS_RXERR).
Proof.
  intros Hok Hlen Hsecond Hbuf Hrx w'. unfold w', MifareGetBuf.
  destruct (getbuf_loop_consume f rest (io_rxBuf w) (length f)
              (258 - length f) 0 0
              (set_io_uartStatus w MF_UARTSTATUS_RXSUCC))
    as (w1 & E & H1 & H2 & H3 & H4);
    [exact Hok | lia | right; lia | lia | exact Hrx | reflexivity |].
  replace (length f + (258 - length f))%nat with 258%nat in E by lia.
  change (Z.of_nat 0) with 0 in E. rewrite E. cbn [skipn].
  fold (frame_checksum f).
  replace (258 - length f)%nat with (S (257 - length f)) by lia.
  cbn [getbuf_loop]. rewrite H2.
  replace (rd (f ++ skipn (length f) (io_rxBuf w)) 1) with (rd f 1)
    by (symmetry; apply rd_app_l; lia).
  replace (Z.of_nat (length f) <? 2) with false
    by (symmetry; apply Z.ltb_ge; lia).
  replace (Z.of_nat (length f) <? rd f 1 + 2) with false
    by (symmetry; apply Z.ltb_ge; lia).
  rewrite andb_false_r. cbn [orb].
  assert (Hclear : clear_rest (f ++ skipn (length f) (io_rxBuf w))
                     (Z.of_nat (length f))
                   = f ++ repeat 0 (60 - length f) ++ skipn 60 (io_rxBuf w)).
  { rewrite clear_rest_app; [| lia | rewrite length_app, length_skipn; lia].
    rewrite skipn_skipn. replace (60 - length f + length f)%nat with 60%nat by lia.
    reflexivity. }
  cbn [set_io_uartStatus io_uartStatus] in H4.
  destruct (frame_checksum f =? 0);
    cbn [set_io_rxBuf set_io_uartStatus io_rx io_tx io_rxBuf io_uartStatus];
    rewrite ?H2, Hclear; repeat split; assumption.
Qed.

(** X12: when the link delivers a whole frame of bytes, at most
    [MAX_FRAME_SIZE] long, whose second byte is its length less two,
    [MifareGetBuf] takes exactly that frame off the link, leaves it at the
    start of [rxBuf] followed by zeros up to [MAX_FRAME_SIZE], and ends
    with the status RXSUCC if the XOR over the frame is zero and RXERR
    otherwise. *)
Theorem MifareGetBuf_frame (f rest : list Z) (w : mf_io) :
  bytes_ok f = true -> (2 <= length f <= 60)%nat ->
  Z.of_nat (length f) = rd f 1 + 2 ->
  (60 <= length (io_rxBuf w))%nat -> io_rx w = f ++ rest ->
  let w' := MifareGetBuf w in
  io_rx w' = rest /\ io_tx w' = io_tx w /\
  io_rxBuf w' = f ++ repeat 0 (60 - length f) ++ skipn 60 (io_rxBuf w) /\
  io_uartStatus w'
  = (if frame_checksum f =? 0 then MF_UARTSTATUS_RXSUCC else MF_UARTSTATUS_RXERR).
Proof. exact (MifareGetBuf_on_frame f rest w). Qed.

Lemma MifareGetBuf_on_short (p : list Z) (w : mf_io) :
  bytes_ok p = true -> (length p <= 60)%nat ->
  (length p < 2)%nat \/ Z.of_nat (length p) < rd p 1 + 2 ->
  (60 <= length (io_rxBuf w))%nat -> io_rx w = p ->
  let w' := MifareGetBuf w in
  io_uartStatus w' = MF_UARTSTATUS_RXERR /\ io_timerOvertime w' = 1 /\
  io_rx w' = [] /\ io_tx w' = io_tx w /\
  io_rxBuf w' = p ++ repeat 0 (60 - length p) ++ skipn 60 (io_rxBuf w).
Proof.
  intros Hok Hlen Hshort Hbuf Hrx w'. unfold w', MifareGetBuf.
  destruct (getbuf_loop_consume p [] (io_rxBuf w) (length p)
              (258 - length p) 0 0
              (set_io_uartStatus w MF_UARTSTATUS_RXSUCC))
    as (w1 & E & H1 & H2 & H3 & H4);
    [exact Hok | lia | destruct Hshort; [left | right]; lia | lia
    | rewrite app_nil_r; exact Hrx | reflexivity |].
  replace (length p + (258 - length p))%nat with 258%nat in E by lia.
  change (Z.of_nat 0) with 0 in E. rewrite E. cbn [skipn].
  fold (frame_checksum p).
  replace (258 - length p)%nat with (S (257 - length p)) by lia.
  cbn [getbuf_loop]. rewrite H2.
  assert (Hcond : (Z.of_nat (length p) <? 2)
                  || ((Z.of_nat (length p) >=? 2)
                      && (Z.of_nat (length p)
                          <? rd (p ++ skipn (length p) (io_rxBuf w)) 1 + 2)) = true).
  { destruct (Z.of_nat (length p) <? 2) eqn:E2; [reflexivity|].
    apply Z.ltb_ge in E2. cbn [orb]. apply andb_true_iff.
    split; [apply Z.geb_le; lia|]. apply Z.ltb_lt.
    rewrite rd_app_l by lia. destruct Hshort; lia. }
  rewrite Hcond. cbn [MifareStartTimer io_rx]. rewrite H1.
  assert (Hclear : clear_rest (p ++ skipn (length p) (io_rxBuf w))
                     (Z.of_nat (length p))
                   = p ++ repeat 0 (60 - length p) ++ skipn 60 (io_rxBuf w)).
  { rewrite clear_rest_app; [| lia | rewrite length_app, length_skipn; lia].
    rewrite skipn_skipn. replace (60 - length p + length p)%nat with 60%nat by lia.
    reflexivity. }
  destruct (frame_checksum p =? 0);
    cbn [MifareStartTimer timer_expired set_io_rxBuf set_io_uartStatus io_rx
         io_tx io_rxBuf io_uartStatus io_timerOvertime];
    rewrite ?H2, Hclear; repeat split; assumption.
Qed.

(** X13: when the link falls silent before the frame is complete (nothing
    at all, a single byte, or fewer bytes than the second byte announces),
    [MifareGetBuf] ends in the timeout: the status is RXERR, the overtime
    flag is set, and [rxBuf] holds what arrived followed by zeros up to
    [MAX_FRAME_SIZE]. *)
Theorem MifareGetBuf_timeout (p : list Z) (w : mf_io) :
  bytes_ok p = true -> (length p <= 60)%nat ->
  (length p < 2)%nat \/ Z.of_nat (length p) < rd p 1 + 2 ->
  (60 <= length (io_rxBuf w))%nat -> io_rx w = p ->
  let w' := MifareGetBuf w in
  io_uartStatus w' = MF_UARTSTATUS_RXERR /\ io_timerOvertime w' = 1 /\
  io_rx w' = [] /\ io_tx w' = io_tx w /\
  io_rxBuf w' = p ++ repeat 0 (60 - length p) ++ skipn 60 (io_rxBuf w).
Proof. exact (MifareGetBuf_on_short p w). Qed.

(** ** One exchange with the reader *)

Lemma putbuf_loop_rx (fuel : nat) (buffer : list Z) (i size checksum : Z)
  (w : mf_io) :
  io_rx (snd (putbuf_loop fuel buffer i size checksum w)) = io_rx w /\
  io_rxBuf (snd (putbuf_loop fuel buffer i size checksum w)) = io_rxBuf w.
Proof.
  revert i checksum w. induction fuel as [|fuel IH]; intros i checksum w.
  - split; reflexivity.
  - cbn [putbuf_loop]. destruct (i <? size); [|split; reflexivity].
    destruct (IH (u8 (i + 1)) (u8 (Z.lxor checksum (rd buffer i)))
                 (SerialPutChar (rd buffer i) w)) as [H1 H2].
    rewrite H1, H2. split; reflexivity.
Qed.

Lemma MifarePutBuf_rx (buffer : list Z) (size : Z) (w : mf_io) :
  io_rx (MifarePutBuf buffer size w) = io_rx w /\
  io_rxBuf (MifarePutBuf buffer size w) = io_rxBuf w.
Proof.
  unfold MifarePutBuf.
  destruct (putbuf_loop_rx (Z.to_nat size) buffer 0 size 0
              (set_io_uartStatus w MF_UARTSTATUS_TX)) as [H1 H2].
  destruct (putbuf_loop (Z.to_nat size) buffer 0 size 0
              (set_io_uartStatus w MF_UARTSTATUS_TX)) as [checksum w1].
  cbn [snd] in H1, H2.
  cbn [SerialPutChar set_io_uartStatus io_rx io_rxBuf] in *. split; assumption.
Qed.

Lemma commtcl_fold_silent (buffer : list Z) (size : Z) (idx : list Z)
  (st : list Z * Z * mf_io) :
  io_rx (snd st) = [] -> (60 <= length (io_rxBuf (snd st)))%nat ->
  forall success0, snd (fst st) = success0 ->
  let st' := fold_left (commtcl_body buffer size) idx st in
  snd (fst st') = success0 /\ io_rx (snd st') = [] /\
  (60 <= length (io_rxBuf (snd st')))%nat.
Proof.
  revert st. induction idx as [|i idx IH]; intros st Hrx Hbuf success0 Hfail.
  - cbn [fold_left]. repeat split; assumption.
  - cbn [fold_left]. apply IH; destruct st as [[comm success] w];
      cbn [fst snd] in *; unfold commtcl_body;
      set (comm' := wr comm (i + 3) (rd buffer i));
      destruct (MifarePutBuf_rx comm' (u8 (size + 3)) w) as [P1 P2];
      destruct (MifareGetBuf_on_short [] (MifarePutBuf comm' (u8 (size + 3)) w))
        as (G1 & G2 & G3 & G4 & G5);
      try reflexivity; try (cbn [length]; lia); try (left; cbn [length]; lia);
      try (rewrite P2; exact Hbuf); try (rewrite P1; exact Hrx);
      cbn [fst snd].
    + exact G3.
    + rewrite G5. cbn [app length]. rewrite length_app, repeat_length, length_skipn.
      rewrite P2. cbn [length]. lia.
    + rewrite G1. cbn. exact Hfail.
Qed.

(** X14: on a silent link that satisfies [link_fits], [MifareCommTCL] of a
    payload of at most [MAX_FRAME_SIZE] bytes does not return SUCCESS: it
    returns 255, what its [uint8_t] status holds once set to [FAIL], so
    that a comparison with [FAIL], which is -1, does not see the failure;
    and the link stays silent. *)
Theorem MifareCommTCL_silent (buffer : list Z) (size : Z) (w : mf_io) :
  0 <= size <= MAX_FRAME_SIZE -> (Z.to_nat size <= length buffer)%nat ->
  link_fits w -> io_rx w = [] ->
  fst (MifareCommTCL buffer size w) <> SUCCESS /\
  fst (MifareCommTCL buffer size w) = 255 /\
  fst (MifareCommTCL buffer size w) <> FAIL /\
  io_rx (snd (MifareCommTCL buffer size w)) = [].
Proof.
  intros _ _ (Hlen & _ & _) Hrx.
  assert (Hbuf : (60 <= length (io_rxBuf w))%nat)
    by (rewrite Hlen; apply Nat.leb_le; reflexivity).
  unfold MifareCommTCL.
  match goal with
  | |- context [fold_left ?f ?l ?st] =>
      destruct (commtcl_fold_silent buffer size l st Hrx Hbuf _ eq_refl)
        as (H1 & H2 & _);
      destruct (fold_left f l st) as [[comm success] w']
  end.
  cbn [fst snd set_io_rxBuf io_rx] in *. rewrite H1.
  repeat split; [discriminate | discriminate | exact H2].
Qed.


Lemma length_zrange (a b : Z) : length (zrange a b) = Z.to_nat (b - a).
Proof. unfold zrange. rewrite length_map, length_seq. reflexivity. Qed.

(** A one-byte command and a well-formed answer. *)
Lemma MifareCommTCL_one_byte (buffer data rest : list Z) (status cks : Z)
  (w : mf_io) :
  let answer :=
    [0xBD; Z.of_nat (length data) + 4; SL_TCL; SL_OPERATION_SUCC; status]
    ++ data ++ [cks] in
  let sent := [0xBA; 3; SL_TCL; rd buffer 0] in
  bytes_ok answer = true -> (length answer <= 60)%nat ->
  frame_checksum answer = 0 ->
  status = MF_OPERATION_OK \/ status = MF_ADDITIONAL_FRAME ->
  (60 <= length (io_rxBuf w))%nat -> io_rx w = answer ++ rest ->
  fst (MifareCommTCL buffer 1 w) = SUCCESS /\
  io_tx (snd (MifareCommTCL buffer 1 w))
  = io_tx w ++ sent ++ [frame_checksum sent] /\
  io_rx (snd (MifareCommTCL buffer 1 w)) = rest /\
  MF_RXLEN (snd (MifareCommTCL buffer 1 w)) = Z.of_nat (length data) + 1 /\
  firstn (length data + 1) (MF_RXDATA (snd (MifareCommTCL buffer 1 w)))
  = data ++ [status].
Proof.
  intros answer sent Hok Hlen Hsum Hstatus Hbuf Hrx.
  unfold MifareCommTCL. change (zrange 0 1) with [0]. cbn [fold_left].
  unfold commtcl_body.
  set (comm := wr _ (0 + 3) (rd buffer 0)).
  assert (Hcomm : firstn (Z.to_nat (u8 (1 + 3))) comm = sent /\ length comm = 63%nat)
    by (split; vm_compute; reflexivity).
  destruct Hcomm as [Hsent Hlcomm].
  destruct (MifarePutBuf_sends comm (u8 (1 + 3)) w) as (P1 & _ & _ & P4 & P5);
    [vm_compute; split; discriminate | rewrite Hlcomm; vm_compute; discriminate |].
  rewrite Hsent in P1.
  set (w1 := MifarePutBuf comm (u8 (1 + 3)) w) in *.
  assert (Hlen_answer : length answer = (length data + 6)%nat)
    by (unfold answer; cbn [length app]; rewrite length_app; cbn [length]; lia).
  destruct (MifareGetBuf_on_frame answer rest w1) as (G1 & G2 & G3 & G4);
    [exact Hok | lia
    | rewrite Hlen_answer; change (rd answer 1) with (Z.of_nat (length data) + 4); lia
    | rewrite P5; exact Hbuf | rewrite P4; exact Hrx |].
  rewrite Hsum in G4. cbn [Z.eqb] in G4.
  set (w2 := MifareGetBuf w1) in *.
  set (tail := repeat 0 (60 - length answer) ++ skipn 60 (io_rxBuf w1)) in *.
  assert (Hb : io_rxBuf w2
               = [0xBD; Z.of_nat (length data) + 4; SL_TCL; SL_OPERATION_SUCC; status]
                 ++ data ++ cks :: tail)
    by (rewrite G3; unfold answer; rewrite <- !app_assoc; reflexivity).
  assert (R1 : rd (io_rxBuf w2) 1 = Z.of_nat (length data) + 4)
    by (rewrite Hb; reflexivity).
  assert (R2 : rd (io_rxBuf w2) 2 = SL_TCL) by (rewrite Hb; reflexivity).
  assert (R3 : rd (io_rxBuf w2) 3 = SL_OPERATION_SUCC) by (rewrite Hb; reflexivity).
  assert (R4 : rd (io_rxBuf w2) 4 = status) by (rewrite Hb; reflexivity).
  rewrite G4, R2, R3, R4.
  replace ((status =? MF_OPERATION_OK) || (status =? MF_ADDITIONAL_FRAME)) with true
    by (destruct Hstatus as [-> | ->]; reflexivity).
  cbn [Z.eqb andb fst snd MF_UARTSTATUS_RXSUCC SL_TCL SL_OPERATION_SUCC Pos.eqb].
  cbn [set_io_rxBuf io_tx io_rx io_rxBuf].
  unfold MF_RXLEN, MF_RXDATA. cbn [set_io_rxBuf io_rxBuf].
  rewrite R1.
  replace (5 + (Z.of_nat (length data) + 4 - 3 - 1))
    with (Z.of_nat (length ([0xBD; Z.of_nat (length data) + 4; SL_TCL;
                             SL_OPERATION_SUCC; status] ++ data)))
    by (rewrite length_app; cbn [length]; lia).
  rewrite Hb.
  set (hdr := [0xBD; Z.of_nat (length data) + 4; SL_TCL; SL_OPERATION_SUCC; status]).
  rewrite (app_assoc hdr data (cks :: tail)), wr_app_at. subst hdr.
  split; [reflexivity|]. split; [rewrite G2; exact P1|]. split; [exact G1|].
  split.
  - rewrite <- app_assoc. cbn [app].
    match goal with
    | |- rd ?l 1 - 3 = _ => change (rd l 1) with (Z.of_nat (length data) + 4)
    end. lia.
  - rewrite <- app_assoc. cbn [app skipn].
    replace (data ++ status :: tail) with ((data ++ [status]) ++ tail)
      by (rewrite <- app_assoc; reflexivity).
    apply firstn_app_exact. rewrite length_app. reflexivity.
Qed.

(** X15: a command of one byte answered by a frame of the reader that is
    well formed (length byte right, XOR zero, command code T=CL, reader
    status success, card status OK or ADDITIONAL FRAME) makes
    [MifareCommTCL] send the one frame BA 03 21 cmd checksum, return
    SUCCESS, take the answer off the link, and leave the card's bytes at
    [MF_RXDATA] with the card's status moved behind them, [MF_RXLEN] counting
    both. *)
Theorem MifareCommTCL_exchange (buffer data rest : list Z) (status cks : Z)
  (w : mf_io) :
  let answer :=
    [0xBD; Z.of_nat (length data) + 4; SL_TCL; SL_OPERATION_SUCC; status]
    ++ data ++ [cks] in
  let sent := [0xBA; 3; SL_TCL; rd buffer 0] in
  bytes_ok answer = true -> (length answer <= 60)%nat ->
  frame_checksum answer = 0 ->
  status = MF_OPERATION_OK \/ status = MF_ADDITIONAL_FRAME ->
  (60 <= length (io_rxBuf w))%nat -> io_rx w = answer ++ rest ->
  fst (MifareCommTCL buffer 1 w) = SUCCESS /\
  io_tx (snd (MifareCommTCL buffer 1 w))
  = io_tx w ++ sent ++ [frame_checksum sent] /\
  io_rx (snd (MifareCommTCL buffer 1 w)) = rest /\
  MF_RXLEN (snd (MifareCommTCL buffer 1 w)) = Z.of_nat (length data) + 1 /\
  firstn (length data + 1) (MF_RXDATA (snd (MifareCommTCL buffer 1 w)))
  = data ++ [status].
Proof. exact (MifareCommTCL_one_byte buffer data rest status cks w). Qed.

(** ** Command buffers and little-endian integers *)

Lemma length_le_bytes (k : nat) (temp : Z) : length (le_bytes k temp) = k.
Proof.
  revert temp. induction k as [|k IH]; intros temp; [reflexivity|].
  cbn [le_bytes length]. rewrite IH. reflexivity.
Qed.

Lemma wr_at_length (a c : list Z) (x v : Z) (n : Z) :
  n = Z.of_nat (length a) -> wr (a ++ x :: c) n v = a ++ v :: c.
Proof. intros ->. apply wr_app_at. Qed.

Lemma split_at (l : list Z) (k : nat) :
  (k < length l)%nat -> exists a x c, l = a ++ x :: c /\ length a = k.
Proof.
  intros Hk. exists (firstn k l), (nth k l 0), (skipn (S k) l). split.
  - rewrite <- (skipn_nth_cons l k) by exact Hk. symmetry. apply firstn_skipn.
  - rewrite length_firstn. lia.
Qed.

Lemma skipn_past (a c : list Z) (x : Z) (k m : nat) :
  length a = k -> skipn (k + S m) (a ++ x :: c) = skipn m c.
Proof.
  intros Ha. rewrite skipn_app, skipn_all2 by lia. cbn [app].
  replace (k + S m - length a)%nat with (S m) by lia. reflexivity.
Qed.

Lemma append_le_loop_room (fuel : nat) (b : buffer) (temp n size : Z) :
  0 <= buf_n b -> n + Z.of_nat fuel <= size ->
  buf_n b + Z.of_nat fuel <= Z.of_nat (length (buf_array b)) ->
  Z.of_nat (length (buf_array b)) < 2 ^ size_bits ->
  append_le_loop fuel b temp n size
  = mk_buffer (buf_n b + Z.of_nat fuel)
      (firstn (Z.to_nat (buf_n b)) (buf_array b) ++ le_bytes fuel temp
       ++ skipn (Z.to_nat (buf_n b) + fuel) (buf_array b)).
Proof.
  revert b temp n. induction fuel as [|fuel IH]; intros b temp n Hn Hsize Hroom Hfit.
  - cbn [append_le_loop le_bytes app]. rewrite Nat.add_0_r, firstn_skipn, Z.add_0_r.
    destruct b; reflexivity.
  - cbn [append_le_loop].
    replace ((n <? size) && (buf_n b <? Z.of_nat (length (buf_array b)))) with true
      by (symmetry; apply andb_true_iff; split; apply Z.ltb_lt; lia).
    rewrite to_size_t_small by lia.
    rewrite IH; cbn [buf_n buf_array]; rewrite ?length_wr; try lia.
    f_equal; [lia|].
    destruct (split_at (buf_array b) (Z.to_nat (buf_n b))) as (a & x & c & Hl & Ha);
      [lia|].
    rewrite Hl. rewrite (wr_at_length a c x _ (buf_n b)) by lia.
    replace (Z.to_nat (buf_n b + 1)) with (S (Z.to_nat (buf_n b))) by lia.
    replace (a ++ u8 (Z.land temp 255) :: c)
      with ((a ++ [u8 (Z.land temp 255)]) ++ c)
      by (rewrite <- app_assoc; reflexivity).
    rewrite (firstn_app_exact (a ++ [u8 (Z.land temp 255)]) c)
      by (rewrite length_app; cbn [length]; lia).
    rewrite (firstn_app_exact a (x :: c)) by exact Ha.
    rewrite (skipn_past a c x _ fuel Ha).
    rewrite skipn_app, skipn_all2 by (rewrite length_app; cbn [length]; lia).
    cbn [app].
    replace (S (Z.to_nat (buf_n b)) + fuel - length (a ++ [u8 (Z.land temp 255)]))%nat
      with fuel by (rewrite length_app; cbn [length]; lia).
    cbn [le_bytes]. rewrite <- app_assoc. reflexivity.
Qed.

Lemma le_bytes_value (temp : Z) (rest : list Z) :
  0 <= temp < 2 ^ 32 ->
  le32toh (le_bytes 4 temp ++ rest) = temp /\
  le24toh (le_bytes 3 temp ++ rest) = temp mod 2 ^ 24 /\
  le16toh (le_bytes 2 temp ++ rest) = temp mod 2 ^ 16.
Proof.
  clear uninit.
  change (2 ^ 32) with 4294967296. change (2 ^ 24) with 16777216.
  change (2 ^ 16) with 65536. intros Ht.
  unfold le32toh, le24toh, le16toh. cbn [le_bytes app].
  rewrite !Z.shiftr_shiftr by lia. cbn [Z.add Pos.add Pos.succ].
  assert (B : forall x, u8 (Z.land x 255) = x mod 256).
  { intros x. rewrite u8_small.
    - change 255 with (Z.ones 8). rewrite Z.land_ones by lia. reflexivity.
    - change 255 with (Z.ones 8). apply (land_ones_range x 8). lia. }
  rewrite !B. rewrite !Z.shiftr_div_pow2 by lia.
  change (2 ^ 8) with 256. change (2 ^ 16) with 65536. change (2 ^ 24) with 16777216.
  set (b0 := temp mod 256). set (b1 := temp / 256 mod 256).
  set (b2 := temp / 65536 mod 256). set (b3 := temp / 16777216 mod 256).
  assert (H0 : 0 <= b0 < 256) by (apply Z.mod_pos_bound; lia).
  assert (H1 : 0 <= b1 < 256) by (apply Z.mod_pos_bound; lia).
  assert (H2 : 0 <= b2 < 256) by (apply Z.mod_pos_bound; lia).
  assert (H3 : 0 <= b3 < 256) by (apply Z.mod_pos_bound; lia).
  change (rd (b0 :: b1 :: b2 :: b3 :: rest) 0) with b0.
  change (rd (b0 :: b1 :: b2 :: b3 :: rest) 1) with b1.
  change (rd (b0 :: b1 :: b2 :: b3 :: rest) 2) with b2.
  change (rd (b0 :: b1 :: b2 :: b3 :: rest) 3) with b3.
  change (rd (b0 :: b1 :: b2 :: rest) 0) with b0.
  change (rd (b0 :: b1 :: b2 :: rest) 1) with b1.
  change (rd (b0 :: b1 :: b2 :: rest) 2) with b2.
  change (rd (b0 :: b1 :: rest) 0) with b0.
  change (rd (b0 :: b1 :: rest) 1) with b1.
  rewrite !(u16_small b0), !(u16_small b1) by lia.
  rewrite !(lor_shiftl_add b0 b1 8) by (change (2 ^ 8) with 256; lia).
  change (2 ^ 8) with 256.
  rewrite !(lor_shiftl_add _ b2 16) by (change (2 ^ 16) with 65536; lia).
  change (2 ^ 16) with 65536.
  rewrite (lor_shiftl_add _ b3 24) by (change (2 ^ 24) with 16777216; lia).
  change (2 ^ 24) with 16777216.
  rewrite u16_small by lia.
  change 4294967295 with (Z.ones 32). rewrite !Z.land_ones by lia.
  change (2 ^ 32) with 4294967296.
  rewrite !Z.mod_small by lia.
  unfold b0, b1, b2, b3. repeat split; Z.div_mod_to_equations; lia.
Qed.

(** X16: where the buffer has room, [BUFFER_APPEND_LE] of 4, 3 or 2 bytes
    followed by [le32toh], [le24toh] or [le16toh] at the place of the
    append gives the value back, reduced to the width appended; what the
    buffer held before stays, and its count grows by the width. *)
Theorem BUFFER_APPEND_LE_roundtrip (b : buffer) (data size : Z) :
  0 <= buf_n b -> 2 <= size <= 4 ->
  buf_n b + size <= Z.of_nat (length (buf_array b)) ->
  Z.of_nat (length (buf_array b)) < 2 ^ size_bits ->
  let b' := BUFFER_APPEND_LE b data size in
  let appended := skipn (Z.to_nat (buf_n b)) (buf_array b') in
  buf_n b' = buf_n b + size /\
  firstn (Z.to_nat (buf_n b)) (buf_array b')
  = firstn (Z.to_nat (buf_n b)) (buf_array b) /\
  (if size =? 4 then le32toh appended
   else if size =? 3 then le24toh appended
   else le16toh appended) = data mod 2 ^ (8 * size).
Proof.
  intros Hn Hsize Hroom Hfit b' appended.
  assert (Htemp : 0 <= Z.land data 0xffffffff < 2 ^ 32)
    by (apply (land_ones_range data 32); lia).
  assert (Hmod : Z.land data 0xffffffff = data mod 2 ^ 32)
    by (change 4294967295 with (Z.ones 32); apply Z.land_ones; lia).
  assert (Hb' : b' = mk_buffer (buf_n b + size)
                  (firstn (Z.to_nat (buf_n b)) (buf_array b)
                   ++ le_bytes (Z.to_nat size) (Z.land data 0xffffffff)
                   ++ skipn (Z.to_nat (buf_n b) + Z.to_nat size) (buf_array b))).
  { unfold b', BUFFER_APPEND_LE. rewrite append_le_loop_room by lia.
    rewrite Z2Nat.id by lia. reflexivity. }
  assert (Happ : appended
                 = le_bytes (Z.to_nat size) (Z.land data 0xffffffff)
                   ++ skipn (Z.to_nat (buf_n b) + Z.to_nat size) (buf_array b)).
  { unfold appended. rewrite Hb'. cbn [buf_array].
    apply skipn_app_exact. rewrite length_firstn. lia. }
  rewrite Happ, Hb'. cbn [buf_n buf_array].
  split; [reflexivity|].
  split; [apply firstn_app_exact; rewrite length_firstn; lia|].
  destruct (le_bytes_value (Z.land data 0xffffffff)
              (skipn (Z.to_nat (buf_n b) + Z.to_nat size) (buf_array b)) Htemp)
    as (E32 & E24 & E16).
  assert (size = 2 \/ size = 3 \/ size = 4) as [-> | [-> | ->]] by lia;
    cbn [Z.eqb Pos.eqb].
  - change (le_bytes (Z.to_nat 2)) with (le_bytes 2). rewrite E16, Hmod. change (8 * 2) with 16.
    change (2 ^ 32) with (2 ^ 16 * 2 ^ 16).
    rewrite Z.rem_mul_r by lia. rewrite Z.mul_comm, Z.mod_add by lia.
    apply Z.mod_mod. lia.
  - change (le_bytes (Z.to_nat 3)) with (le_bytes 3). rewrite E24, Hmod. change (8 * 3) with 24.
    change (2 ^ 32) with (2 ^ 24 * 2 ^ 8).
    rewrite Z.rem_mul_r by lia. rewrite Z.mul_comm, Z.mod_add by lia.
    apply Z.mod_mod. lia.
  - change (le_bytes (Z.to_nat 4)) with (le_bytes 4). rewrite E32, Hmod. reflexivity.
Qed.

Lemma append_bytes_loop_spec (fuel : nat) (b : buffer) (data : list Z) (n size : Z) :
  0 <= buf_n b <= Z.of_nat (length (buf_array b)) ->
  Z.of_nat (length (buf_array b)) < 2 ^ size_bits ->
  n + Z.of_nat fuel = size ->
  let b' := append_bytes_loop fuel b data n size in
  buf_n b' = Z.min (buf_n b + Z.of_nat fuel) (Z.of_nat (length (buf_array b))) /\
  length (buf_array b') = length (buf_array b) /\
  (forall i, 0 <= i < buf_n b' - buf_n b ->
     rd (buf_array b') (buf_n b + i) = u8 (rd data (n + i))) /\
  (forall j, 0 <= j -> j < buf_n b \/ buf_n b' <= j ->
     rd (buf_array b') j = rd (buf_array b) j).
Proof.
  revert b n. induction fuel as [|fuel IH]; intros b n Hn Hfit Hsize.
  - cbn [append_bytes_loop]. repeat split; intros; try lia.
  - cbn [append_bytes_loop].
    destruct (buf_n b <? Z.of_nat (length (buf_array b))) eqn:Hroom.
    + replace (n <? size) with true by (symmetry; apply Z.ltb_lt; lia).
      cbn [andb]. apply Z.ltb_lt in Hroom.
      rewrite to_size_t_small by lia.
      specialize (IH (mk_buffer (buf_n b + 1)
                        (wr (buf_array b) (buf_n b) (u8 (rd data n)))) (n + 1)).
      cbn [buf_n buf_array] in IH. rewrite length_wr in IH.
      destruct IH as (In & Il & Ia & Io); [lia | lia | lia |].
      set (b' := append_bytes_loop fuel _ data (n + 1) size) in *.
      cbv zeta. split; [lia|]. split; [exact Il|]. split.
      * intros i Hi. destruct (Z.eq_dec i 0) as [-> | Hne].
        -- rewrite Z.add_0_r, Z.add_0_r. rewrite Io by lia.
           apply rd_wr_same. lia.
        -- replace (buf_n b + i) with (buf_n b + 1 + (i - 1)) by lia.
           rewrite Ia by lia. do 2 f_equal. lia.
      * intros j Hj Hout. rewrite Io by lia. apply rd_wr_other; lia.
    + rewrite andb_false_r. apply Z.ltb_ge in Hroom.
      cbv zeta. repeat split; intros; try lia.
Qed.

(** X17: [BUFFER_APPEND_BYTES] stops at the end of the array: the count
    afterwards is the smaller of the count plus the size and the array's
    size, the bytes taken are the first of [data], in order, and every
    other slot of the array is as it was.  What does not fit is dropped
    without a sign. *)
Theorem BUFFER_APPEND_BYTES_truncates (b : buffer) (data : list Z) (size : Z) :
  0 <= buf_n b <= Z.of_nat (length (buf_array b)) ->
  Z.of_nat (length (buf_array b)) < 2 ^ size_bits ->
  0 <= size ->
  let b' := BUFFER_APPEND_BYTES b data size in
  buf_n b' = Z.min (buf_n b + size) (Z.of_nat (length (buf_array b))) /\
  length (buf_array b') = length (buf_array b) /\
  (forall i, 0 <= i < buf_n b' - buf_n b ->
     rd (buf_array b') (buf_n b + i) = u8 (rd data i)) /\
  (forall j, 0 <= j -> j < buf_n b \/ buf_n b' <= j ->
     rd (buf_array b') j = rd (buf_array b) j).
Proof.
  intros Hn Hfit Hsize. unfold BUFFER_APPEND_BYTES.
  pose proof (append_bytes_loop_spec (Z.to_nat size) b data 0 size Hn Hfit
                ltac:(lia)) as H.
  rewrite Z2Nat.id in H by lia. exact H.
Qed.

(** ** Application identifiers *)

Lemma wr_head3 (r0 r1 r2 v0 v1 v2 : Z) (rest : list Z) :
  wr (wr (wr (r0 :: r1 :: r2 :: rest) 0 v0) 1 v1) 2 v2 = v0 :: v1 :: v2 :: rest.
Proof.
  pose proof (wr_app_at [] (r1 :: r2 :: rest) r0 v0) as E0.
  pose proof (wr_app_at [v0] (r2 :: rest) r1 v1) as E1.
  pose proof (wr_app_at [v0; v1] rest r2 v2) as E2.
  cbn [app length] in E0, E1, E2.
  change (Z.of_nat 0) with 0 in E0. change (Z.of_nat 1) with 1 in E1.
  change (Z.of_nat 2) with 2 in E2.
  rewrite E0, E1, E2. reflexivity.
Qed.

(** X18: an application identifier of at most 24 bits written by
    [MifareAidNew] is read back by [MifareAidGetAid]; a larger one leaves
    the three bytes as they were. *)
Theorem Aid_roundtrip (res : list Z) (aid : Z) :
  (3 <= length res)%nat -> 0 <= aid < 2 ^ 32 ->
  (aid <= 0x00FFFFFF -> MifareAidGetAid (MifareAidNew res aid) = aid) /\
  (0x00FFFFFF < aid -> MifareAidNew res aid = res).
Proof.
  intros Hlen Haid. split.
  - intros Hsmall. unfold MifareAidNew.
    replace (aid >? 16777215) with false by (symmetry; rewrite Z.gtb_ltb; apply Z.ltb_ge; lia).
    destruct res as [|r0 [|r1 [|r2 rest]]]; cbn [length] in Hlen; try lia.
    cbn [fold_left].
    rewrite wr_head3.
    change (8 * 0) with 0. change (8 * 1) with 8. change (8 * 2) with 16.
    rewrite Z.shiftr_0_r.
    pose proof (le_bytes_value aid rest Haid) as (_ & E24 & _).
    unfold le24toh in E24. cbn [le_bytes app] in E24.
    rewrite Z.shiftr_shiftr in E24 by lia. change (8 + 8) with 16 in E24.
    unfold MifareAidGetAid. rewrite E24.
    apply Z.mod_small. change (2 ^ 24) with 16777216. lia.
  - intros Hbig. unfold MifareAidNew.
    replace (aid >? 16777215) with true by (symmetry; rewrite Z.gtb_ltb; apply Z.ltb_lt; lia).
    reflexivity.
Qed.

(** ** Connection *)

(** X19: [MifareConnect] on an inactive tag, when the reader answers the
    card selection with a 7-byte UID and the DESFire type and then the RATS
    with success: the call returns SUCCESS, has sent the two commands with
    their checksums and consumed the two answers; the tag is active, not
    authenticated, with no error and application 0 selected, it holds the
    UID, and its session key and scheme are untouched. *)
Theorem MifareConnect_exchange (tag : mifare_tag) (w : mf_io)
  (uid ats rest : list Z) (cks1 cks2 : Z) :
  let f1 := [0xBD; 11; SL_SELECT_CARD; SL_OPERATION_SUCC] ++ uid
            ++ [MIFARE_CARD_DES; cks1] in
  let f2 := [0xBD; Z.of_nat (length ats) + 3; SL_RATS; SL_OPERATION_SUCC] ++ ats
            ++ [cks2] in
  tag_active tag = 0 -> length uid = 7%nat ->
  bytes_ok f1 = true -> frame_checksum f1 = 0 ->
  bytes_ok f2 = true -> frame_checksum f2 = 0 -> (length f2 <= 60)%nat ->
  (60 <= length (io_rxBuf w))%nat -> io_rx w = f1 ++ f2 ++ rest ->
  let '(status, tag', w') := MifareConnect tag w in
  status = SUCCESS /\
  io_tx w' = io_tx w ++ SelectCard ++ [frame_checksum SelectCard]
             ++ RATSDesfire ++ [frame_checksum RATSDesfire] /\
  io_rx w' = rest /\
  tag_active tag' = TRUE /\
  firstn 7 (tag_uid tag') = uid /\
  tag_authenticated_key_no tag' = NOT_YET_AUTHENTICATED /\
  tag_selected_application tag' = 0 /\
  tag_last_picc_error tag' = MF_OPERATION_OK /\
  tag_last_pcd_error tag' = MF_OPERATION_OK /\
  tag_session_key tag' = tag_session_key tag /\
  tag_authentication_scheme tag' = tag_authentication_scheme tag.
Proof.
  intros f1 f2 Hact Huid Hok1 Hck1 Hok2 Hck2 Hlen2 Hbuf Hrx.
  assert (Hlen1 : length f1 = 13%nat).
  { unfold f1. rewrite length_app, length_app, Huid. reflexivity. }
  assert (Hf2 : length f2 = (length ats + 5)%nat).
  { unfold f2. rewrite length_app, length_app. cbn [length]. lia. }
  unfold MifareConnect. rewrite Hact. cbn [Z.eqb negb].
  set (w1 := MifarePutBuf SelectCard 3 w).
  destruct (MifarePutBuf_sends SelectCard 3 w ltac:(lia) ltac:(cbn; lia))
    as (T1 & _ & _ & R1 & B1).
  fold w1 in T1, R1, B1. change (firstn (Z.to_nat 3) SelectCard) with SelectCard in T1.
  destruct (MifareGetBuf_on_frame f1 (f2 ++ rest) w1 Hok1 ltac:(lia)
              ltac:(rewrite Hlen1; reflexivity) ltac:(rewrite B1; exact Hbuf)
              ltac:(rewrite R1; exact Hrx))
    as (R2 & T2 & B2 & U2).
  set (w2 := MifareGetBuf w1) in *.
  rewrite Hck1 in U2. cbn [Z.eqb] in U2.
  assert (E2 : forall i, 0 <= i < 13 -> rd (io_rxBuf w2) i = rd f1 i).
  { intros i Hi. rewrite B2. apply rd_app_l. lia. }
  assert (F1 : f1 = [0xBD; 11; SL_SELECT_CARD; SL_OPERATION_SUCC] ++ uid
                    ++ [MIFARE_CARD_DES; cks1]) by reflexivity.
  assert (D11 : rd f1 11 = MIFARE_CARD_DES).
  { rewrite F1. clear -Huid.
    do 7 (destruct uid as [|? uid]; [discriminate Huid|]).
    destruct uid; [reflexivity | discriminate Huid]. }
  rewrite U2, (E2 1), (E2 2), (E2 3) by lia.
  change (rd f1 1) with 11. change (rd f1 2) with SL_SELECT_CARD.
  change (rd f1 3) with SL_OPERATION_SUCC. rewrite (E2 11), D11 by lia.
  rewrite !Z.eqb_refl. cbn [andb].
  set (w3 := MifarePutBuf RATSDesfire 3 w2).
  destruct (MifarePutBuf_sends RATSDesfire 3 w2 ltac:(lia) ltac:(cbn; lia))
    as (T3 & _ & _ & R3 & B3).
  fold w3 in T3, R3, B3.
  change (firstn (Z.to_nat 3) RATSDesfire) with RATSDesfire in T3.
  assert (Hbuf2 : (60 <= length (io_rxBuf w2))%nat).
  { rewrite B2, length_app, length_app, repeat_length, length_skipn, B1. lia. }
  destruct (MifareGetBuf_on_frame f2 rest w3 Hok2 ltac:(lia)
              ltac:(rewrite Hf2; change (rd f2 1) with (Z.of_nat (length ats) + 3); lia)
              ltac:(rewrite B3; exact Hbuf2) ltac:(rewrite R3; exact R2))
    as (R4 & T4 & B4 & U4).
  set (w4 := MifareGetBuf w3) in *.
  rewrite Hck2 in U4. cbn [Z.eqb] in U4.
  assert (E4 : forall i, 0 <= i < 4 -> rd (io_rxBuf w4) i = rd f2 i).
  { intros i Hi. rewrite B4. apply rd_app_l. lia. }
  rewrite U4, (E4 2), (E4 3) by lia.
  change (rd f2 2) with SL_RATS. change (rd f2 3) with SL_OPERATION_SUCC.
  rewrite !Z.eqb_refl. cbn [andb].
  split; [reflexivity|]. split.
  { rewrite T4, T3, T2, T1. rewrite <- !app_assoc. reflexivity. }
  split; [exact R4|].
  cbn [set_tag_uid set_tag_active MifareTagInit tag_active tag_uid
       tag_authenticated_key_no tag_selected_application tag_last_picc_error
       tag_last_pcd_error tag_session_key tag_authentication_scheme].
  split; [reflexivity|]. split; [|repeat split].
  unfold memcpy. change (Z.to_nat MIFARE_UID_BYTES) with 7%nat.
  rewrite firstn_app.
  assert (Hu : firstn 7 (skipn 4 (io_rxBuf w2)) = uid).
  { rewrite B2, F1. rewrite <- app_assoc. cbn [app skipn].
    rewrite <- app_assoc. apply firstn_app_exact. exact Huid. }
  rewrite Hu, !(firstn_all2 (n := 7) uid) by lia. rewrite Huid.
  cbn [Nat.sub firstn].
  apply app_nil_r.
Qed.


(** ** Two plain commands *)

Lemma set_io_rxBuf_same (w : mf_io) :
  set_io_rxBuf w (firstn 5 (io_rxBuf w) ++ skipn 5 (io_rxBuf w)) = w.
Proof. rewrite firstn_skipn. destruct w; reflexivity. Qed.

Lemma postprocess_plain_legacy (tag : mifare_tag) (data : list Z) (nbytes cs : Z) :
  tag_authentication_scheme tag = AS_LEGACY ->
  Z.land cs MDCM_MASK = MDCM_PLAIN ->
  MifareCryptoPostprocessData tag data nbytes cs
  = Some (mk_post R_data nbytes data tag).
Proof.
  intros Hs Hm. unfold MifareCryptoPostprocessData.
  destruct (1 =? nbytes); [reflexivity|].
  rewrite Hm, Hs. reflexivity.
Qed.

Lemma MifareGetKeySettings_legacy (tag : mifare_tag) (w : mf_io) :
  0 < size_bits -> tag_active tag <> 0 ->
  tag_authentication_scheme tag = AS_LEGACY ->
  MifareGetKeySettings tag w
  = Some (mk_result SUCCESS tag (snd (MifareCommTCL [0x45] 1 w))
            (Some (rd (io_rxBuf (snd (MifareCommTCL [0x45] 1 w))) 5,
                   Z.land (rd (io_rxBuf (snd (MifareCommTCL [0x45] 1 w))) 6) 0x0F))).
Proof.
  intros Hsz Hact Hs. unfold MifareGetKeySettings.
  destruct (tag_active tag =? 0) eqn:E; [apply Z.eqb_eq in E; contradiction|].
  unfold BUFFER_ARRAY, BUFFER_SIZE, BUFFER_APPEND, BUFFER_INIT. cbn [buf_n buf_array].
  change (Z.to_nat 1) with 1%nat. cbn [repeat].
  change (wr [0] 0 (u8 69)) with [69].
  assert (H1 : to_size_t (0 + 1) = 1).
  { apply to_size_t_small. split; [lia|]. change 1 with (2 ^ 0) at 1.
    apply Z.pow_lt_mono_r; lia. }
  rewrite H1. unfold MifareCryptoPreprocessData.
  change (Z.land (Z.lor MDCM_PLAIN CMAC_COMMAND) MDCM_MASK =? MDCM_PLAIN) with true.
  cbv iota. rewrite Hs. cbn [pointer_bytes]. change (u8 1) with 1.
  destruct (MifareCommTCL [69] 1 w) as [st w1]. cbn [snd].
  rewrite postprocess_plain_legacy by (exact Hs || reflexivity).
  cbn [post_tag post_data post_res pointer_bytes].
  unfold MF_RXDATA. rewrite set_io_rxBuf_same.
  rewrite !rd_skipn by lia. reflexivity.
Qed.

Lemma rxdata_two_bytes (w : mf_io) (s m status : Z) :
  firstn (length [s; m] + 1) (MF_RXDATA w) = [s; m] ++ [status] ->
  rd (io_rxBuf w) 5 = s /\ rd (io_rxBuf w) 6 = m.
Proof.
  unfold MF_RXDATA, rd. destruct (io_rxBuf w) as [|r0 [|r1 [|r2 [|r3 [|r4 l]]]]];
    try discriminate.
  destruct l as [|r5 [|r6 l]]; try discriminate.
  cbn. intros H. injection H as -> -> _. split; reflexivity.
Qed.

(** X20: [MifareGetKeySettings] on an active tag of the legacy scheme, when
    the card answers the command with status 0 and two bytes: the call
    sends the one frame of the command 0x45, consumes the answer, returns
    SUCCESS and gives the first byte as the settings and the low nibble of
    the second as the number of keys; the tag is as it was. *)
Theorem MifareGetKeySettings_reads_answer (tag : mifare_tag) (w : mf_io)
  (s m cks : Z) (rest : list Z) :
  let answer :=
    [0xBD; 6; SL_TCL; SL_OPERATION_SUCC; MF_OPERATION_OK; s; m; cks] in
  let sent := [0xBA; 3; SL_TCL; 0x45] in
  0 < size_bits -> tag_active tag <> 0 ->
  tag_authentication_scheme tag = AS_LEGACY ->
  bytes_ok answer = true -> frame_checksum answer = 0 ->
  (60 <= length (io_rxBuf w))%nat -> io_rx w = answer ++ rest ->
  exists w',
    MifareGetKeySettings tag w
    = Some (mk_result SUCCESS tag w' (Some (s, Z.land m 0x0F))) /\
    io_tx w' = io_tx w ++ sent ++ [frame_checksum sent] /\
    io_rx w' = rest.
Proof.
  intros answer sent Hsz Hact Hs Hok Hck Hbuf Hrx.
  exists (snd (MifareCommTCL [0x45] 1 w)).
  rewrite MifareGetKeySettings_legacy by assumption.
  destruct (MifareCommTCL_one_byte [0x45] [s; m] rest MF_OPERATION_OK cks w
              Hok ltac:(cbn [length app]; lia) Hck ltac:(left; reflexivity)
              Hbuf Hrx) as (_ & Htx & Hrest & _ & Hdata).
  split; [|split; [exact Htx | exact Hrest]].
  destruct (rxdata_two_bytes _ _ _ _ Hdata) as [E5 E6].
  rewrite E5, E6. reflexivity.
Qed.

(** X21: on an active tag of the legacy scheme and a link that satisfies
    [link_fits], [MifareGetKeySettings] returns SUCCESS whatever frames the
    link delivers, the tag unchanged: the status of the exchange and the
    status byte of the card are not looked at.  When the reader does not
    answer at all, the settings and the number of keys it reports are
    both 0. *)
Theorem MifareGetKeySettings_legacy_never_fails (tag : mifare_tag) (w : mf_io) :
  0 < size_bits -> tag_active tag <> 0 ->
  tag_authentication_scheme tag = AS_LEGACY -> link_fits w ->
  exists out w',
    MifareGetKeySettings tag w = Some (mk_result SUCCESS tag w' (Some out)) /\
    (io_rx w = [] -> out = (0, 0)).
Proof.
  intros Hsz Hact Hs (Hlen & _ & _).
  assert (Hbuf : (60 <= length (io_rxBuf w))%nat)
    by (rewrite Hlen; apply Nat.leb_le; reflexivity).
  rewrite MifareGetKeySettings_legacy by assumption.
  eexists. eexists. split; [reflexivity|].
  intros Hrx. unfold MifareCommTCL.
  change (zrange 0 1) with [0]. cbn [fold_left commtcl_body].
  match goal with
  | |- context [MifareGetBuf (MifarePutBuf ?c ?n w)] =>
      destruct (MifarePutBuf_rx c n w) as [P1 P2];
      destruct (MifareGetBuf_on_short [] (MifarePutBuf c n w) eq_refl
                  ltac:(cbn [length]; lia) ltac:(left; cbn [length]; lia)
                  ltac:(rewrite P2; exact Hbuf) ltac:(rewrite P1; exact Hrx))
        as (_ & _ & _ & _ & G);
      set (w1 := MifareGetBuf (MifarePutBuf c n w)) in *
  end.
  cbn [snd set_io_rxBuf io_rxBuf]. cbn [app length Nat.sub] in G.
  assert (E : forall i, 0 <= i < 60 -> rd (io_rxBuf w1) i = 0).
  { intros i Hi. rewrite G, rd_app_l by (rewrite repeat_length; lia).
    unfold rd. apply nth_repeat. }
  rewrite (E 1), (E 4) by lia. change (5 + (0 - 3 - 1)) with 1.
  rewrite !rd_wr_other by lia. rewrite (E 5), (E 6) by lia. reflexivity.
Qed.

Lemma preprocess_plain_legacy (tag : mifare_tag) (data : list Z) (nbytes offset cs : Z) :
  tag_authentication_scheme tag = AS_LEGACY ->
  Z.land cs MDCM_MASK = MDCM_PLAIN ->
  MifareCryptoPreprocessData tag data nbytes offset cs = Some (R_data, nbytes, tag).
Proof.
  intros Hs Hm. unfold MifareCryptoPreprocessData. rewrite Hm, Hs. reflexivity.
Qed.

(** X22: [MifareSelectApplication] on an active tag of the legacy scheme
    and a link that satisfies [link_fits] returns SUCCESS whatever frames the
    link delivers and records the identifier as the selected application;
    the key number the tag is authenticated with, its session key and its
    chaining vector are kept as they were. *)
Theorem MifareSelectApplication_legacy (tag : mifare_tag) (aid : Z) (w : mf_io) :
  tag_active tag <> 0 -> tag_authentication_scheme tag = AS_LEGACY ->
  0 <= aid < 2 ^ 32 -> link_fits w ->
  exists r,
    MifareSelectApplication tag aid w = Some r /\
    res_status r = SUCCESS /\ res_out r = Some tt /\
    tag_selected_application (res_tag r) = aid /\
    tag_authenticated_key_no (res_tag r) = tag_authenticated_key_no tag /\
    tag_session_key (res_tag r) = tag_session_key tag /\
    tag_ivect (res_tag r) = tag_ivect tag /\
    tag_active (res_tag r) = tag_active tag.
Proof.
  intros Hact Hs Haid _. unfold MifareSelectApplication.
  destruct (tag_active tag =? 0) eqn:E; [apply Z.eqb_eq in E; contradiction|].
  rewrite preprocess_plain_legacy by (exact Hs || reflexivity).
  cbn [pointer_bytes].
  match goal with
  | |- context [MifareCommTCL ?b ?n w] => destruct (MifareCommTCL b n w) as [st w1]
  end.
  rewrite postprocess_plain_legacy by (exact Hs || reflexivity).
  cbn [post_tag post_data post_res].
  eexists. split; [reflexivity|].
  cbn [res_status res_out res_tag set_tag_selected_application
       tag_selected_application tag_authenticated_key_no tag_session_key
       tag_ivect tag_active].
  repeat split.
  change 4294967295 with (Z.ones 32). rewrite Z.land_ones by lia.
  apply Z.mod_small. exact Haid.
Qed.

(** ** Session keys *)

Lemma key_type_UpdateKeySchedules (key : mifare_desfire_key) :
  key_type (UpdateKeySchedules key) = key_type key.
Proof.
  unfold UpdateKeySchedules. cbn [set_key_ks1 set_key_ks2 key_type key_data].
  destruct (key_type_eqb T_3K3DES (key_type key)); reflexivity.
Qed.

Lemma memcpy_twice (dst src : list Z) :
  (8 <= length src)%nat ->
  memcpy_at (memcpy dst src 8) 8 src 8
  = firstn 8 src ++ firstn 8 src ++ skipn 16 dst.
Proof.
  intros H. unfold memcpy_at, store_at, memcpy.
  rewrite firstn_app_exact by (rewrite length_firstn; lia).
  rewrite skipn_app_exact by (rewrite length_firstn; lia).
  rewrite skipn_skipn. reflexivity.
Qed.

Tactic Notation "take_bytes" ident(l) ident(H) integer(n) :=
  do n (destruct l as [|? l]; [cbn [length] in H; lia|]).

(** X23: the session key [MifareSessionKeyNew] makes has the type of the
    authentication key, and its bytes are the 4-byte pieces of the two
    random numbers in the order of the scheme: for DES the first pieces,
    twice; for 3DES the pieces at 0 and at 4; for AES the pieces at 0 and
    at 12; for 3K3DES the pieces at 0, 6 and 12, where the first eight
    bytes alone have their low bit cleared. *)
Theorem MifareSessionKeyNew_layout (key : mifare_desfire_key)
  (rnda rndb : list Z) (authentication_key : mifare_desfire_key) :
  let need := match key_type authentication_key with
              | T_DES => 4%nat | T_3DES => 8%nat | _ => 16%nat
              end in
  (need <= length rnda)%nat -> (need <= length rndb)%nat ->
  let k := MifareSessionKeyNew key rnda rndb authentication_key in
  let a i := firstn 4 (skipn i rnda) in
  let b i := firstn 4 (skipn i rndb) in
  key_type k = key_type authentication_key /\
  key_data k
  = match key_type authentication_key with
    | T_DES => a 0%nat ++ b 0%nat ++ a 0%nat ++ b 0%nat ++ skipn 16 (key_data key)
    | T_3DES => a 0%nat ++ b 0%nat ++ a 4%nat ++ b 4%nat ++ skipn 16 (key_data key)
    | T_3K3DES =>
        map (fun x => u8 (Z.land x 0xfe)) (a 0%nat ++ b 0%nat)
        ++ a 6%nat ++ b 6%nat ++ a 12%nat ++ b 12%nat ++ skipn 24 (key_data key)
    | T_AES => a 0%nat ++ b 0%nat ++ a 12%nat ++ b 12%nat ++ skipn 16 (key_data key)
    end.
Proof.
  intros need Ha Hb k a b. unfold k, MifareSessionKeyNew, a, b. subst need.
  destruct (key_type authentication_key).
  - take_bytes rnda Ha 4. take_bytes rndb Hb 4.
    unfold MifareDesKeyNewWithVersion.
    rewrite key_type_UpdateKeySchedules, key_data_UpdateKeySchedules.
    split; [reflexivity|].
    cbn [key_data key_type set_key_data set_key_type].
    rewrite memcpy_twice by (apply Nat.leb_le; reflexivity).
    generalize (skipn 16 (key_data key)). intros t. reflexivity.
  - take_bytes rnda Ha 8. take_bytes rndb Hb 8.
    unfold Mifare3DesKeyNewWithVersion.
    rewrite key_type_UpdateKeySchedules, key_data_UpdateKeySchedules.
    split; [reflexivity|].
    cbn [key_data key_type set_key_data set_key_type]. unfold memcpy at 1.
    generalize (skipn 16 (key_data key)). intros t. reflexivity.
  - take_bytes rnda Ha 16. take_bytes rndb Hb 16.
    unfold Mifare3k3DesKeyNew, Mifare3k3DesKeyNewWithVersion.
    rewrite key_type_UpdateKeySchedules, key_data_UpdateKeySchedules.
    split; [reflexivity|].
    cbn [key_data key_type set_key_data set_key_type]. unfold memcpy at 1.
    generalize (skipn 24 (key_data key)). intros t. reflexivity.
  - take_bytes rnda Ha 16. take_bytes rndb Hb 16.
    unfold MifareAesKeyNew, MifareAesKeyNewWithVersion.
    split; [reflexivity|].
    cbn [key_data key_type set_key_data set_key_type set_key_aes_version].
    unfold memcpy at 1.
    generalize (skipn 16 (key_data key)). intros t. reflexivity.
Qed.

(** ** Checksums of nothing *)

Lemma to_size_t_minus_one : 0 < size_bits -> to_size_t (0 - 1) = 2 ^ size_bits - 1.
Proof.
  intros H. unfold to_size_t.
  assert (Hp : 2 <= 2 ^ size_bits).
  { change 2 with (2 ^ 1) at 1. apply Z.pow_le_mono_r; lia. }
  symmetry. apply (Z.mod_unique _ _ (-1)); lia.
Qed.

Lemma crc16_loop_overrun (data : list Z) (len reg : Z) :
  0 < size_bits -> 0 <= len < 2 ^ size_bits ->
  Z.of_nat (length data) < (if len =? 0 then 2 ^ size_bits else len) ->
  crc16_loop data len reg = None.
Proof.
  intros Hsz. revert len reg.
  induction data as [|bt rest IH]; intros len reg Hlen Hshort; [reflexivity|].
  cbn [crc16_loop]. cbn [length] in Hshort.
  assert (Hp : 2 <= 2 ^ size_bits).
  { change 2 with (2 ^ 1) at 1. apply Z.pow_le_mono_r; lia. }
  destruct (len =? 0) eqn:E.
  - apply Z.eqb_eq in E. subst len. rewrite to_size_t_minus_one by exact Hsz.
    destruct (2 ^ size_bits - 1 =? 0) eqn:E1; [apply Z.eqb_eq in E1; lia|].
    apply IH; [lia|]. rewrite E1. lia.
  - apply Z.eqb_neq in E. rewrite to_size_t_small by lia.
    destruct (len - 1 =? 0) eqn:E1; [apply Z.eqb_eq in E1; lia|].
    apply IH; [lia|]. rewrite E1. lia.
Qed.

Lemma Crc_of_nothing_16 (data : list Z) :
  0 < size_bits -> Z.of_nat (length data) < 2 ^ size_bits ->
  MifareCrc16 data 0 = None /\ MifareCrc16Append data 0 = None.
Proof.
  intros Hsz Hlen.
  assert (H16 : MifareCrc16 data 0 = None).
  { unfold MifareCrc16. rewrite crc16_loop_overrun; [reflexivity | exact Hsz | |].
    - split; [lia|]. apply Z.pow_pos_nonneg; lia.
    - exact Hlen. }
  split; [exact H16|]. unfold MifareCrc16Append. rewrite H16. reflexivity.
Qed.

(** X24: with a length of 0 the two checksums part ways.  The loop of
    [MifareCrc16] runs its body before it tests the length, and the length
    wraps: it goes through as many bytes as [size_t] has values, past the
    end of every buffer shorter than that.  [MifareCrc32] reads nothing and
    gives the four bytes of its initial register, 0xFF each. *)
Theorem Crc_of_nothing (data : list Z) :
  0 < size_bits -> Z.of_nat (length data) < 2 ^ size_bits ->
  MifareCrc16 data 0 = None /\
  MifareCrc16Append data 0 = None /\
  MifareCrc32 data 0 = Some [0xFF; 0xFF; 0xFF; 0xFF].
Proof.
  intros Hsz Hlen. destruct (Crc_of_nothing_16 data Hsz Hlen) as [H16 H16a].
  split; [exact H16|]. split; [exact H16a|].
  unfold MifareCrc32. destruct data; reflexivity.
Qed.

(** X25: in the legacy scheme, enciphering a command that has nothing
    behind its header ([*nbytes] equal to [offset], checksum wanted) hands
    length 0 to [MifareCrc16Append]: the checksum loop leaves the crypto
    buffer, whatever the key and the data. *)
Theorem preprocess_enciphered_no_payload (tag : mifare_tag) (data : list Z)
  (nbytes communication_settings : Z) :
  tag_authentication_scheme tag = AS_LEGACY ->
  Z.land communication_settings MDCM_MASK = MDCM_ENCIPHERED ->
  flag_set communication_settings ENC_COMMAND = true ->
  flag_set communication_settings NO_CRC = false ->
  0 < size_bits -> 0 <= nbytes ->
  Z.of_nat (length data) + Z.of_nat (length (tag_crypto_buffer tag))
  < 2 ^ size_bits ->
  MifareCryptoPreprocessData tag data nbytes nbytes communication_settings = None.
Proof.
  intros Hs Hmode Henc Hcrc Hsz Hn Hfit.
  unfold MifareCryptoPreprocessData. rewrite Hmode.
  change (MDCM_ENCIPHERED =? MDCM_PLAIN) with false.
  change (MDCM_ENCIPHERED =? MDCM_MACED) with false.
  change (MDCM_ENCIPHERED =? MDCM_ENCIPHERED) with true. cbv iota.
  unfold preprocess_enciphered. rewrite Henc, Hcrc, Hs. cbn [negb].
  rewrite Z.sub_diag.
  assert (H0 : to_size_t 0 = 0) by (unfold to_size_t; apply Z.mod_0_l; lia).
  rewrite H0.
  match goal with
  | |- context [MifareCrc16Append ?l 0] =>
      destruct (Crc_of_nothing_16 l Hsz) as [_ E]; [|rewrite E; reflexivity]
  end.
  rewrite length_skipn. unfold memcpy.
  rewrite length_app, length_firstn, length_skipn. lia.
Qed.

(** ** CMAC subkeys *)

Lemma Xor_zero (m n : nat) (data : list Z) : Xor (repeat 0 m) data n = data.
Proof.
  revert m data. induction n as [|n IH]; intros [|m] [|d ds];
    cbn [repeat Xor]; try reflexivity.
  rewrite Z.lxor_0_r, IH. reflexivity.
Qed.

Lemma cipher_blocks_one (key : mifare_desfire_key) (data iv : list Z)
  (direction : mifare_crypto_direction) (operation : mifare_crypto_operation)
  (fuel : nat) :
  8 <= size_bits -> (1 <= fuel)%nat ->
  cipher_blocks fuel key data iv 0 (KeyBlockSize key) direction operation
    (KeyBlockSize key)
  = MifareCipherSingleBlock key data iv direction operation
      (Z.to_nat (KeyBlockSize key)).
Proof.
  intros Hsz Hfuel. pose proof (KeyBlockSize_pos key) as Hbs.
  pose proof two_pow_size_bits Hsz as Hp.
  destruct fuel as [|fuel]; [lia|]. cbn [cipher_blocks].
  replace (0 <? KeyBlockSize key) with true by (symmetry; apply Z.ltb_lt; lia).
  change (Z.to_nat 0) with 0%nat. cbn [skipn].
  destruct (MifareCipherSingleBlock key data iv direction operation
              (Z.to_nat (KeyBlockSize key))) as [block iv'].
  unfold store_at. cbn [firstn app].
  rewrite to_size_t_small by lia. cbn [Z.add].
  destruct fuel as [|fuel]; cbn [cipher_blocks]; [reflexivity|].
  rewrite Z.ltb_irrefl. reflexivity.
Qed.

Lemma zero_block_enciphered (key : mifare_desfire_key) :
  8 <= size_bits ->
  let bs := Z.to_nat (KeyBlockSize key) in
  snd (cipher_with_key key (repeat 0 16) (repeat 0 16) (KeyBlockSize key)
         MCD_RECEIVE MCO_ENCIPHER)
  = firstn bs (block_cipher key MCO_ENCIPHER (repeat 0 16))
    ++ skipn bs (repeat 0 16).
Proof.
  intros Hsz bs. pose proof (KeyBlockSize_pos key) as Hbs.
  unfold cipher_with_key, MifareCipherBlocksChained, cipher_chain.
  rewrite cipher_blocks_one by (exact Hsz || lia).
  rewrite MifareCipherSingleBlock_eq by (rewrite repeat_length; lia).
  cbv zeta. cbn [cbc_data cbc_ivect snd]. fold bs.
  apply (Xor_zero 16).
Qed.

Lemma Lsl_app (a b : list Z) :
  a <> [] -> Lsl (a ++ b) (length a) = Lsl a (length a) ++ b.
Proof.
  induction a as [|d a IH]; intros Hne; [congruence|].
  destruct a as [|r a']; [reflexivity|].
  change (Lsl ((d :: r :: a') ++ b) (length (d :: r :: a')))
    with (u8 (Z.lor (Z.shiftl d 1) (Z.shiftr r 7))
          :: Lsl ((r :: a') ++ b) (length (r :: a'))).
  rewrite IH by discriminate. reflexivity.
Qed.

Lemma be_value_snoc (a : list Z) (x : Z) :
  be_value (a ++ [x]) = 256 * be_value a + x.
Proof.
  induction a as [|d a IH]; [cbn; lia|].
  cbn [app be_value]. rewrite IH, length_app. cbn [length].
  rewrite Nat.add_1_r, Nat2Z.inj_succ, Z.pow_succ_r by lia. ring.
Qed.

Lemma lxor_in_low_byte (a last R : Z) :
  0 <= last < 256 -> 0 <= R < 256 ->
  Z.lxor (256 * a + last) R = 256 * a + Z.lxor last R.
Proof.
  intros Hl HR.
  pose proof (lxor_range 8 last R Hl HR) as Hx. change (2 ^ 8) with 256 in Hx.
  replace (256 * a + last) with (Z.lor last (Z.shiftl a 8))
    by (rewrite lor_shiftl_add by (change (2 ^ 8) with 256; lia);
        change (2 ^ 8) with 256; lia).
  replace (256 * a + Z.lxor last R) with (Z.lor (Z.lxor last R) (Z.shiftl a 8))
    by (rewrite lor_shiftl_add by (change (2 ^ 8) with 256; lia);
        change (2 ^ 8) with 256; lia).
  apply Z.bits_inj'. intros i Hi.
  rewrite Z.lxor_spec, !Z.lor_spec, Z.lxor_spec.
  destruct (Z_lt_dec i 8) as [L|L].
  - rewrite Z.shiftl_spec_low by lia. rewrite !orb_false_r. reflexivity.
  - rewrite (testbit_high last 8 i), (testbit_high R 8 i)
      by (change (2 ^ 8) with 256; lia).
    cbn [xorb orb]. apply xorb_false_r.
Qed.

Lemma top_bit_of_byte (d : Z) :
  0 <= d < 256 -> (Z.land d 0x80 =? 0) = (d <? 128).
Proof.
  intros Hd.
  assert (H : forallb (fun d => Bool.eqb (Z.land d 0x80 =? 0) (d <? 128))
                      (zrange 0 256) = true) by (vm_compute; reflexivity).
  apply Bool.eqb_prop. exact (forallb_zrange _ _ _ _ H Hd).
Qed.

(** One subkey from the block before it: the copy, the shift and the
    conditional XOR of [CmacGenerateSubkeys]. *)
Lemma subkey_step (src old : list Z) (kbs R : Z) :
  1 <= kbs -> kbs <= Z.of_nat (length src) -> kbs <= Z.of_nat (length old) ->
  bytes_ok (firstn (Z.to_nat kbs) src) = true -> 0 <= R < 256 ->
  let bs := Z.to_nat kbs in
  let sk0 := Lsl (memcpy old src bs) bs in
  let sk := if Z.land (rd src 0) 0x80 =? 0 then sk0
            else wr sk0 (kbs - 1) (u8 (Z.lxor (rd sk0 (kbs - 1)) R)) in
  length sk = length old /\
  bytes_ok (firstn bs sk) = true /\
  be_value (firstn bs sk) = gf_double (8 * kbs) R (be_value (firstn bs src)).
Proof.
  intros Hk Hsrc Hold Hok HR bs sk0 sk.
  set (a := firstn bs src) in *. change (bytes_ok a = true) in Hok.
  assert (Ha : length a = bs) by (unfold a; rewrite length_firstn; lia).
  assert (Hne : a <> []) by (intros E; rewrite E in Ha; cbn in Ha; lia).
  assert (Esk0 : sk0 = Lsl a (length a) ++ skipn bs old).
  { unfold sk0, memcpy. fold a. rewrite <- Ha at 2. apply Lsl_app, Hne. }
  destruct (Lsl_value a Hok Hne) as [Hoks Hvs].
  set (s := Lsl a (length a)) in *.
  assert (Hs : length s = bs) by (unfold s; rewrite length_Lsl; exact Ha).
  pose proof (be_value_range _ Hoks) as Hrs. rewrite Hs in Hrs.
  pose proof (be_value_range _ Hok) as Hra. rewrite Ha in Hra.
  assert (Hd0 : rd src 0 = rd a 0).
  { unfold a, rd. change (Z.to_nat 0) with 0%nat.
    destruct src as [|x src']; [cbn [length] in Hsrc; lia|].
    destruct bs as [|bs'] eqn:Ebs; [lia|]. reflexivity. }
  assert (Hbyte : 0 <= rd a 0 < 256).
  { destruct a as [|x a']; [congruence|]. change (rd (x :: a') 0) with x.
    cbn [bytes_ok forallb] in Hok. apply andb_true_iff in Hok.
    apply is_byte_range, Hok. }
  assert (Hpow : 256 ^ Z.of_nat bs = 2 ^ (8 * kbs)).
  { unfold bs. rewrite Z2Nat.id by lia. rewrite Z.pow_mul_r by lia. reflexivity. }
  assert (Hhalf : 2 ^ (8 * kbs) = 2 * 2 ^ (8 * kbs - 1)).
  { rewrite <- Z.pow_succ_r by lia. f_equal. lia. }
  assert (Htop : (be_value a <? 2 ^ (8 * kbs - 1)) = (rd a 0 <? 128)).
  { destruct a as [|x a']; [congruence|]. change (rd (x :: a') 0) with x in *.
    cbn [bytes_ok forallb] in Hok. apply andb_true_iff in Hok.
    destruct Hok as [_ Hok'].
    pose proof (be_value_range _ Hok') as Hr'. cbn [length] in Ha.
    cbn [be_value]. 
    assert (Hp1 : 256 ^ Z.of_nat bs = 256 * 256 ^ Z.of_nat (length a')).
    { rewrite <- Ha, Nat2Z.inj_succ, Z.pow_succ_r by lia. reflexivity. }
    set (P := 256 ^ Z.of_nat (length a')) in *.
    assert (HP : 2 ^ (8 * kbs - 1) = 128 * P) by lia.
    rewrite HP.
    destruct (x <? 128) eqn:E.
    - apply Z.ltb_lt in E. apply Z.ltb_lt. nia.
    - apply Z.ltb_ge in E. apply Z.ltb_ge. nia. }
  assert (Hmod : (2 * be_value a) mod 2 ^ (8 * kbs) = be_value s).
  { rewrite <- Hpow.
    replace (2 * be_value a)
      with (be_value s + (rd a 0 / 128) * 256 ^ Z.of_nat bs)
      by (rewrite Hvs, Ha; lia).
    rewrite Z.mod_add by lia. apply Z.mod_small. exact Hrs. }
  unfold gf_double. rewrite Hmod, Htop.
  unfold sk. rewrite Hd0, (top_bit_of_byte _ Hbyte).
  destruct (rd a 0 <? 128) eqn:Etop.
  - rewrite Esk0. rewrite firstn_app_exact by exact Hs.
    split; [|split; [exact Hoks | symmetry; apply Z.lxor_0_r]].
    rewrite length_app, Hs, length_skipn. lia.
  - assert (Hsne : s <> []) by (intros E; rewrite E in Hs; cbn in Hs; lia).
    destruct (exists_last Hsne) as (init & last & Es).
    assert (Hinit : Z.of_nat (length init) = kbs - 1).
    { rewrite Es, length_app in Hs. cbn [length] in Hs. lia. }
    rewrite Es, bytes_ok_app in Hoks. apply andb_true_iff in Hoks.
    destruct Hoks as [Hoki Hokl].
    assert (Hlast : 0 <= last < 256).
    { cbn [bytes_ok forallb] in Hokl. apply andb_true_iff in Hokl.
      apply is_byte_range, Hokl. }
    pose proof (lxor_range 8 last R Hlast HR) as Hx. change (2 ^ 8) with 256 in Hx.
    assert (Erd : rd sk0 (kbs - 1) = last).
    { rewrite Esk0, Es, <- app_assoc. rewrite rd_app_r by lia.
      rewrite Hinit, Z.sub_diag. reflexivity. }
    rewrite Erd, (u8_small (Z.lxor last R)) by exact Hx.
    rewrite Esk0, Es, <- app_assoc. cbn [app].
    rewrite wr_at_length by lia.
    replace (init ++ Z.lxor last R :: skipn bs old)
      with ((init ++ [Z.lxor last R]) ++ skipn bs old)
      by (rewrite <- app_assoc; reflexivity).
    rewrite firstn_app_exact by (rewrite length_app; cbn [length]; lia).
    split; [|split].
    + rewrite !length_app, length_skipn. cbn [length]. lia.
    + rewrite bytes_ok_app, Hoki. cbn [andb bytes_ok forallb].
      rewrite is_byte_of_range by exact Hx. reflexivity.
    + rewrite !be_value_snoc. symmetry. apply lxor_in_low_byte; assumption.
Qed.

(** X26: the subkeys [CmacGenerateSubkeys] stores follow the doubling rule
    of CMAC.  With L the block the key makes of the zero block, read as a
    number with its most significant byte first, the first subkey is L
    doubled in GF(2^b) and the second is the first doubled again (the
    constant is 0x1B for a block of 8 bytes and 0x87 for 16); nothing else
    of the key changes. *)
Theorem CmacGenerateSubkeys_doubles (key : mifare_desfire_key) :
  8 <= size_bits ->
  (16 <= length (key_cmac_sk1 key))%nat -> (16 <= length (key_cmac_sk2 key))%nat ->
  let kbs := KeyBlockSize key in
  let bs := Z.to_nat kbs in
  let R := if kbs =? 8 then 0x1B else 0x87 in
  let L := firstn bs (snd (cipher_with_key key (repeat 0 16) (repeat 0 16) kbs
                             MCD_RECEIVE MCO_ENCIPHER)) in
  let k := CmacGenerateSubkeys key in
  be_value (firstn bs (key_cmac_sk1 k)) = gf_double (8 * kbs) R (be_value L) /\
  be_value (firstn bs (key_cmac_sk2 k))
  = gf_double (8 * kbs) R (be_value (firstn bs (key_cmac_sk1 k))) /\
  key_data k = key_data key /\ key_type k = key_type key /\
  key_ks1 k = key_ks1 key /\ key_ks2 k = key_ks2 key /\ key_ks3 k = key_ks3 key.
Proof.
  intros Hsz H1 H2 kbs bs R L k.
  pose proof (KeyBlockSize_pos key) as Hbs. fold kbs in Hbs.
  assert (HR : 0 <= R < 256) by (unfold R; destruct (kbs =? 8); lia).
  assert (Hmem : memset (repeat 0 (Z.to_nat MAX_CRYPTO_BLOCK_SIZE)) 0 bs
                 = repeat 0 16).
  { unfold bs, kbs.
    destruct (block_size_cases key) as [[_ E] | [_ E]]; rewrite E; reflexivity. }
  destruct (block_cipher_inverse key (repeat 0 16) [])
    as (Lbc & Bbc & _).
  { rewrite repeat_length. fold kbs. lia. }
  { fold kbs. fold bs. unfold bs, kbs.
    destruct (block_size_cases key) as [[_ E] | [_ E]]; rewrite E; reflexivity. }
  fold kbs in Lbc. fold bs in Lbc.
  pose proof (zero_block_enciphered key Hsz) as Hl. cbv zeta in Hl.
  fold kbs in Hl. fold bs in Hl.
  set (l := snd (cipher_with_key key (repeat 0 16) (repeat 0 16) kbs
                   MCD_RECEIVE MCO_ENCIPHER)) in *.
  assert (HL : firstn bs l = block_cipher key MCO_ENCIPHER (repeat 0 16)).
  { rewrite Hl. rewrite firstn_app_exact by (rewrite length_firstn; lia).
    apply firstn_all2. lia. }
  assert (Hll : Z.of_nat (length l) = 16).
  { rewrite Hl, length_app, length_firstn, length_skipn, repeat_length. lia. }
  destruct (subkey_step l (key_cmac_sk1 key) kbs R) as (S1 & B1 & V1);
    [lia | lia | lia | fold bs; rewrite HL; exact Bbc | exact HR |].
  fold bs in S1, B1, V1.
  set (sk1 := if Z.land (rd l 0) 0x80 =? 0
              then Lsl (memcpy (key_cmac_sk1 key) l bs) bs
              else wr (Lsl (memcpy (key_cmac_sk1 key) l bs) bs) (kbs - 1)
                     (u8 (Z.lxor (rd (Lsl (memcpy (key_cmac_sk1 key) l bs) bs)
                                     (kbs - 1)) R))) in *.
  destruct (subkey_step sk1 (key_cmac_sk2 key) kbs R) as (S2 & B2 & V2);
    [lia | lia | lia | fold bs; exact B1 | exact HR |].
  fold bs in S2, B2, V2.
  assert (Ek : k = set_key_cmac_sk2 (set_key_cmac_sk1 key sk1)
                 (if Z.land (rd sk1 0) 0x80 =? 0
                  then Lsl (memcpy (key_cmac_sk2 key) sk1 bs) bs
                  else wr (Lsl (memcpy (key_cmac_sk2 key) sk1 bs) bs) (kbs - 1)
                         (u8 (Z.lxor (rd (Lsl (memcpy (key_cmac_sk2 key) sk1 bs) bs)
                                         (kbs - 1)) R)))).
  { unfold k, CmacGenerateSubkeys. fold kbs. fold bs. rewrite Hmem.
    fold R. unfold l, sk1.
    destruct (cipher_with_key key (repeat 0 16) (repeat 0 16) kbs
                MCD_RECEIVE MCO_ENCIPHER) as [iv' l'].
    reflexivity. }
  rewrite Ek.
  cbn [set_key_cmac_sk1 set_key_cmac_sk2 key_cmac_sk1 key_cmac_sk2 key_data
       key_type key_ks1 key_ks2 key_ks3].
  split; [exact V1|]. split; [exact V2|]. repeat split.
Qed.

(** ** The key schedule and the low bit of the key bytes *)

Lemma agree_bits (M x y : Z) :
  agree_on M x y <->
  (forall i, 0 <= i -> Z.testbit M i = true -> Z.testbit x i = Z.testbit y i).
Proof.
  unfold agree_on. split.
  - intros H i Hi HM.
    assert (E : Z.testbit (Z.land x M) i = Z.testbit (Z.land y M) i)
      by (rewrite H; reflexivity).
    rewrite !Z.land_spec, HM, !andb_true_r in E. exact E.
  - intros H. apply Z.bits_inj'. intros i Hi. rewrite !Z.land_spec.
    destruct (Z.testbit M i) eqn:E.
    + rewrite (H i Hi E). reflexivity.
    + rewrite !andb_false_r. reflexivity.
Qed.

Lemma agree_at (M x y i : Z) :
  agree_on M x y -> Z.testbit M i = true -> Z.testbit x i = Z.testbit y i.
Proof.
  intros H HM. destruct (Z_lt_dec i 0) as [L|L].
  - rewrite !Z.testbit_neg_r by lia. reflexivity.
  - apply (proj1 (agree_bits M x y) H); [lia | exact HM].
Qed.

(** What the outputs of [PERM_OP] agree on when its inputs agree on [Ma]
    and [Mb]. *)
Lemma PERM_OP_agree (a a' b b' n m Ma Mb : Z) :
  0 <= n -> agree_on Ma a a' -> agree_on Mb b b' ->
  agree_on (Z.lor (Z.land (Z.shiftl m n) (Z.shiftl Mb n))
                  (Z.ldiff Ma (Z.shiftl m n)))
           (fst (PERM_OP a b n m)) (fst (PERM_OP a' b' n m)) /\
  agree_on (Z.lor (Z.land m (Z.shiftr Ma n)) (Z.ldiff Mb m))
           (snd (PERM_OP a b n m)) (snd (PERM_OP a' b' n m)).
Proof.
  intros Hn Ha Hb. unfold PERM_OP. cbn [fst snd].
  split; apply agree_bits; intros i Hi HM.
  - rewrite Z.lor_spec, Z.land_spec, Z.ldiff_spec, !Z.shiftl_spec in HM by lia.
    rewrite !Z.lxor_spec, !Z.shiftl_spec, !Z.land_spec, !Z.lxor_spec by lia.
    destruct (Z_lt_dec (i - n) 0) as [L|L].
    + rewrite !(Z.testbit_neg_r _ (i - n)) in * by lia.
      cbn [andb negb orb] in HM. rewrite andb_true_r in HM.
      rewrite (agree_at _ _ _ _ Ha HM). reflexivity.
    + rewrite !Z.shiftr_spec by lia.
      replace (i - n + n) with i by lia.
      destruct (Z.testbit m (i - n)) eqn:Em; cbn [andb negb orb] in HM.
      * rewrite !andb_true_r.
        rewrite andb_false_r, orb_false_r in HM.
        rewrite (agree_at _ _ _ _ Hb HM).
        destruct (Z.testbit a i), (Z.testbit a' i), (Z.testbit b' (i - n));
          reflexivity.
      * rewrite !andb_false_r, !xorb_false_r. rewrite andb_true_r in HM.
        apply (agree_at _ _ _ _ Ha HM).
  - rewrite Z.lor_spec, Z.land_spec, Z.ldiff_spec, Z.shiftr_spec in HM by lia.
    rewrite !Z.lxor_spec, !Z.land_spec, !Z.lxor_spec, !Z.shiftr_spec by lia.
    destruct (Z.testbit m i) eqn:Em; cbn [andb negb orb] in HM.
    + rewrite !andb_true_r. rewrite andb_false_r, orb_false_r in HM.
      rewrite (agree_at _ _ _ _ Ha HM).
      destruct (Z.testbit b i), (Z.testbit b' i), (Z.testbit a' (i + n));
        reflexivity.
    + rewrite !andb_false_r, !xorb_false_r. rewrite andb_true_r in HM.
      apply (agree_at _ _ _ _ Hb HM).
Qed.

(** The same for [HPERM_OP], when the mask [m] and its shift do not meet. *)
Lemma HPERM_OP_agree (a a' n m M : Z) :
  0 <= 16 - n -> Z.land m (Z.shiftr m (16 - n)) = 0 -> agree_on M a a' ->
  agree_on (Z.lor (Z.lor (Z.land m (Z.shiftl M (16 - n)))
                         (Z.land (Z.shiftr m (16 - n)) (Z.shiftr M (16 - n))))
                  (Z.ldiff (Z.ldiff M m) (Z.shiftr m (16 - n))))
           (HPERM_OP a n m) (HPERM_OP a' n m).
Proof.
  intros Hk Hdis Ha. unfold HPERM_OP. set (k := 16 - n) in *.
  apply agree_bits. intros i Hi HM.
  assert (Hd : Z.testbit m i && Z.testbit m (i + k) = false).
  { rewrite <- (Z.shiftr_spec m k i), <- Z.land_spec, Hdis by lia.
    apply Z.bits_0. }
  rewrite !Z.lor_spec, !Z.land_spec, !Z.ldiff_spec, !Z.shiftl_spec,
    !Z.shiftr_spec in HM by lia.
  rewrite !Z.lxor_spec, !Z.shiftr_spec, !Z.land_spec, !Z.lxor_spec,
    !Z.shiftl_spec by lia.
  replace (i + k - k) with i by lia.
  destruct (Z.testbit m i) eqn:Em; destruct (Z.testbit m (i + k)) eqn:Emk;
    cbn [andb] in Hd; try discriminate; cbn [andb negb orb] in HM.
  - rewrite !andb_true_r, !andb_false_r, !xorb_false_r.
    rewrite andb_false_r, !orb_false_r in HM.
    rewrite (agree_at _ _ _ _ Ha HM).
    destruct (Z.testbit a i), (Z.testbit a' i), (Z.testbit a' (i - k)); reflexivity.
  - rewrite !andb_true_r, !andb_false_r, !xorb_false_r.
    rewrite andb_false_r, orb_false_r in HM.
    rewrite (agree_at _ _ _ _ Ha HM).
    destruct (Z.testbit a i), (Z.testbit a' i), (Z.testbit a' (i + k)); reflexivity.
  - rewrite !andb_false_r, !xorb_false_r.
    rewrite !andb_true_r in HM. apply (agree_at _ _ _ _ Ha HM).
Qed.

Lemma agree_land (M m x y : Z) :
  Z.land M m = m -> agree_on M x y -> Z.land x m = Z.land y m.
Proof.
  unfold agree_on. intros Hm H.
  rewrite <- Hm, !Z.land_assoc, H. reflexivity.
Qed.

Lemma low_bit_free (x y j : Z) :
  x / 2 = y / 2 -> j <> 0 -> Z.testbit x j = Z.testbit y j.
Proof.
  intros H Hj. destruct (Z_lt_dec j 0) as [L|L].
  - rewrite !Z.testbit_neg_r by lia. reflexivity.
  - replace j with (j - 1 + 1) by lia.
    rewrite <- !Z.shiftr_spec, !Z.shiftr_div_pow2 by lia.
    change (2 ^ 1) with 2. rewrite H. reflexivity.
Qed.

Lemma c2l_agree (a b : list Z) :
  (forall i, 0 <= i < 4 -> rd a i / 2 = rd b i / 2) ->
  agree_on 0xfefefefe (c2l a) (c2l b).
Proof.
  intros H. apply agree_bits. intros i Hi HM. unfold c2l.
  rewrite !Z.lor_spec, !Z.shiftl_spec by lia.
  assert (E : forall k, 0 <= k < 4 ->
            Z.testbit (rd a k) (i - 8 * k) = Z.testbit (rd b k) (i - 8 * k)).
  { intros k Hk. apply low_bit_free; [apply H, Hk|].
    intros E0. assert (Ei : i = 8 * k) by lia.
    assert (Hc : k = 0 \/ k = 1 \/ k = 2 \/ k = 3) by lia.
    destruct Hc as [-> | [-> | [-> | ->]]]; subst i; vm_compute in HM;
      discriminate. }
  pose proof (E 0 ltac:(lia)) as E0. pose proof (E 1 ltac:(lia)) as E1.
  pose proof (E 2 ltac:(lia)) as E2. pose proof (E 3 ltac:(lia)) as E3.
  change (8 * 0) with 0 in E0. rewrite Z.sub_0_r in E0.
  change (8 * 1) with 8 in E1. change (8 * 2) with 16 in E2.
  change (8 * 3) with 24 in E3.
  rewrite E0, E1, E2, E3. reflexivity.
Qed.

Ltac mask_value H :=
  match type of H with
  | agree_on ?M _ _ => let v := eval vm_compute in M in change M with v in H
  end.

Lemma DES_set_key_low_bits (a b : list Z) :
  (forall i, 0 <= i < 8 -> rd a i / 2 = rd b i / 2) ->
  DES_set_key a = DES_set_key b.
Proof.
  intros H. unfold DES_set_key, DES_set_key_unchecked.
  assert (Hc : agree_on 0xfefefefe (c2l a) (c2l b))
    by (apply c2l_agree; intros i Hi; apply H; lia).
  assert (Hd : agree_on 0xfefefefe (c2l (skipn 4 a)) (c2l (skipn 4 b))).
  { apply c2l_agree. intros i Hi. rewrite !rd_skipn by lia. apply H.
    change (Z.of_nat 4) with 4. lia. }
  set (c0 := c2l a) in *. set (c0' := c2l b) in *.
  set (d0 := c2l (skipn 4 a)) in *. set (d0' := c2l (skipn 4 b)) in *.
  clearbody c0 c0' d0 d0'. clear H.
  destruct (PERM_OP_agree d0 d0' c0 c0' 4 0x0f0f0f0f _ _ ltac:(lia) Hd Hc)
    as [Hd1 Hc1].
  mask_value Hd1. mask_value Hc1.
  destruct (PERM_OP d0 c0 4 0x0f0f0f0f) as [d1 c1].
  destruct (PERM_OP d0' c0' 4 0x0f0f0f0f) as [d1' c1']. cbn [fst snd] in Hd1, Hc1.
  pose proof (HPERM_OP_agree c1 c1' (-2) 0xcccc0000 _ ltac:(lia) eq_refl Hc1)
    as Hc2.
  pose proof (HPERM_OP_agree d1 d1' (-2) 0xcccc0000 _ ltac:(lia) eq_refl Hd1)
    as Hd2.
  mask_value Hc2. mask_value Hd2.
  set (c2 := HPERM_OP c1 (-2) 0xcccc0000) in *.
  set (c2' := HPERM_OP c1' (-2) 0xcccc0000) in *.
  set (d2 := HPERM_OP d1 (-2) 0xcccc0000) in *.
  set (d2' := HPERM_OP d1' (-2) 0xcccc0000) in *.
  clearbody c2 c2' d2 d2'.
  destruct (PERM_OP_agree d2 d2' c2 c2' 1 0x55555555 _ _ ltac:(lia) Hd2 Hc2)
    as [Hd3 Hc3].
  mask_value Hd3. mask_value Hc3.
  destruct (PERM_OP d2 c2 1 0x55555555) as [d3 c3].
  destruct (PERM_OP d2' c2' 1 0x55555555) as [d3' c3']. cbn [fst snd] in Hd3, Hc3.
  destruct (PERM_OP_agree c3 c3' d3 d3' 8 0x00ff00ff _ _ ltac:(lia) Hc3 Hd3)
    as [Hc4 Hd4].
  mask_value Hd4. mask_value Hc4.
  destruct (PERM_OP c3 d3 8 0x00ff00ff) as [c4 d4].
  destruct (PERM_OP c3' d3' 8 0x00ff00ff) as [c4' d4']. cbn [fst snd] in Hd4, Hc4.
  destruct (PERM_OP_agree d4 d4' c4 c4' 1 0x55555555 _ _ ltac:(lia) Hd4 Hc4)
    as [Hd5 Hc5].
  mask_value Hd5. mask_value Hc5.
  destruct (PERM_OP d4 c4 1 0x55555555) as [d5 c5].
  destruct (PERM_OP d4' c4' 1 0x55555555) as [d5' c5']. cbn [fst snd] in Hd5, Hc5.
  rewrite (agree_land 0x00ffffff 0x000000ff d5 d5' eq_refl Hd5).
  rewrite (agree_land 0x00ffffff 0x0000ff00 d5 d5' eq_refl Hd5).
  rewrite (agree_land 0x00ffffff 0x00ff0000 d5 d5' eq_refl Hd5).
  rewrite (agree_land 0xffffffff 0xf0000000 c5 c5' eq_refl Hc5).
  rewrite (agree_land 0xffffffff 0x0fffffff c5 c5' eq_refl Hc5).
  reflexivity.
Qed.

(** X27: [DES_set_key] does not look at the low bit of the key bytes: two
    keys whose first eight bytes agree in all bits but the lowest have the
    same schedule.  The version [MifareKeySetVersion] stores in those bits
    is invisible to DES. *)
Theorem DES_set_key_ignores_low_bits (a b : list Z) :
  (forall i, 0 <= i < 8 -> rd a i / 2 = rd b i / 2) ->
  DES_set_key a = DES_set_key b.
Proof. exact (DES_set_key_low_bits a b). Qed.

(** X28: the schedules of a single-DES key survive [MifareKeySetVersion],
    which does not recompute them: if they are those of the key data
    before the call, and the two halves of the data hold the same key,
    they are those of the key data after it. *)
Theorem MifareKeySetVersion_des_schedules (key : mifare_desfire_key)
  (version : Z) :
  key_type key = T_DES ->
  (16 <= length (key_data key))%nat -> bytes_ok (key_data key) = true ->
  0 <= version < 256 ->
  (forall n, 0 <= n < 8 ->
     rd (key_data key) (n + 8) / 2 = rd (key_data key) n / 2) ->
  UpdateKeySchedules key = key ->
  UpdateKeySchedules (MifareKeySetVersion key version)
  = MifareKeySetVersion key version.
Proof.
  intros Hty Hlen Hok Hv Hhalves Hinv.
  assert (K1 : key_ks1 key = DES_set_key (key_data key)).
  { rewrite <- Hinv at 1. unfold UpdateKeySchedules.
    cbn [set_key_ks1 set_key_ks2 key_type key_data]. rewrite Hty. reflexivity. }
  assert (K2 : key_ks2 key = DES_set_key (skipn 8 (key_data key))).
  { rewrite <- Hinv at 1. unfold UpdateKeySchedules.
    cbn [set_key_ks1 set_key_ks2 key_type key_data]. rewrite Hty. reflexivity. }
  destruct (MifareKeySetVersion_changes key version Hlen Hok Hv)
    as (_ & _ & _ & Hfirst).
  pose proof (MifareKeySetVersion_des_copy key version) as Hcopy.
  assert (Hdiv : forall n, 0 <= n < 8 ->
            rd (key_data (MifareKeySetVersion key version)) n / 2
            = rd (key_data key) n / 2).
  { intros n Hn. rewrite (Hfirst n Hn).
    destruct (version_bit_of_01 version n Hv Hn) as [-> | ->].
    - rewrite Z.add_0_r, Z.mul_comm. apply Z.div_mul. lia.
    - symmetry. apply (Z.div_unique _ 2 _ 1); lia. }
  unfold UpdateKeySchedules.
  set (k := MifareKeySetVersion key version) in *.
  assert (T : key_type k = T_DES) by (unfold k, MifareKeySetVersion; exact Hty).
  assert (S1 : key_ks1 k = key_ks1 key) by reflexivity.
  assert (S2 : key_ks2 k = key_ks2 key) by reflexivity.
  assert (E1 : DES_set_key (key_data k) = key_ks1 k).
  { rewrite S1, K1. apply DES_set_key_low_bits. exact Hdiv. }
  assert (E2 : DES_set_key (skipn 8 (key_data k)) = key_ks2 k).
  { rewrite S2, K2. apply DES_set_key_low_bits. intros n Hn.
    rewrite !rd_skipn by lia. change (Z.of_nat 8) with 8.
    rewrite (Z.add_comm 8 n), (Hcopy n Hty Hlen Hn), (Hhalves n Hn).
    apply Hdiv, Hn. }
  cbn [set_key_ks1 set_key_ks2 key_type key_data].
  rewrite E1, E2, T. cbn [key_type_eqb].
  clear -T. destruct k. reflexivity.
Qed.

End Model.

(** * Concrete runs

    The model on the sample collaborators, with the 16-bit [size_t] of the
    PIC18 target. *)

(** [link_fits] on a given link, by running the check. *)
Ltac link_fits_here :=
  split; [reflexivity | split; [vm_compute; split; discriminate | reflexivity]].

Lemma sample_SPtrans_range (i j : Z) : in32 (sample_SPtrans i j).
Proof. unfold in32, sample_SPtrans. apply land_ones_range. lia. Qed.

Lemma sample_AES_contract (userKey input : list Z) :
  length input = 16%nat -> bytes_ok input = true ->
  length (sample_AES_encrypt input (sample_AES_set_key userKey (8 * 16))) = 16%nat /\
  bytes_ok (sample_AES_encrypt input (sample_AES_set_key userKey (8 * 16))) = true /\
  sample_AES_decrypt (sample_AES_encrypt input (sample_AES_set_key userKey (8 * 16)))
    (sample_AES_set_key userKey (8 * 16)) = input.
Proof.
  intros Hlen Hok. unfold sample_AES_encrypt, sample_AES_decrypt, sample_AES_set_key.
  set (k := u8 (rd userKey 0)).
  assert (Hk : 0 <= k < 2 ^ 8) by (apply (land_ones_range _ 8); lia).
  split; [|split].
  - rewrite length_map, length_rev. exact Hlen.
  - unfold bytes_ok in *. rewrite forallb_forall in *. intros x Hx.
    apply in_map_iff in Hx. destruct Hx as (b & <- & Hb).
    apply In_rev in Hb. apply Hok, is_byte_range in Hb.
    apply is_byte_of_range. apply (lxor_range 8); [exact Hb | exact Hk].
  - rewrite map_map.
    rewrite (map_ext _ (fun b => b)).
    + rewrite map_id. apply rev_involutive.
    + intros b. rewrite Z.lxor_assoc, Z.lxor_nilpotent, Z.lxor_0_r. reflexivity.
Qed.

(** The sample legacy authentication, up to the comparison. *)
Definition sample_auth : auth_state :=
  auth_exchange sample_SPtrans 16 (list Z) sample_AES_set_key sample_AES_set_key
    sample_AES_encrypt sample_AES_decrypt sample_uninit
    zero_tag MF_AUTHENTICATE_LEGACY 0 sample_des_key sample_rnd sample_auth_io.

(** ** Chaining *)

(** C1 on a DES key with two blocks and on an AES key with two blocks. *)
Lemma cipher_chained_roundtrip_witness :
  cbc_data
    (MifareCipherBlocksChained sample_SPtrans 16 (list Z) sample_AES_set_key
       sample_AES_set_key sample_AES_encrypt sample_AES_decrypt
       None (Some sample_des_key) (IV_buf (repeat 0 16%nat))
       (cbc_data
          (MifareCipherBlocksChained sample_SPtrans 16 (list Z) sample_AES_set_key
             sample_AES_set_key sample_AES_encrypt sample_AES_decrypt
             None (Some sample_des_key) (IV_buf (repeat 0 16%nat))
             sample_rnd 16 MCD_SEND MCO_ENCIPHER))
       16 MCD_RECEIVE MCO_DECIPHER)
  = sample_rnd /\
  cbc_data
    (MifareCipherBlocksChained sample_SPtrans 16 (list Z) sample_AES_set_key
       sample_AES_set_key sample_AES_encrypt sample_AES_decrypt
       None (Some sample_aes_key) (IV_buf (repeat 0 16%nat))
       (cbc_data
          (MifareCipherBlocksChained sample_SPtrans 16 (list Z) sample_AES_set_key
             sample_AES_set_key sample_AES_encrypt sample_AES_decrypt
             None (Some sample_aes_key) (IV_buf (repeat 0 16%nat))
             (sample_rnd ++ sample_rnd) 32 MCD_SEND MCO_ENCIPHER))
       32 MCD_RECEIVE MCO_DECIPHER)
  = sample_rnd ++ sample_rnd.
Proof.
  split.
  - exact (proj1 (cipher_chained_roundtrip sample_SPtrans 16 (list Z)
             sample_AES_set_key sample_AES_set_key sample_AES_encrypt
             sample_AES_decrypt sample_SPtrans_range sample_AES_contract
             sample_des_key (repeat 0 16%nat) sample_rnd
             eq_refl eq_refl eq_refl ltac:(vm_compute; lia) eq_refl)).
  - exact (proj1 (cipher_chained_roundtrip sample_SPtrans 16 (list Z)
             sample_AES_set_key sample_AES_set_key sample_AES_encrypt
             sample_AES_decrypt sample_SPtrans_range sample_AES_contract
             sample_aes_key (repeat 0 16%nat) (sample_rnd ++ sample_rnd)
             eq_refl eq_refl eq_refl ltac:(vm_compute; lia) eq_refl)).
Defined.

(** ** Lengths *)

(** C6 (as amended) on 13 bytes in blocks of 8. *)
Lemma PaddedDataLength_fits_witness :
  0 <= 13 /\ 0 < 8 /\ 13 + 8 < 2 ^ 16 /\ padded_length_spec 16 13 8.
Proof.
  split; [lia | split; [lia | split; [reflexivity |]]].
  apply (PaddedDataLength_fits 16 13 8); [lia | lia | reflexivity].
Defined.

(** C6 (counterexample to the claim as stated): with the 16-bit [size_t] of
    the target, the padded length of 65535 bytes in blocks of 8 wraps to 0,
    which is neither positive nor at least 65535. *)
Lemma PaddedDataLength_wraps :
  PaddedDataLength 16 65535 8 = 0 /\ ~ padded_length_spec 16 65535 8.
Proof.
  split; [vm_compute; reflexivity|].
  intros (_ & Hge & _). vm_compute in Hge. apply Hge. reflexivity.
Qed.

(** ** Checksums *)

(** C5 on the payload "123". *)
Lemma crc_append_then_crc_is_zero_witness :
  (exists buf,
     MifareCrc16Append 16 ([0x31; 0x32; 0x33] ++ [0; 0; 0; 0]) 3 = Some buf /\
     MifareCrc16 16 buf (3 + 2) = Some [0; 0]) /\
  (exists buf,
     MifareCrc32Append 16 ([0x31; 0x32; 0x33] ++ [0; 0; 0; 0]) 3 = Some buf /\
     MifareCrc32 16 buf (3 + 4) = Some [0; 0; 0; 0]).
Proof.
  apply (crc_append_then_crc_is_zero 16 [0x31; 0x32; 0x33] [0; 0; 0; 0]);
    [discriminate | cbn [length]; lia | reflexivity].
Defined.

(** ** Key versions *)

(** C8 on keys built from all-ones material, with version 0x55. *)
Lemma fresh_key_version_roundtrip_witness :
  MifareKeyGetVersion
    (MifareKeySetVersion (MifareDesKeyNew zero_key (repeat 0xFF 24%nat)) 0x55) = 0x55 /\
  MifareKeyGetVersion
    (MifareKeySetVersion (Mifare3DesKeyNew zero_key (repeat 0xFF 24%nat)) 0x55) = 0x55 /\
  MifareKeyGetVersion
    (MifareKeySetVersion (Mifare3k3DesKeyNew zero_key (repeat 0xFF 24%nat)) 0x55) = 0x55.
Proof.
  assert (H8 : (8 <= length (repeat 0xFF 24%nat))%nat)
    by (apply Nat.leb_le; reflexivity).
  assert (H16 : (16 <= length (repeat 0xFF 24%nat))%nat)
    by (apply Nat.leb_le; reflexivity).
  assert (H24 : (24 <= length (repeat 0xFF 24%nat))%nat)
    by (apply Nat.leb_le; reflexivity).
  destruct (fresh_key_version_roundtrip zero_key (repeat 0xFF 24%nat) 0x55
              eq_refl ltac:(lia)) as (Hdes & H3des & H3k & _).
  exact (conj (proj1 (Hdes H8)) (conj (proj1 (H3des H16)) (proj1 (H3k H24)))).
Defined.

(** ** Postprocessing *)

(** C10 on a MACed response of four bytes. *)
Lemma postprocess_short_frame_unverified_witness :
  MifareCryptoPostprocessData sample_SPtrans 16 (list Z) sample_AES_set_key
    sample_AES_set_key sample_AES_encrypt sample_AES_decrypt
    sample_new_tag [0x01; 0x02; 0x03; 0x00] 4
    (MDCM_MACED + CMAC_COMMAND + CMAC_VERIFY)
  = Some (mk_post R_data 4 [0x01; 0x02; 0x03; 0x00] sample_new_tag).
Proof.
  apply postprocess_short_frame_unverified;
    [reflexivity | right; reflexivity | reflexivity | reflexivity
    | unfold CMAC_LENGTH; lia].
Defined.

(** ** Preprocessing *)

(** C2 on a legacy tag: a one-byte header and five bytes of payload. *)
Lemma preprocess_enciphered_layout_witness :
  exists crc tag',
    MifareCrc16 16 [1; 2; 3; 4; 5] 5 = Some crc /\
    MifareCryptoPreprocessData sample_SPtrans 16 (list Z) sample_AES_set_key
      sample_AES_set_key sample_AES_encrypt sample_AES_decrypt
      sample_legacy_tag [0x54; 1; 2; 3; 4; 5] 6 1 (MDCM_ENCIPHERED + ENC_COMMAND)
    = Some (R_crypto_buffer, 9, tag') /\
    tag_crypto_buffer tag'
    = [0x54] ++
      fst (cipher_chain sample_SPtrans 16 (list Z) sample_AES_set_key
             sample_AES_set_key sample_AES_encrypt sample_AES_decrypt
             sample_des_key (repeat 0 16%nat)
             ([1; 2; 3; 4; 5] ++ crc ++ [0]
              ++ skipn 9 (tag_crypto_buffer sample_legacy_tag))
             8 MCD_SEND MCO_DECIPHER).
Proof.
  destruct (preprocess_enciphered_layout sample_SPtrans 16 (list Z)
              sample_AES_set_key sample_AES_set_key sample_AES_encrypt
              sample_AES_decrypt sample_legacy_tag [0x54; 1; 2; 3; 4; 5] 6 1
              (MDCM_ENCIPHERED + ENC_COMMAND))
    as (crc & tag' & Hcrc & _ & Hres & Hbuf & _);
    [reflexivity | reflexivity | reflexivity | lia | lia | cbn [length]; lia
    | reflexivity | vm_compute; discriminate |].
  exists crc, tag'. split; [exact Hcrc|]. split; [exact Hres|]. exact Hbuf.
Defined.

(** C2 (counterexample to the claim as stated): on a legacy tag with a DES
    session key, a one-byte header and two bytes of payload, the length
    returned is 9.  It is no multiple of the block size 8, so the buffer is
    not padded to one; and it is not the padded length, which is 8 for the
    three bytes with their CRC16 and 8 for the two bytes of payload with
    it, but the header's one byte more. *)
Lemma preprocess_enciphered_length_counts_header :
  option_map (fun r => snd (fst r))
    (MifareCryptoPreprocessData sample_SPtrans 16 (list Z) sample_AES_set_key
       sample_AES_set_key sample_AES_encrypt sample_AES_decrypt
       sample_legacy_tag [0x3D; 0xA1; 0xA2] 3 1 (MDCM_ENCIPHERED + ENC_COMMAND))
  = Some 9 /\
  KeyBlockSize (tag_session_key sample_legacy_tag) = 8 /\
  9 mod 8 <> 0 /\
  PaddedDataLength 16 (3 + 2) 8 = 8 /\
  PaddedDataLength 16 (3 - 1 + 2) 8 = 8.
Proof.
  split; [vm_compute; reflexivity|].
  split; [reflexivity|].
  split; [vm_compute; discriminate|].
  split; reflexivity.
Qed.

(** ** Authentication *)

(** C3 on the sample legacy run, in which the card's answer is not the
    rotation of RndA. *)
Lemma authenticate_mismatch_fails_witness :
  let '(status, tag', _) :=
    Authenticate sample_SPtrans 16 (list Z) sample_AES_set_key sample_AES_set_key
      sample_AES_encrypt sample_AES_decrypt sample_uninit
      zero_tag MF_AUTHENTICATE_LEGACY 0 sample_des_key sample_rnd sample_auth_io in
  status = FAIL /\
  tag_authenticated_key_no tag' = NOT_YET_AUTHENTICATED /\
  tag_session_key tag' = tag_session_key zero_tag /\
  key_cmac_sk1 (tag_session_key tag') = key_cmac_sk1 (tag_session_key zero_tag) /\
  key_cmac_sk2 (tag_session_key tag') = key_cmac_sk2 (tag_session_key zero_tag).
Proof.
  apply (authenticate_mismatch_fails sample_SPtrans 16 (list Z)
           sample_AES_set_key sample_AES_set_key sample_AES_encrypt
           sample_AES_decrypt sample_uninit zero_tag MF_AUTHENTICATE_LEGACY 0
           sample_des_key sample_rnd sample_auth_io);
    [discriminate
    | link_fits_here
    | reflexivity
    | vm_compute; split; [reflexivity | discriminate]
    | vm_compute; reflexivity].
Defined.

(** C4 (as amended) on the sample legacy run. *)
Lemma authenticate_token_witness :
  auth_key_length sample_auth = 8 /\
  let a :=
    auth_exchange sample_SPtrans 16 (list Z) sample_AES_set_key sample_AES_set_key
      sample_AES_encrypt sample_AES_decrypt sample_uninit
      zero_tag MF_AUTHENTICATE_LEGACY 0 sample_des_key sample_rnd sample_auth_io in
  let n := Z.to_nat (auth_key_length a) in
  firstn (n + n) (auth_token_plain a)
  = firstn n sample_rnd ++ firstn n (Rol (auth_PICC_RndB a) (auth_key_length a)) /\
  auth_token a
  = fst (if MF_AUTHENTICATE_LEGACY =? MF_AUTHENTICATE_LEGACY
         then cipher_chain sample_SPtrans 16 (list Z) sample_AES_set_key
                sample_AES_set_key sample_AES_encrypt sample_AES_decrypt
                sample_des_key
                (memset (auth_iv_step2 a) 0 (Z.to_nat MAX_CRYPTO_BLOCK_SIZE))
                (auth_token_plain a) (to_size_t 16 (2 * auth_key_length a))
                MCD_SEND MCO_DECIPHER
         else cipher_chain sample_SPtrans 16 (list Z) sample_AES_set_key
                sample_AES_set_key sample_AES_encrypt sample_AES_decrypt
                sample_des_key (auth_iv_step2 a)
                (auth_token_plain a) (to_size_t 16 (2 * auth_key_length a))
                MCD_SEND MCO_ENCIPHER).
Proof.
  split; [vm_compute; reflexivity|].
  apply (authenticate_token sample_SPtrans 16 (list Z) sample_AES_set_key
           sample_AES_set_key sample_AES_encrypt sample_AES_decrypt
           sample_uninit zero_tag MF_AUTHENTICATE_LEGACY 0 sample_des_key
           sample_rnd sample_auth_io).
  - link_fits_here.
  - vm_compute. split; [reflexivity | discriminate].
  - reflexivity.
  - vm_compute. lia.
Defined.

(** C4 (counterexample to the claim as stated): in the sample legacy run
    deciphering the challenge leaves the enciphered challenge in the IV,
    and the token sent is not the one the chaining yields from that IV. *)
Lemma legacy_token_restarts_iv :
  firstn 8 (auth_iv_step2 sample_auth)
  = [0x11; 0x22; 0x33; 0x44; 0x55; 0x66; 0x77; 0x88] /\
  auth_token sample_auth
  <> fst (cipher_chain sample_SPtrans 16 (list Z) sample_AES_set_key
            sample_AES_set_key sample_AES_encrypt sample_AES_decrypt
            sample_des_key (auth_iv_step2 sample_auth)
            (auth_token_plain sample_auth) 16 MCD_SEND MCO_DECIPHER).
Proof.
  split; [vm_compute; reflexivity|]. vm_compute. discriminate.
Qed.

(** ** Further properties *)

(** X1 on the first byte pair of a zero 3DES key, with version 0xAA. *)
Lemma set_version_body_second_half_witness :
  rd (set_version_body T_3DES 0xAA (repeat 0 24%nat) 0) (0 + 8)
  = 0xFF - version_bit_of 0xAA 0.
Proof.
  apply set_version_body_second_half;
    [discriminate | lia | lia | cbn [repeat length]; lia].
Defined.

(** X2 on a payload of three bytes: 21 bytes are sent. *)
Lemma MifareCommTCL_tx_length_witness :
  Z.of_nat (length (io_tx (snd (MifareCommTCL sample_uninit [1; 2; 3] 3 zero_io))))
  = Z.of_nat (length (io_tx zero_io)) + 3 * (3 + 4).
Proof.
  apply (MifareCommTCL_tx_length sample_uninit [1; 2; 3] 3 zero_io);
    [vm_compute; split; discriminate
    | apply Nat.leb_le; reflexivity
    | link_fits_here].
Defined.

(** X3 on the sample table and the schedule of the sample DES key. *)
Lemma DES_decrypt_inverts_encrypt_witness :
  DES_ecb_encrypt sample_SPtrans
    (DES_ecb_encrypt sample_SPtrans sample_rnd (key_ks1 sample_des_key) DES_ENCRYPT)
    (key_ks1 sample_des_key) DES_DECRYPT
  = firstn 8 sample_rnd /\
  DES_ecb_encrypt sample_SPtrans
    (DES_ecb_encrypt sample_SPtrans sample_rnd (key_ks1 sample_des_key) DES_DECRYPT)
    (key_ks1 sample_des_key) DES_ENCRYPT
  = firstn 8 sample_rnd.
Proof.
  apply (DES_decrypt_inverts_encrypt sample_SPtrans sample_SPtrans_range);
    [cbn [sample_rnd length]; lia | reflexivity].
Defined.

(** Inputs of the runs below: a command buffer holding the command byte of
    the application selection, a link on which the reader has delivered one
    answer to the key-settings command, and a tag that is not connected. *)
Definition sample_cmd_buffer : buffer := mk_buffer 1 (0x5A :: repeat 0 11%nat).

Definition sample_settings_answer : list Z :=
  [0xBD; 6; SL_TCL; SL_OPERATION_SUCC; MF_OPERATION_OK; 0x0F; 0x01; 0x94].

Definition sample_settings_io : mf_io :=
  mk_io [] (sample_settings_answer ++ []) 0 0 MF_UARTSTATUS_FREE
        (repeat 0 (Z.to_nat (MAX_FRAME_SIZE + 5))).

Definition sample_uid : list Z := [0x04; 0x11; 0x22; 0x33; 0x44; 0x55; 0x66].
Definition sample_ats : list Z := [0x06; 0x75; 0x77; 0x81; 0x02; 0x80].

Definition sample_connect_io : mf_io :=
  mk_io []
        (([0xBD; 11; SL_SELECT_CARD; SL_OPERATION_SUCC] ++ sample_uid
          ++ [MIFARE_CARD_DES; 0xC2])
         ++ ([0xBD; Z.of_nat (length sample_ats) + 3; SL_RATS; SL_OPERATION_SUCC]
             ++ sample_ats ++ [0x93])
         ++ [])
        0 0 MF_UARTSTATUS_FREE (repeat 0 (Z.to_nat (MAX_FRAME_SIZE + 5))).

Definition sample_inactive_tag : mifare_tag := set_tag_active zero_tag 0.

(** X5 on the two bytes 0x80 0x01: the top bit leaves. *)
Lemma Lsl_doubles_witness :
  be_value (Lsl [0x80; 0x01] (length [0x80; 0x01]))
  = (2 * be_value [0x80; 0x01]) mod 2 ^ (8 * Z.of_nat (length [0x80; 0x01])).
Proof. apply (Lsl_doubles [0x80; 0x01]); [reflexivity | discriminate]. Defined.

(** X6 with a 16-bit [size_t] on a full frame with a one-byte header. *)
Lemma crypto_lengths_fit_buffers_witness :
  60 <= EncipheredDataLength 16 zero_tag (60 - 1) MDCM_ENCIPHERED + 1
     <= MAX_CRYPTO_BUFFER_SIZE /\
  MacedDataLength 16 (tag_session_key zero_tag) 60 <= MAX_CRYPTO_BUFFER_SIZE /\
  PaddedDataLength 16 60 (KeyBlockSize (tag_session_key zero_tag))
  <= MAX_PADDED_DATA_LENGTH.
Proof.
  apply (crypto_lengths_fit_buffers 16 zero_tag 60 1 MDCM_ENCIPHERED);
    [lia | lia | unfold MAX_FRAME_SIZE; lia].
Defined.

(** X7 on the key 01 23 45 67 89 AB CD EF. *)
Lemma MifareDesKeyNew_shape_witness :
  let half := map (fun b => u8 (Z.land b 0xfe))
                  (firstn 8 [0x01; 0x23; 0x45; 0x67; 0x89; 0xAB; 0xCD; 0xEF]) in
  let k := MifareDesKeyNew zero_key
             [0x01; 0x23; 0x45; 0x67; 0x89; 0xAB; 0xCD; 0xEF] in
  key_type k = T_DES /\
  key_data k = half ++ half ++ skipn 16 (key_data zero_key) /\
  MifareKeyGetVersion k = 0 /\
  key_ks1 k = DES_set_key half /\ key_ks2 k = DES_set_key half.
Proof.
  apply (MifareDesKeyNew_shape zero_key
           [0x01; 0x23; 0x45; 0x67; 0x89; 0xAB; 0xCD; 0xEF]);
    [apply Nat.leb_le; reflexivity | reflexivity].
Defined.

(** X8 on sixteen bytes 0x55, at byte 3. *)
Lemma Mifare3DesKeyNew_halves_differ_witness :
  let k := Mifare3DesKeyNew zero_key (repeat 0x55 16%nat) in
  key_type k = T_3DES /\
  MifareKeyGetVersion k = 0 /\
  Z.land (rd (key_data k) 3) 1 = 0 /\
  Z.land (rd (key_data k) (3 + 8)) 1 = 1 /\
  rd (key_data k) 3 <> rd (key_data k) (3 + 8).
Proof.
  apply (Mifare3DesKeyNew_halves_differ zero_key (repeat 0x55 16%nat) 3);
    [apply Nat.leb_le; reflexivity | reflexivity | lia].
Defined.

(** X9 on the zero DES key with version 0xAA. *)
Lemma MifareKeySetVersion_frame_witness :
  let k := MifareKeySetVersion zero_key 0xAA in
  (key_type k = key_type zero_key /\
   key_ks1 k = key_ks1 zero_key /\
   key_ks2 k = key_ks2 zero_key /\
   key_ks3 k = key_ks3 zero_key /\
   key_cmac_sk1 k = key_cmac_sk1 zero_key /\
   key_cmac_sk2 k = key_cmac_sk2 zero_key) /\
  length (key_data k) = length (key_data zero_key) /\
  (forall j, 16 <= j -> rd (key_data k) j = rd (key_data zero_key) j) /\
  (forall n, 0 <= n < 8 ->
     rd (key_data k) n
     = 2 * (rd (key_data zero_key) n / 2) + version_bit_of 0xAA n).
Proof.
  apply (MifareKeySetVersion_frame zero_key 0xAA);
    [apply Nat.leb_le; reflexivity | reflexivity | lia].
Defined.

(** X10 on the zero DES key with version 0xAA, at byte 3. *)
Lemma MifareKeySetVersion_des_halves_witness :
  rd (key_data (MifareKeySetVersion zero_key 0xAA)) (3 + 8)
  = rd (key_data (MifareKeySetVersion zero_key 0xAA)) 3.
Proof.
  apply (MifareKeySetVersion_des_halves zero_key 0xAA 3);
    [reflexivity | apply Nat.leb_le; reflexivity | lia].
Defined.

(** X11 on the card-selection command. *)
Lemma MifarePutBuf_frame_witness :
  let sent := firstn (Z.to_nat 3) SelectCard in
  let w' := MifarePutBuf SelectCard 3 zero_io in
  io_tx w' = io_tx zero_io ++ sent ++ [frame_checksum sent] /\
  frame_checksum (sent ++ [frame_checksum sent]) = 0 /\
  io_uartStatus w' = MF_UARTSTATUS_TXSUCC /\
  io_rx w' = io_rx zero_io /\ io_rxBuf w' = io_rxBuf zero_io.
Proof.
  apply (MifarePutBuf_frame SelectCard 3 zero_io);
    [lia | cbn [SelectCard length]; lia].
Defined.

(** X12 on the answer to the key-settings command. *)
Lemma MifareGetBuf_frame_witness :
  let w' := MifareGetBuf sample_settings_io in
  io_rx w' = [] /\ io_tx w' = io_tx sample_settings_io /\
  io_rxBuf w'
  = sample_settings_answer ++ repeat 0 (60 - length sample_settings_answer)
    ++ skipn 60 (io_rxBuf sample_settings_io) /\
  io_uartStatus w'
  = (if frame_checksum sample_settings_answer =? 0
     then MF_UARTSTATUS_RXSUCC else MF_UARTSTATUS_RXERR).
Proof.
  apply (MifareGetBuf_frame sample_settings_answer [] sample_settings_io);
    [reflexivity
    | split; apply Nat.leb_le; reflexivity
    | reflexivity
    | apply Nat.leb_le; reflexivity
    | reflexivity].
Defined.

(** X13 on an answer cut after its third byte. *)
Lemma MifareGetBuf_timeout_witness :
  let w' := MifareGetBuf (mk_io [] [0xBD; 6; SL_TCL] 0 0 MF_UARTSTATUS_FREE
                                (repeat 0 65%nat)) in
  io_uartStatus w' = MF_UARTSTATUS_RXERR /\ io_timerOvertime w' = 1 /\
  io_rx w' = [] /\
  io_tx w' = io_tx (mk_io [] [0xBD; 6; SL_TCL] 0 0 MF_UARTSTATUS_FREE
                          (repeat 0 65%nat)) /\
  io_rxBuf w'
  = [0xBD; 6; SL_TCL] ++ repeat 0 (60 - length [0xBD; 6; SL_TCL])
    ++ skipn 60 (io_rxBuf (mk_io [] [0xBD; 6; SL_TCL] 0 0 MF_UARTSTATUS_FREE
                                 (repeat 0 65%nat))).
Proof.
  apply (MifareGetBuf_timeout [0xBD; 6; SL_TCL]
           (mk_io [] [0xBD; 6; SL_TCL] 0 0 MF_UARTSTATUS_FREE (repeat 0 65%nat)));
    [reflexivity
    | apply Nat.leb_le; reflexivity
    | right; reflexivity
    | apply Nat.leb_le; reflexivity
    | reflexivity].
Defined.

(** X14 on the key-settings command and a reader that does not answer. *)
Lemma MifareCommTCL_silent_witness :
  fst (MifareCommTCL sample_uninit [0x45] 1 zero_io) <> SUCCESS /\
  fst (MifareCommTCL sample_uninit [0x45] 1 zero_io) = 255 /\
  fst (MifareCommTCL sample_uninit [0x45] 1 zero_io) <> FAIL /\
  io_rx (snd (MifareCommTCL sample_uninit [0x45] 1 zero_io)) = [].
Proof.
  apply (MifareCommTCL_silent sample_uninit [0x45] 1 zero_io);
    [vm_compute; split; discriminate
    | apply Nat.leb_le; reflexivity
    | link_fits_here
    | reflexivity].
Defined.

(** X15 on the key-settings command and its answer. *)
Lemma MifareCommTCL_exchange_witness :
  fst (MifareCommTCL sample_uninit [0x45] 1 sample_settings_io) = SUCCESS /\
  io_tx (snd (MifareCommTCL sample_uninit [0x45] 1 sample_settings_io))
  = io_tx sample_settings_io ++ [0xBA; 3; SL_TCL; rd [0x45] 0]
    ++ [frame_checksum [0xBA; 3; SL_TCL; rd [0x45] 0]] /\
  io_rx (snd (MifareCommTCL sample_uninit [0x45] 1 sample_settings_io)) = [] /\
  MF_RXLEN (snd (MifareCommTCL sample_uninit [0x45] 1 sample_settings_io))
  = Z.of_nat (length [0x0F; 0x01]) + 1 /\
  firstn (length [0x0F; 0x01] + 1)
         (MF_RXDATA (snd (MifareCommTCL sample_uninit [0x45] 1 sample_settings_io)))
  = [0x0F; 0x01] ++ [MF_OPERATION_OK].
Proof.
  apply (MifareCommTCL_exchange sample_uninit [0x45] [0x0F; 0x01] []
           MF_OPERATION_OK 0x94 sample_settings_io);
    [reflexivity
    | apply Nat.leb_le; reflexivity
    | reflexivity
    | left; reflexivity
    | apply Nat.leb_le; reflexivity
    | reflexivity].
Defined.

(** X16 with a 16-bit [size_t]: the identifier 0x123456 behind the command
    byte. *)
Lemma BUFFER_APPEND_LE_roundtrip_witness :
  let b' := BUFFER_APPEND_LE 16 sample_cmd_buffer 0x123456 3 in
  let appended := skipn (Z.to_nat (buf_n sample_cmd_buffer)) (buf_array b') in
  buf_n b' = buf_n sample_cmd_buffer + 3 /\
  firstn (Z.to_nat (buf_n sample_cmd_buffer)) (buf_array b')
  = firstn (Z.to_nat (buf_n sample_cmd_buffer)) (buf_array sample_cmd_buffer) /\
  (if 3 =? 4 then le32toh appended
   else if 3 =? 3 then le24toh appended
   else le16toh appended) = 0x123456 mod 2 ^ (8 * 3).
Proof.
  apply (BUFFER_APPEND_LE_roundtrip 16 sample_cmd_buffer 0x123456 3);
    [cbn; lia | lia | cbn; lia | cbn; lia].
Defined.

(** X17 with a 16-bit [size_t]: three bytes into a buffer of four that
    holds two. *)
Lemma BUFFER_APPEND_BYTES_truncates_witness :
  let b := mk_buffer 2 [1; 2; 0; 0] in
  let b' := BUFFER_APPEND_BYTES 16 b [7; 8; 9] 3 in
  buf_n b' = Z.min (buf_n b + 3) (Z.of_nat (length (buf_array b))) /\
  length (buf_array b') = length (buf_array b) /\
  (forall i, 0 <= i < buf_n b' - buf_n b ->
     rd (buf_array b') (buf_n b + i) = u8 (rd [7; 8; 9] i)) /\
  (forall j, 0 <= j -> j < buf_n b \/ buf_n b' <= j ->
     rd (buf_array b') j = rd (buf_array b) j).
Proof.
  apply (BUFFER_APPEND_BYTES_truncates 16 (mk_buffer 2 [1; 2; 0; 0]) [7; 8; 9] 3);
    [cbn; lia | cbn; lia | lia].
Defined.

(** X18 on the identifier 0x123456. *)
Lemma Aid_roundtrip_witness :
  (0x123456 <= 0x00FFFFFF
   -> MifareAidGetAid (MifareAidNew [0; 0; 0] 0x123456) = 0x123456) /\
  (0x00FFFFFF < 0x123456 -> MifareAidNew [0; 0; 0] 0x123456 = [0; 0; 0]).
Proof.
  apply (Aid_roundtrip [0; 0; 0] 0x123456);
    [apply Nat.leb_le; reflexivity | lia].
Defined.

(** X19 on a card with the sample UID. *)
Lemma MifareConnect_exchange_witness :
  let '(status, tag', w') := MifareConnect sample_inactive_tag sample_connect_io in
  status = SUCCESS /\
  io_tx w' = io_tx sample_connect_io ++ SelectCard ++ [frame_checksum SelectCard]
             ++ RATSDesfire ++ [frame_checksum RATSDesfire] /\
  io_rx w' = [] /\
  tag_active tag' = TRUE /\
  firstn 7 (tag_uid tag') = sample_uid /\
  tag_authenticated_key_no tag' = NOT_YET_AUTHENTICATED /\
  tag_selected_application tag' = 0 /\
  tag_last_picc_error tag' = MF_OPERATION_OK /\
  tag_last_pcd_error tag' = MF_OPERATION_OK /\
  tag_session_key tag' = tag_session_key sample_inactive_tag /\
  tag_authentication_scheme tag' = tag_authentication_scheme sample_inactive_tag.
Proof.
  apply (MifareConnect_exchange sample_inactive_tag sample_connect_io
           sample_uid sample_ats [] 0xC2 0x93);
    [reflexivity | reflexivity | reflexivity | reflexivity | reflexivity
    | reflexivity | apply Nat.leb_le; reflexivity
    | apply Nat.leb_le; reflexivity | reflexivity].
Defined.

(** X20 on the sample collaborators, with a 16-bit [size_t]. *)
Lemma MifareGetKeySettings_reads_answer_witness :
  exists w',
    MifareGetKeySettings sample_SPtrans 16 (list Z) sample_AES_set_key
      sample_AES_set_key sample_AES_encrypt sample_AES_decrypt sample_uninit
      zero_tag sample_settings_io
    = Some (mk_result (Z * Z) SUCCESS zero_tag w' (Some (0x0F, Z.land 0x01 0x0F))) /\
    io_tx w' = io_tx sample_settings_io ++ [0xBA; 3; SL_TCL; 0x45]
               ++ [frame_checksum [0xBA; 3; SL_TCL; 0x45]] /\
    io_rx w' = [].
Proof.
  apply (MifareGetKeySettings_reads_answer sample_SPtrans 16 (list Z)
           sample_AES_set_key sample_AES_set_key sample_AES_encrypt
           sample_AES_decrypt sample_uninit zero_tag sample_settings_io
           0x0F 0x01 0x94 []);
    [lia | discriminate | reflexivity | reflexivity | reflexivity
    | apply Nat.leb_le; reflexivity | reflexivity].
Defined.

(** X21 on a reader that does not answer. *)
Lemma MifareGetKeySettings_legacy_never_fails_witness :
  exists out w',
    MifareGetKeySettings sample_SPtrans 16 (list Z) sample_AES_set_key
      sample_AES_set_key sample_AES_encrypt sample_AES_decrypt sample_uninit
      zero_tag zero_io
    = Some (mk_result (Z * Z) SUCCESS zero_tag w' (Some out)) /\
    (io_rx zero_io = [] -> out = (0, 0)).
Proof.
  apply (MifareGetKeySettings_legacy_never_fails sample_SPtrans 16 (list Z)
           sample_AES_set_key sample_AES_set_key sample_AES_encrypt
           sample_AES_decrypt sample_uninit zero_tag zero_io);
    [lia | discriminate | reflexivity | link_fits_here].
Defined.

(** X22 on the identifier 0x123456 and a reader that does not answer. *)
Lemma MifareSelectApplication_legacy_witness :
  exists r,
    MifareSelectApplication sample_SPtrans 16 (list Z) sample_AES_set_key
      sample_AES_set_key sample_AES_encrypt sample_AES_decrypt sample_uninit
      zero_tag 0x123456 zero_io = Some r /\
    res_status unit r = SUCCESS /\ res_out unit r = Some tt /\
    tag_selected_application (res_tag unit r) = 0x123456 /\
    tag_authenticated_key_no (res_tag unit r) = tag_authenticated_key_no zero_tag /\
    tag_session_key (res_tag unit r) = tag_session_key zero_tag /\
    tag_ivect (res_tag unit r) = tag_ivect zero_tag /\
    tag_active (res_tag unit r) = tag_active zero_tag.
Proof.
  apply (MifareSelectApplication_legacy sample_SPtrans 16 (list Z)
           sample_AES_set_key sample_AES_set_key sample_AES_encrypt
           sample_AES_decrypt sample_uninit zero_tag 0x123456 zero_io);
    [discriminate | reflexivity | lia | link_fits_here].
Defined.

(** X23 on the random numbers of the sample run and a DES key. *)
Lemma MifareSessionKeyNew_layout_witness :
  let k := MifareSessionKeyNew zero_key sample_rnd sample_rnd zero_key in
  let a i := firstn 4 (skipn i sample_rnd) in
  let b i := firstn 4 (skipn i sample_rnd) in
  key_type k = key_type zero_key /\
  key_data k
  = match key_type zero_key with
    | T_DES => a 0%nat ++ b 0%nat ++ a 0%nat ++ b 0%nat ++ skipn 16 (key_data zero_key)
    | T_3DES => a 0%nat ++ b 0%nat ++ a 4%nat ++ b 4%nat ++ skipn 16 (key_data zero_key)
    | T_3K3DES =>
        map (fun x => u8 (Z.land x 0xfe)) (a 0%nat ++ b 0%nat)
        ++ a 6%nat ++ b 6%nat ++ a 12%nat ++ b 12%nat ++ skipn 24 (key_data zero_key)
    | T_AES => a 0%nat ++ b 0%nat ++ a 12%nat ++ b 12%nat ++ skipn 16 (key_data zero_key)
    end.
Proof.
  apply (MifareSessionKeyNew_layout zero_key sample_rnd sample_rnd zero_key);
    apply Nat.leb_le; reflexivity.
Defined.

(** X24 with a 16-bit [size_t] on a buffer of three bytes. *)
Lemma Crc_of_nothing_witness :
  MifareCrc16 16 [1; 2; 3] 0 = None /\
  MifareCrc16Append 16 [1; 2; 3] 0 = None /\
  MifareCrc32 16 [1; 2; 3] 0 = Some [0xFF; 0xFF; 0xFF; 0xFF].
Proof. apply (Crc_of_nothing 16 [1; 2; 3]); [lia | reflexivity]. Defined.

(** X25 on a command that is its header only. *)
Lemma preprocess_enciphered_no_payload_witness :
  MifareCryptoPreprocessData sample_SPtrans 16 (list Z) sample_AES_set_key
    sample_AES_set_key sample_AES_encrypt sample_AES_decrypt
    zero_tag [0x54] 1 1 (Z.lor MDCM_ENCIPHERED ENC_COMMAND) = None.
Proof.
  apply (preprocess_enciphered_no_payload sample_SPtrans 16 (list Z)
           sample_AES_set_key sample_AES_set_key sample_AES_encrypt
           sample_AES_decrypt zero_tag [0x54] 1 (Z.lor MDCM_ENCIPHERED ENC_COMMAND));
    [reflexivity | reflexivity | reflexivity | reflexivity | lia | lia
    | reflexivity].
Defined.

(** X26 on the zero DES key. *)
Lemma CmacGenerateSubkeys_doubles_witness :
  let kbs := KeyBlockSize zero_key in
  let bs := Z.to_nat kbs in
  let R := if kbs =? 8 then 0x1B else 0x87 in
  let L := firstn bs
             (snd (cipher_with_key sample_SPtrans 16 (list Z) sample_AES_set_key
                     sample_AES_set_key sample_AES_encrypt sample_AES_decrypt
                     zero_key (repeat 0 16) (repeat 0 16) kbs
                     MCD_RECEIVE MCO_ENCIPHER)) in
  let k := CmacGenerateSubkeys sample_SPtrans 16 (list Z) sample_AES_set_key
             sample_AES_set_key sample_AES_encrypt sample_AES_decrypt zero_key in
  be_value (firstn bs (key_cmac_sk1 k)) = gf_double (8 * kbs) R (be_value L) /\
  be_value (firstn bs (key_cmac_sk2 k))
  = gf_double (8 * kbs) R (be_value (firstn bs (key_cmac_sk1 k))) /\
  key_data k = key_data zero_key /\ key_type k = key_type zero_key /\
  key_ks1 k = key_ks1 zero_key /\ key_ks2 k = key_ks2 zero_key /\
  key_ks3 k = key_ks3 zero_key.
Proof.
  apply (CmacGenerateSubkeys_doubles sample_SPtrans 16 (list Z)
           sample_AES_set_key sample_AES_set_key sample_AES_encrypt
           sample_AES_decrypt sample_SPtrans_range sample_AES_contract zero_key);
    [lia | apply Nat.leb_le; reflexivity | apply Nat.leb_le; reflexivity].
Defined.

(** X27 on the sample key and the same key with every low bit cleared. *)
Lemma DES_set_key_ignores_low_bits_witness :
  DES_set_key [0x01; 0x23; 0x45; 0x67; 0x89; 0xAB; 0xCD; 0xEF]
  = DES_set_key [0x00; 0x22; 0x44; 0x66; 0x88; 0xAA; 0xCC; 0xEE].
Proof.
  apply (DES_set_key_ignores_low_bits
           [0x01; 0x23; 0x45; 0x67; 0x89; 0xAB; 0xCD; 0xEF]
           [0x00; 0x22; 0x44; 0x66; 0x88; 0xAA; 0xCC; 0xEE]).
  intros i Hi.
  assert (i = 0 \/ i = 1 \/ i = 2 \/ i = 3 \/ i = 4 \/ i = 5 \/ i = 6 \/ i = 7)
    as [-> | [-> | [-> | [-> | [-> | [-> | [-> | ->]]]]]]] by lia;
    reflexivity.
Defined.

(** X28 on the sample DES key with version 0xAA. *)
Lemma MifareKeySetVersion_des_schedules_witness :
  UpdateKeySchedules (MifareKeySetVersion sample_des_key 0xAA)
  = MifareKeySetVersion sample_des_key 0xAA.
Proof.
  apply (MifareKeySetVersion_des_schedules sample_des_key 0xAA);
    [reflexivity
    | apply Nat.leb_le; vm_compute; reflexivity
    | vm_compute; reflexivity
    | lia
    | intros n Hn;
      assert (n = 0 \/ n = 1 \/ n = 2 \/ n = 3 \/ n = 4 \/ n = 5 \/ n = 6 \/ n = 7)
        as [-> | [-> | [-> | [-> | [-> | [-> | [-> | ->]]]]]]] by lia;
      vm_compute; reflexivity
    | vm_compute; reflexivity].
Defined.
